(** * go-webview2: the RPC bridge, the deferred-closure queue, the loader
      shim and the installer bootstrap

    A shallow embedding of the two Go sources of the repository:

    - the [webview2] package (window wrapper, [msgcb], [callbinding],
      [Dispatch], [Run], [Bind], [Webview2AutoInstall]);
    - the [webviewloader] package ([loadFromMemory], the three pass-through
      calls, [InstallUsingBootstrapper], [runInstaller]).

    Everything the sources import but do not define (encoding/json, reflect,
    Win32, os/exec, the winloader) is kept abstract: it is a field of an
    interface record, and every statement is proved for all its
    implementations.  Effects on the outside of the process are recorded, in
    order, in a trace. *)

From Stdlib Require Import ZArith Ascii String List Lia DecimalString.
From stdpp Require Import base gmap strings list.

Local Open Scope string_scope.
Local Open Scope Z_scope.
Local Open Scope list_scope.

(** ** Results of the imported library calls *)

(** A library call that hands back either a value or an error, the error being
    known to the program only through its text. *)
Inductive lib (A : Type) : Type :=
| Ok (a : A)
| Fail (text : string).
Arguments Ok {A} a.
Arguments Fail {A} text.

(** [strconv.Itoa]. *)
Definition Itoa (n : Z) : string := NilZero.string_of_int (Z.to_int n).

(** ** The wire message

    [type rpcMessage struct { ID int; Method string; Params []json.RawMessage }];
    a raw JSON value is kept as its text. *)
Record rpcMessage : Type := {
  ID : Z;
  Method : string;
  Params : list string
}.

(** A Win32 message as [Run] looks at it. *)
Record Msg : Type := {
  Message : Z;
  Hwnd : Z
}.

(** ** What the sources import

    [Value] stands for the Go values that travel through [reflect.Value] and
    [interface{}], [GoType] for [reflect.Type], [World] for whatever state the
    bound native functions read and write. *)
Class Externals : Type := {
  Value : Type;
  GoType : Type;
  World : Type;
  GoType_inhabited :: Inhabited GoType;
  (** [t.Implements(errorType)] *)
  Implements_error : GoType -> bool;
  (** [t.Elem()] *)
  Elem : GoType -> GoType;
  (** [json.Unmarshal(raw, reflect.New(t).Interface())], then [arg.Elem()] *)
  json_Unmarshal : string -> GoType -> lib Value;
  (** [json.Marshal(v)] for a non-nil [v] *)
  json_Marshal_Value : Value -> lib string;
  (** [v.(error).Error()] *)
  Value_Error : Value -> string;
  (** [jsString]: [json.Marshal] of a Go string, as text *)
  jsString : string -> string;
  (** [json.Unmarshal([]byte(msg), &d)] for [d : rpcMessage] *)
  Unmarshal_rpcMessage : string -> lib rpcMessage;
  (** [w32.WMApp], [w32.WMQuit] *)
  WMApp : Z;
  WMQuit : Z;
  (** [User32IsDialogMessage] on the root ancestor of the message's window *)
  IsDialogMessage : Msg -> bool
}.

Section Webview2.
Context `{Ext : Externals}.

(** An [interface{}] as returned by [reflect.Value.Interface]: [None] is Go's
    [nil]. *)
Definition any : Type := option Value.

(** [json.Marshal(v)] for [v interface{}]: a nil interface encodes as the JSON
    value [null]. *)
Definition json_Marshal (v : any) : lib string :=
  match v with
  | None => Ok "null"
  | Some x => json_Marshal_Value x
  end.

(** Go's [error] values met in the package. *)
Inductive error : Type :=
| errors_New (text : string)
| json_error (text : string)
| error_of (v : Value).

(** [err.Error()]. *)
Definition Error (err : error) : string :=
  match err with
  | errors_New text => text
  | json_error text => text
  | error_of v => Value_Error v
  end.

(** A Go function value seen through [reflect]: [v.Type().In(i)],
    [v.Type().IsVariadic()], [v.Type().Out(i)] and [v.Call(args)].  The call
    acts on the [World] and hands back one [interface{}] per result. *)
Record callable : Type := {
  In : list GoType;
  IsVariadic : bool;
  Out : list GoType;
  Call : list Value -> World -> list any * World
}.

Definition NumIn (f : callable) : Z := Z.of_nat (length (In f)).
Definition NumOut (f : callable) : Z := Z.of_nat (length (Out f)).

(** The argument of [Bind], an [interface{}]: a function, or anything else
    ([nil] included). *)
Inductive bindable : Type :=
| Func (f : callable)
| NotFunc (v : any).

(** The closures handed to [Dispatch]: the ones [msgcb] builds
    ([func() { w.Eval(js) }]), and two kinds of client closures, one that
    re-enters [Dispatch] and one that acts on the [World]. *)
Inductive closure : Type :=
| Eval_closure (js : string)
| Dispatch_closure (f : closure)
| World_closure (h : World -> World).

(** What the process does, in order: the calls that leave the package and,
    for the queue, the closures handed to [Dispatch] and the closures [Run]
    calls. *)
Inductive event : Type :=
| browser_Eval (js : string)
| browser_Init (js : string)
| PostThreadMessageW (thread : Z) (msg : Z)
| log_Printf (line : string)
| reflect_Call (method : string) (args : list Value)
| Dispatched (f : closure)
| Ran (f : closure)
| TranslateDispatch (msg : Msg).

(** [type webview struct]: the fields the RPC bridge and the queue use.  The
    mutex [m] brackets every access to [bindings] and [dispatchq]; the
    embedding is sequential, one critical section at a time.  [bindings]
    holds what [Bind] stores, which is always a function. *)
Record webview : Type := {
  mainthread : Z;
  bindings : gmap string callable;
  dispatchq : list closure;
  world : World;
  trace : list event
}.

Definition with_bindings (b : gmap string callable) (w : webview) : webview :=
  {| mainthread := mainthread w; bindings := b; dispatchq := dispatchq w;
     world := world w; trace := trace w |}.

Definition with_dispatchq (q : list closure) (w : webview) : webview :=
  {| mainthread := mainthread w; bindings := bindings w; dispatchq := q;
     world := world w; trace := trace w |}.

Definition with_world (h : World) (w : webview) : webview :=
  {| mainthread := mainthread w; bindings := bindings w;
     dispatchq := dispatchq w; world := h; trace := trace w |}.

Definition emit (e : event) (w : webview) : webview :=
  {| mainthread := mainthread w; bindings := bindings w;
     dispatchq := dispatchq w; world := world w; trace := trace w ++ [e] |}.

(** The webview [NewWithOptions] builds, before the window is created: an
    empty binding table, no deferred closure, the calling thread as owner. *)
Definition NewWithOptions (thread : Z) (h : World) : webview :=
  {| mainthread := thread; bindings := ∅; dispatchq := []; world := h;
     trace := [] |}.

(** [func (w *webview) Init(js string)] and [Eval]. *)
Definition Init (js : string) (w : webview) : webview := emit (browser_Init js) w.
Definition Eval (js : string) (w : webview) : webview := emit (browser_Eval js) w.

(** [func (w *webview) Dispatch(f func())]. *)
Definition Dispatch (f : closure) (w : webview) : webview :=
  let w := emit (Dispatched f) w in
  let w := with_dispatchq (dispatchq w ++ [f]) w in
  emit (PostThreadMessageW (mainthread w) WMApp) w.

(** ** callbinding *)

(** The type the [i]-th param is decoded into (lines 180-184). *)
Definition param_type (f : callable) (i : Z) : GoType :=
  if IsVariadic f && (NumIn f - 1 <=? i)
  then Elem (In f !!! Z.to_nat (NumIn f - 1))
  else In f !!! Z.to_nat i.

(** The loop [for i := range d.Params], from index [i] on, with the [args]
    gathered so far. *)
Fixpoint decode_params (f : callable) (i : Z) (params : list string)
    (args : list Value) : lib (list Value) :=
  match params with
  | [] => Ok args
  | p :: rest =>
      match json_Unmarshal p (param_type f i) with
      | Fail text => Fail text
      | Ok arg => decode_params f (i + 1) rest (args ++ [arg])
      end
  end.

(** [res := v.Call(args)]: each result carries its static type. *)
Definition v_Call (method : string) (f : callable) (args : list Value)
    (w : webview) : list (GoType * any) * webview :=
  let w := emit (reflect_Call method args) w in
  let '(res, h) := Call f args (world w) in
  (combine (Out f) res, with_world h w).

(** The [switch len(res)] (lines 193-220). *)
Definition interpret (res : list (GoType * any)) : any * option error :=
  match res with
  | [] => (None, None)
  | [(t0, r0)] =>
      if Implements_error t0 then
        match r0 with
        | Some e => (None, Some (error_of e))
        | None => (None, None)
        end
      else (r0, None)
  | [(t0, r0); (t1, r1)] =>
      if negb (Implements_error t1) then
        (None, Some (errors_New "second return value must be an error"))
      else
        match r1 with
        | None => (r0, None)
        | Some e => (r0, Some (error_of e))
        end
  | _ => (None, Some (errors_New "unexpected number of return values"))
  end.

(** The test of line 174, [n] being [len(d.Params)]. *)
Definition arguments_mismatch (f : callable) (n : Z) : bool :=
  (IsVariadic f && (n <? NumIn f - 1)) || (negb (IsVariadic f) && negb (n =? NumIn f)).

(** Lines 171-220: [callbinding] once the function [f] has been found. *)
Definition call_bound (f : callable) (d : rpcMessage) (w : webview)
    : (any * option error) * webview :=
  if arguments_mismatch f (Z.of_nat (length (Params d)))
  then ((None, Some (errors_New "function arguments mismatch")), w)
  else
    match decode_params f 0 (Params d) [] with
    | Fail text => ((None, Some (json_error text)), w)
    | Ok args =>
        let '(res, w) := v_Call (Method d) f args w in
        (interpret res, w)
    end.

(** [func (w *webview) callbinding(d rpcMessage) (interface{}, error)]. *)
Definition callbinding (d : rpcMessage) (w : webview)
    : (any * option error) * webview :=
  match bindings w !! Method d with
  | None => ((None, None), w)
  | Some f => call_bound f d w
  end.

(** ** msgcb *)

(** The two script shapes [msgcb] evaluates for the promise slot [id]. *)
Definition reject_script (id : string) (text : string) : string :=
  "window._rpc[" +:+ id +:+ "].reject(" +:+ jsString text +:+
  "); window._rpc[" +:+ id +:+ "] = undefined".

Definition resolve_script (id : string) (b : string) : string :=
  "window._rpc[" +:+ id +:+ "].resolve(" +:+ b +:+
  "); window._rpc[" +:+ id +:+ "] = undefined".

(** [func (w *webview) msgcb(msg string)]. *)
Definition msgcb (msg : string) (w : webview) : webview :=
  match Unmarshal_rpcMessage msg with
  | Fail text => emit (log_Printf ("invalid RPC message: " +:+ text)) w
  | Ok d =>
      let id := Itoa (ID d) in
      let '((res, err), w) := callbinding d w in
      match err with
      | Some err => Dispatch (Eval_closure (reject_script id (Error err))) w
      | None =>
          match json_Marshal res with
          | Fail text => Dispatch (Eval_closure (reject_script id text)) w
          | Ok b => Dispatch (Eval_closure (resolve_script id b)) w
          end
      end
  end.

(** ** Run *)

(** Calling a deferred closure, [v()]. *)
Definition run_closure (v : closure) (w : webview) : webview :=
  match v with
  | Eval_closure js => Eval js w
  | Dispatch_closure f => Dispatch f w
  | World_closure h => with_world (h (world w)) w
  end.

(** [for _, v := range q { v() }]. *)
Definition run_queue (q : list closure) (w : webview) : webview :=
  fold_left (fun w v => run_closure v (emit (Ran v) w)) q w.

(** The tail of the loop body (lines 376-382): dialog messages are consumed,
    the others are translated and dispatched. *)
Definition translate_dispatch (msg : Msg) (w : webview) : webview :=
  if IsDialogMessage msg then w else emit (TranslateDispatch msg) w.

Inductive loop : Type :=
| Continue (w : webview)
| Return (w : webview).

(** One turn of the [for] loop of [Run], for the message [GetMessageW] has
    stored in [msg]. *)
Definition Run_body (msg : Msg) (w : webview) : loop :=
  if Message msg =? WMApp then
    let q := [] ++ dispatchq w in
    let w := with_dispatchq [] w in
    let w := run_queue q w in
    Continue (translate_dispatch msg w)
  else if Message msg =? WMQuit then Return w
  else Continue (translate_dispatch msg w).

(** [func (w *webview) Run()], fed with the messages [GetMessageW] yields;
    when they are exhausted the loop is blocked in [GetMessageW]. *)
Fixpoint Run (msgs : list Msg) (w : webview) : loop :=
  match msgs with
  | [] => Continue w
  | msg :: rest =>
      match Run_body msg w with
      | Continue w => Run rest w
      | Return w => Return w
      end
  end.

(** The closures a trace shows as handed to [Dispatch], and as called by
    [Run], in order. *)
Definition dispatched (t : list event) : list closure :=
  omap (fun e => match e with Dispatched f => Some f | _ => None end) t.

Definition ran (t : list event) : list closure :=
  omap (fun e => match e with Ran f => Some f | _ => None end) t.

(** The scripts a trace shows as evaluated in the page, and the calls into
    bound functions. *)
Definition evaluated (t : list event) : list string :=
  omap (fun e => match e with browser_Eval js => Some js | _ => None end) t.

Definition called (t : list event) : list (string * list Value) :=
  omap (fun e => match e with reflect_Call m args => Some (m, args) | _ => None end) t.

(** The closures that running the queue [q] hands to [Dispatch] in turn. *)
Definition redispatched (q : list closure) : list closure :=
  omap (fun v => match v with Dispatch_closure f => Some f | _ => None end) q.

(** ** Bind *)

(** The script [Bind] injects for [name]. *)
Definition bootstrap (name : string) : string :=
  "(function() { var name = " +:+ jsString name +:+ ";" +:+ "
		var RPC = window._rpc = (window._rpc || {nextSeq: 1});
		window[name] = function() {
		  var seq = RPC.nextSeq++;
		  var promise = new Promise(function(resolve, reject) {
			RPC[seq] = {
			  resolve: resolve,
			  reject: reject,
			};
		  });
		  window.external.invoke(JSON.stringify({
			id: seq,
			method: name,
			params: Array.prototype.slice.call(arguments),
		  }));
		  return promise;
		}
	})()".

(** [func (w *webview) Bind(name string, f interface{}) error]. *)
Definition Bind (name : string) (f : bindable) (w : webview)
    : option error * webview :=
  match f with
  | NotFunc _ => (Some (errors_New "only functions can be bound"), w)
  | Func v =>
      if 2 <? NumOut v then
        (Some (errors_New "function may only return a value or a value+error"), w)
      else
        let w := with_bindings (<[name := v]> (bindings w)) w in
        (None, Init (bootstrap name) w)
  end.

(** ** The life of a webview

    What can happen to a webview between its creation and the end of [Run]:
    a client calls [Dispatch] or [Bind], the page posts a message, the loop
    receives a Win32 message. *)
Inductive happening : Type :=
| client_Dispatch (f : closure)
| client_Bind (name : string) (f : bindable)
| page_message (msg : string)
| loop_message (msg : Msg).

Definition after (l : loop) : webview :=
  match l with
  | Continue w => w
  | Return w => w
  end.

Definition happen (e : happening) (w : webview) : webview :=
  match e with
  | client_Dispatch f => Dispatch f w
  | client_Bind name f => snd (Bind name f w)
  | page_message msg => msgcb msg w
  | loop_message msg => after (Run_body msg w)
  end.

Definition life (es : list happening) (w : webview) : webview :=
  fold_left (fun w e => happen e w) es w.

End Webview2.

(** ** The loader shim (package webviewloader) *)

Module webviewloader.

(** A procedure of the loader DLL, known by its exported name. *)
Definition Proc : Type := string.

Definition create : Proc := "CreateCoreWebView2EnvironmentWithOptions".
Definition compare : Proc := "CompareBrowserVersions".
Definition available : Proc := "GetAvailableCoreWebView2BrowserVersionString".

Inductive origin : Type := native | mem.

(** The [lastErr] of a call into the DLL: nil, or a [syscall.Errno], which
    is a non-nil error even when its code is zero
    ([windows.ERROR_SUCCESS]). *)
Inductive lastErr : Type :=
| err_nil
| Errno (code : Z).

(** What a call into the DLL hands back: the first result register, what the
    callee stored through the out-pointer (a number for the comparison, a
    string for the version query), and [lastErr]. *)
Record reply : Type := {
  r1 : Z;
  out_int : Z;
  out_string : string;
  call_err : lastErr
}.

(** The machine the process runs on: the answers of the system loader, of the
    in-memory loader and of the DLL, and the text of a [syscall.Errno]
    ([Errno.Error()]).  For the loaders [None] is a nil error. *)
Record machine : Type := {
  nativeModule_Load : option string;
  Proc_Find : Proc -> option string;
  winloader_LoadFromMemory : option string;
  Proc_Call : origin -> Proc -> reply;
  Errno_Error : Z -> string
}.

(** The error [CompareBrowserVersions] returns after the call (lines 68-71):
    [if err != windows.ERROR_SUCCESS { return result, err }; return result,
    nil]. *)
Definition unless_ERROR_SUCCESS (m : machine) (err : lastErr) : option string :=
  match err with
  | err_nil => None
  | Errno code => if code =? 0 then None else Some (Errno_Error m code)
  end.

(** The error [GetInstalledVersion] returns after the call (lines 96-98):
    [if err != nil { return "", err }]. *)
Definition unless_nil (m : machine) (err : lastErr) : option string :=
  match err with
  | err_nil => None
  | Errno code => Some (Errno_Error m code)
  end.

(** The calls that leave the package, in order. *)
Inductive step : Type :=
| Load
| Find (p : Proc)
| LoadFromMemory
| Call (from : origin) (p : Proc).

(** The package-level variables; a [mem] procedure is [None] while its
    variable holds the zero value. *)
Record globals : Type := {
  memOnce : bool;
  memCreate : option Proc;
  memCompareBrowserVersions : option Proc;
  memGetAvailableCoreWebView2BrowserVersionString : option Proc;
  memErr : option string;
  history : list step
}.

Definition start : globals :=
  {| memOnce := false; memCreate := None; memCompareBrowserVersions := None;
     memGetAvailableCoreWebView2BrowserVersionString := None; memErr := None;
     history := [] |}.

Definition did (e : step) (g : globals) : globals :=
  {| memOnce := memOnce g; memCreate := memCreate g;
     memCompareBrowserVersions := memCompareBrowserVersions g;
     memGetAvailableCoreWebView2BrowserVersionString :=
       memGetAvailableCoreWebView2BrowserVersionString g;
     memErr := memErr g; history := history g ++ [e] |}.

(** A Go call either returns its pair or panics (a call through a nil
    procedure). *)
Inductive outcome (A : Type) : Type :=
| Returns (a : A) (err : option string)
| Panics.
Arguments Returns {A} a err.
Arguments Panics {A}.

(** [fmt.Errorf("Unable to load WebView2Loader.dll from disk: %v -- or from
    memory: %w", nativeErr, memErr)]. *)
Definition Errorf (nativeErr : string) (memErr : option string) : string :=
  "Unable to load WebView2Loader.dll from disk: " +:+ nativeErr +:+
  " -- or from memory: " +:+
  match memErr with Some text => text | None => "%!w(<nil>)" end.

(** [nativeErr := nativeModule.Load(); if nativeErr == nil { nativeErr =
    p.Find() }]. *)
Definition load_native (m : machine) (p : Proc) (g : globals)
    : option string * globals :=
  let g := did Load g in
  match nativeModule_Load m with
  | Some text => (Some text, g)
  | None => (Proc_Find m p, did (Find p) g)
  end.

(** [func loadFromMemory(nativeErr error) error].  The closure runs only the
    first time [memOnce.Do] is reached; [err] is a local that only the
    closure assigns. *)
Definition loadFromMemory (m : machine) (nativeErr : string) (g : globals)
    : option string * globals :=
  if memOnce g then (None, g)
  else
    let g := did LoadFromMemory g in
    match winloader_LoadFromMemory m with
    | Some text =>
        (Some (Errorf nativeErr (Some text)),
         {| memOnce := true; memCreate := memCreate g;
            memCompareBrowserVersions := memCompareBrowserVersions g;
            memGetAvailableCoreWebView2BrowserVersionString :=
              memGetAvailableCoreWebView2BrowserVersionString g;
            memErr := Some text; history := history g |})
    | None =>
        (None,
         {| memOnce := true; memCreate := Some create;
            memCompareBrowserVersions := Some compare;
            memGetAvailableCoreWebView2BrowserVersionString := Some available;
            memErr := None; history := history g |})
    end.

(** [windows.UTF16PtrFromString] refuses a string with a NUL in it. *)
Definition UTF16PtrFromString (s : string) : option string :=
  match index 0 (String Ascii.zero EmptyString) s with
  | Some _ => Some "invalid argument"
  | None => None
  end.

(** [func CompareBrowserVersions(v1 string, v2 string) (int, error)]. *)
Definition CompareBrowserVersions (m : machine) (v1 v2 : string) (g : globals)
    : outcome Z * globals :=
  match UTF16PtrFromString v1 with
  | Some text => (Returns 0 (Some text), g)
  | None =>
  match UTF16PtrFromString v2 with
  | Some text => (Returns 0 (Some text), g)
  | None =>
      let '(nativeErr, g) := load_native m compare g in
      match nativeErr with
      | Some nativeErr =>
          let '(err, g) := loadFromMemory m nativeErr g in
          match err with
          | Some _ => (Returns 0 (Some (Errorf nativeErr (memErr g))), g)
          | None =>
              match memCompareBrowserVersions g with
              | None => (Panics, g)
              | Some p =>
                  let r := Proc_Call m mem p in
                  (Returns (out_int r) (unless_ERROR_SUCCESS m (call_err r)),
                   did (Call mem p) g)
              end
          end
      | None =>
          let r := Proc_Call m native compare in
          (Returns (out_int r) (unless_ERROR_SUCCESS m (call_err r)),
           did (Call native compare) g)
      end
  end end.

(** [func GetInstalledVersion() (string, error)].  On the native side the
    source looks up the version procedure and then calls the comparison
    one.  Unlike [CompareBrowserVersions] it tests the [lastErr] of the call
    against nil, so a [syscall.Errno] of zero is returned as an error. *)
Definition GetInstalledVersion (m : machine) (g : globals)
    : outcome string * globals :=
  let '(nativeErr, g) := load_native m available g in
  match nativeErr with
  | Some nativeErr =>
      let '(err, g) := loadFromMemory m nativeErr g in
      match err with
      | Some _ => (Returns "" (Some (Errorf nativeErr (memErr g))), g)
      | None =>
          match memGetAvailableCoreWebView2BrowserVersionString g with
          | None => (Panics, g)
          | Some p =>
              let r := Proc_Call m mem p in
              let g := did (Call mem p) g in
              match unless_nil m (call_err r) with
              | Some text => (Returns "" (Some text), g)
              | None => (Returns (out_string r) None, g)
              end
          end
      end
  | None =>
      let r := Proc_Call m native compare in
      let g := did (Call native compare) g in
      match unless_nil m (call_err r) with
      | Some text => (Returns "" (Some text), g)
      | None => (Returns (out_string r) None, g)
      end
  end.

(** [func CreateCoreWebView2EnvironmentWithOptions(...) (uintptr, error)]. *)
Definition CreateCoreWebView2EnvironmentWithOptions (m : machine) (g : globals)
    : outcome Z * globals :=
  let '(nativeErr, g) := load_native m create g in
  match nativeErr with
  | Some nativeErr =>
      let '(err, g) := loadFromMemory m nativeErr g in
      match err with
      | Some text => (Returns 0 (Some text), g)
      | None =>
          match memCreate g with
          | None => (Panics, g)
          | Some p => (Returns (r1 (Proc_Call m mem p)) None, did (Call mem p) g)
          end
      end
  | None =>
      (Returns (r1 (Proc_Call m native create)) None, did (Call native create) g)
  end.

(** The three pass-through operations, and a run of them on one machine. *)
Inductive op : Type :=
| Compare (v1 v2 : string)
| Installed
| Create.

(** What a caller learns from an operation: the error it returned, if any,
    or that it panicked. *)
Inductive verdict : Type :=
| Returned (err : option string)
| Panicked.

Definition judge {A : Type} (o : outcome A) : verdict :=
  match o with
  | Returns _ err => Returned err
  | Panics => Panicked
  end.

Definition exec (m : machine) (o : op) (g : globals) : verdict * globals :=
  match o with
  | Compare v1 v2 =>
      let '(r, g) := CompareBrowserVersions m v1 v2 g in (judge r, g)
  | Installed => let '(r, g) := GetInstalledVersion m g in (judge r, g)
  | Create =>
      let '(r, g) := CreateCoreWebView2EnvironmentWithOptions m g in (judge r, g)
  end.

Fixpoint exec_all (m : machine) (os : list op) (g : globals)
    : list verdict * globals :=
  match os with
  | [] => ([], g)
  | o :: rest =>
      let '(v, g) := exec m o g in
      let '(vs, g) := exec_all m rest g in
      (v :: vs, g)
  end.

(** The three [mem] procedures are still unset. *)
Definition unset (g : globals) : Prop :=
  memCreate g = None /\ memCompareBrowserVersions g = None
  /\ memGetAvailableCoreWebView2BrowserVersionString g = None.

(** The procedure an operation looks up in the system DLL. *)
Definition proc_of (o : op) : Proc :=
  match o with
  | Compare _ _ => compare
  | Installed => available
  | Create => create
  end.

(** An operation gets as far as the loader unless its strings are refused
    first. *)
Definition reaches_loader (o : op) : bool :=
  match o with
  | Compare v1 v2 =>
      match UTF16PtrFromString v1, UTF16PtrFromString v2 with
      | None, None => true
      | _, _ => false
      end
  | _ => true
  end.

(** How many times a history shows the embedded copy being loaded. *)
Definition mem_loads (hist : list step) : nat :=
  length (List.filter (fun e => match e with LoadFromMemory => true | _ => false end) hist).

(** *** The bootstrapper *)

(** What [cmd.Wait()] hands back: nil, an [*exec.ExitError] (whose [Sys()] is
    a [syscall.WaitStatus] with an exit status, or is not), or another
    error. *)
Inductive waited : Type :=
| Wait_nil
| Wait_ExitError (status : option Z)
| Wait_error (text : string).

(** The answers of the file system and of the process launcher. *)
Record host : Type := {
  exePath : string;
  ioutil_WriteFile : option string;
  cmd_Start : option string;
  cmd_Wait : waited;
  os_Remove : option string
}.

(** What the bootstrapper asks of the operating system, in order. *)
Inductive action : Type :=
| WriteFile (path : string) (perm : Z)
| Command (name : string) (args : list string)
| Remove (path : string).

(** [func runInstaller(installer string) (bool, error)]. *)
Definition runInstaller (h : host) (installer : string)
    : (bool * option string) * list action :=
  let cmd := [Command installer ["/silent"; "/install"]] in
  match cmd_Start h with
  | Some text => ((false, Some text), cmd)
  | None =>
      match cmd_Wait h with
      | Wait_ExitError (Some status) => ((status =? 0, None), cmd)
      | _ => ((true, None), cmd)
      end
  end.

(** [func InstallUsingBootstrapper() (bool, error)]; [0755] is octal. *)
Definition InstallUsingBootstrapper (h : host)
    : (bool * option string) * list action :=
  let wrote := [WriteFile (exePath h) 493] in
  match ioutil_WriteFile h with
  | Some text => ((false, Some text), wrote)
  | None =>
      let '((result, err), ran) := runInstaller h (exePath h) in
      match err with
      | Some text => ((false, Some text), wrote ++ ran)
      | None => ((result, os_Remove h), wrote ++ ran ++ [Remove (exePath h)])
      end
  end.

End webviewloader.

(** ** Webview2AutoInstall (package webview2) *)

(** [webview2runtime.Info], of which only the version is read. *)
Record Info : Type := { Version : string }.

(** The imported package [webview2runtime]: the install-state query (a
    pointer, possibly nil), the confirmation dialog and the bootstrapper. *)
Record webview2runtime : Type := {
  GetInstalledVersion : option Info;
  Confirm : bool * option string;
  InstallUsingBootstrapper : (bool * option string) * list webviewloader.action
}.

(** What the user and the operating system see of the auto-install step. *)
Inductive shown : Type :=
| Confirm_box (text caption : string)
| Error_box (text caption : string)
| Setup (a : webviewloader.action).

Definition confirm_text : string :=
  "    Windows10以下版本操作系统，首次运行当前程序时，
    需安装微软的WebView2组件，点击[确定]自动安装！".

Definition failed_text : string :=
  "    安装微软的WebView2组件失败，请：
        1、关闭防火墙和某某卫士
        2、确保外网能够正常访问
        3、重新执行当前程序再试".

(** [installedVersion != nil && installedVersion.Version != ""]. *)
Definition installed (r : webview2runtime) : bool :=
  match GetInstalledVersion r with
  | Some installedVersion => negb (String.eqb (Version installedVersion) "")
  | None => false
  end.

(** [func (w *webview) Webview2AutoInstall() error]. *)
Definition Webview2AutoInstall (r : webview2runtime)
    : option string * list shown :=
  if installed r then (None, [])
  else
    let asked := [Confirm_box confirm_text "提示消息"] in
    match Confirm r with
    | (_, Some text) => (Some text, asked)
    | (false, None) => (None, asked)
    | (true, None) =>
        let '((installedCorrectly, err), acts) := InstallUsingBootstrapper r in
        let done := asked ++ map Setup acts in
        match err with
        | Some text => (Some text, done ++ [Error_box text "异常消息"])
        | None =>
            if negb installedCorrectly
            then (Some "install fail", done ++ [Error_box failed_text "异常消息"])
            else (None, done)
        end
    end.

(** The package [webview2runtime] with the repository's own bootstrapper,
    [webviewloader.InstallUsingBootstrapper], run on the host [h]. *)
Definition runtime_on (version : option Info) (confirm : bool * option string)
    (h : webviewloader.host) : webview2runtime :=
  {| GetInstalledVersion := version; Confirm := confirm;
     InstallUsingBootstrapper := webviewloader.InstallUsingBootstrapper h |}.

(** Whether the auto-install step has shown an error box. *)
Definition shows_error (l : list shown) : bool :=
  existsb (fun e => match e with Error_box _ _ => true | _ => false end) l.

(** ** A small implementation of the interface

    Enough of Go to run the embedding on concrete inputs: 64-bit integers,
    strings, integer slices and error values; the types [int], [string],
    [error] and [[]int]; the part of [encoding/json] the package calls, on
    byte strings; a counter as the world. *)
Module demo.

(** A nil value of a slice or interface type is [Nil]. *)
Inductive value : Type :=
| Int (n : Z)
| Str (s : string)
| Err (text : string)
| Ints (xs : list Z)
| Nil.

Inductive type : Type := int | str | err | ints.

(** The double quote. *)
Definition dq : string := String (Ascii.ascii_of_nat 34) EmptyString.

(** *** Bytes

    Bytes are written as characters, by their decimal code where they have
    no glyph: ["034"] is the double quote, ["128"] the first byte that is
    not ASCII.  They are compared bit by bit, from the most significant
    bit. *)

Fixpoint bits_leb (a b : list bool) : bool :=
  match a, b with
  | x :: a, y :: b =>
      if x then (if y then bits_leb a b else false)
      else (if y then true else bits_leb a b)
  | _, _ => true
  end.

Definition msb_first (c : ascii) : list bool :=
  match c with
  | Ascii b0 b1 b2 b3 b4 b5 b6 b7 => [b7; b6; b5; b4; b3; b2; b1; b0]
  end.

Definition byte_leb (a b : ascii) : bool := bits_leb (msb_first a) (msb_first b).
Definition between (lo c hi : ascii) : bool := byte_leb lo c && byte_leb c hi.
Definition below (c hi : ascii) : bool := negb (byte_leb hi c).

Definition digit (c : ascii) : bool := between "0" c "9".
Definition hex (c : ascii) : bool :=
  digit c || between "a" c "f" || between "A" c "F".

(** The [n] low bits of a positive number, the least significant first. *)
Fixpoint low_bits (p : positive) (n : nat) {struct p} : list bool :=
  match n with
  | O => []
  | S n =>
      match p with
      | xH => true :: repeat false n
      | xO p => false :: low_bits p n
      | xI p => true :: low_bits p n
      end
  end.

(** The byte of a number from 0 to 255. *)
Definition byte (n : Z) : ascii :=
  match n with
  | Zpos p =>
      match low_bits p 8 with
      | [b0; b1; b2; b3; b4; b5; b6; b7] => Ascii b0 b1 b2 b3 b4 b5 b6 b7
      | _ => zero
      end
  | _ => zero
  end.

(** Arithmetic with a constant [c]: the quotient and the remainder of a
    number that is not negative by [c], and [n - c].  The recursion of the
    library functions is on the number, not on the constant. *)
Definition divide (n c : Z) : Z * Z :=
  match n with
  | Zpos p => Z.pos_div_eucl p c
  | _ => (0, 0)
  end.
Definition quotient (n c : Z) : Z := fst (divide n c).
Definition remainder (n c : Z) : Z := snd (divide n c).
Definition minus (n c : Z) : Z := - (- n + c).

Fixpoint skip (n : nat) (s : string) : string :=
  match n, s with
  | S n, String _ s => skip n s
  | _, _ => s
  end.

Fixpoint first (n : nat) (s : string) : string :=
  match n, s with
  | S n, String c s => String c (first n s)
  | _, _ => EmptyString
  end.

(** A byte in two hexadecimal digits, in lower case. *)
Definition hex_digit (b3 b2 b1 b0 : bool) : ascii :=
  match b3, b2, b1, b0 with
  | false, false, false, false => "0"
  | false, false, false, true => "1"
  | false, false, true, false => "2"
  | false, false, true, true => "3"
  | false, true, false, false => "4"
  | false, true, false, true => "5"
  | false, true, true, false => "6"
  | false, true, true, true => "7"
  | true, false, false, false => "8"
  | true, false, false, true => "9"
  | true, false, true, false => "a"
  | true, false, true, true => "b"
  | true, true, false, false => "c"
  | true, true, false, true => "d"
  | true, true, true, false => "e"
  | true, true, true, true => "f"
  end%char.

Definition hex2 (c : ascii) : string :=
  match c with
  | Ascii b0 b1 b2 b3 b4 b5 b6 b7 =>
      String (hex_digit b7 b6 b5 b4) (String (hex_digit b3 b2 b1 b0) EmptyString)
  end.

(** The UTF-8 encoding of the rune of a byte from ["128"] on. *)
Definition latin1 (c : ascii) : string :=
  match c with
  | Ascii b0 b1 b2 b3 b4 b5 b6 b7 =>
      String (Ascii b6 b7 false false false false true true)
        (String (Ascii b0 b1 b2 b3 b4 b5 false true) EmptyString)
  end.

(** [int] is 64 bits wide: a result is taken modulo [2^64], and read as a
    signed number. *)
Definition int64 (n : Z) : Z :=
  let m :=
    match n with
    | Zneg p =>
        let r := remainder (Zpos p) (2 ^ 64) in
        if r =? 0 then 0 else - r + 2 ^ 64
    | _ => remainder n (2 ^ 64)
    end in
  if 2 ^ 63 <=? m then minus m (2 ^ 64) else m.

(** *** The scanner of encoding/json ([checkValid])

    The state machine of [scanner.go], with its error texts.  The states of
    a literal ([stateT], [stateTr], ...) are one state that carries the word
    and what is left of it, the four states of a [\u] escape one state that
    counts the digits seen. *)

Definition isSpace (c : ascii) : bool :=
  Ascii.eqb c " " || Ascii.eqb c "009" || Ascii.eqb c "013"
  || Ascii.eqb c "010".

(** [strconv.Quote(string(rune(c)))] without its quotes, for [c] other than
    the double quote. *)
Definition quoted_rune (c : ascii) : string :=
  if Ascii.eqb c "007" then "\a"
  else if Ascii.eqb c "008" then "\b"
  else if Ascii.eqb c "012" then "\f"
  else if Ascii.eqb c "010" then "\n"
  else if Ascii.eqb c "013" then "\r"
  else if Ascii.eqb c "009" then "\t"
  else if Ascii.eqb c "011" then "\v"
  else if Ascii.eqb c "\" then "\\"
  else if below c " " || Ascii.eqb c "127" then "\x" +:+ hex2 c
  else if below c "128" then String c EmptyString
  else if below c "161" || Ascii.eqb c "173" then "\u00" +:+ hex2 c
  else latin1 c.

Definition quoteChar (c : ascii) : string :=
  if Ascii.eqb c "'" then "'\''"
  else if Ascii.eqb c "034" then "'" +:+ dq +:+ "'"
  else "'" +:+ quoted_rune c +:+ "'".

Definition syntax_error (c : ascii) (context : string) : string :=
  "invalid character " +:+ quoteChar c +:+ " " +:+ context.

Inductive parse_state : Type :=
| parseObjectKey
| parseObjectValue
| parseArrayValue.

Inductive scan_state : Type :=
| stateBeginValue
| stateBeginValueOrEmpty
| stateBeginString
| stateBeginStringOrEmpty
| stateEndValue
| stateEndTop
| stateInString
| stateInStringEsc
| stateInStringEscU (seen : nat)
| stateNeg
| state1
| state0
| stateDot
| stateDot0
| stateE
| stateESign
| stateE0
| stateLiteral (word : string) (rest : string).

(** The scanner: its [step] and its [parseState], innermost first.  [endTop]
    holds exactly in [stateEndTop]. *)
Definition scanner : Type := scan_state * list parse_state.

Definition popParseState (ps : list parse_state) : scanner :=
  match ps with
  | _ :: (_ :: _) as ps => (stateEndValue, ps)
  | _ => (stateEndTop, [])
  end.

Definition pushParseState (c : ascii) (new : parse_state) (next : scan_state)
    (ps : list parse_state) : lib scanner :=
  if 10000 >=? Z.of_nat (length (new :: ps)) then Ok (next, new :: ps)
  else Fail (syntax_error c "exceeded max depth").

Definition end_top (c : ascii) : lib scanner :=
  if isSpace c then Ok (stateEndTop, [])
  else Fail (syntax_error c "after top-level value").

Definition end_value (c : ascii) (ps : list parse_state) : lib scanner :=
  match ps with
  | [] => end_top c
  | top :: rest =>
      if isSpace c then Ok (stateEndValue, ps)
      else
        match top with
        | parseObjectKey =>
            if Ascii.eqb c ":"%char
            then Ok (stateBeginValue, parseObjectValue :: rest)
            else Fail (syntax_error c "after object key")
        | parseObjectValue =>
            if Ascii.eqb c ","%char
            then Ok (stateBeginString, parseObjectKey :: rest)
            else if Ascii.eqb c "}"%char then Ok (popParseState ps)
            else Fail (syntax_error c "after object key:value pair")
        | parseArrayValue =>
            if Ascii.eqb c ","%char then Ok (stateBeginValue, ps)
            else if Ascii.eqb c "]"%char then Ok (popParseState ps)
            else Fail (syntax_error c "after array element")
        end
  end.

Definition begin_value (c : ascii) (ps : list parse_state) : lib scanner :=
  if isSpace c then Ok (stateBeginValue, ps)
  else if Ascii.eqb c "{"%char
  then pushParseState c parseObjectKey stateBeginStringOrEmpty ps
  else if Ascii.eqb c "["%char
  then pushParseState c parseArrayValue stateBeginValueOrEmpty ps
  else if Ascii.eqb c "034" then Ok (stateInString, ps)
  else if Ascii.eqb c "-"%char then Ok (stateNeg, ps)
  else if Ascii.eqb c "0"%char then Ok (state0, ps)
  else if Ascii.eqb c "t"%char then Ok (stateLiteral "true" "rue", ps)
  else if Ascii.eqb c "f"%char then Ok (stateLiteral "false" "alse", ps)
  else if Ascii.eqb c "n"%char then Ok (stateLiteral "null" "ull", ps)
  else if between "1" c "9" then Ok (state1, ps)
  else Fail (syntax_error c "looking for beginning of value").

Definition begin_string (c : ascii) (ps : list parse_state) : lib scanner :=
  if isSpace c then Ok (stateBeginString, ps)
  else if Ascii.eqb c "034" then Ok (stateInString, ps)
  else Fail (syntax_error c "looking for beginning of object key string").

Definition after_0 (c : ascii) (ps : list parse_state) : lib scanner :=
  if Ascii.eqb c "."%char then Ok (stateDot, ps)
  else if Ascii.eqb c "e"%char || Ascii.eqb c "E"%char then Ok (stateE, ps)
  else end_value c ps.

Definition after_ESign (c : ascii) (ps : list parse_state) : lib scanner :=
  if digit c then Ok (stateE0, ps)
  else Fail (syntax_error c "in exponent of numeric literal").

Definition step (s : scanner) (c : ascii) : lib scanner :=
  let '(state, ps) := s in
  match state with
  | stateBeginValue => begin_value c ps
  | stateBeginValueOrEmpty =>
      if isSpace c then Ok s
      else if Ascii.eqb c "]"%char then end_value c ps
      else begin_value c ps
  | stateBeginString => begin_string c ps
  | stateBeginStringOrEmpty =>
      if isSpace c then Ok s
      else if Ascii.eqb c "}"%char
      then end_value c (parseObjectValue :: tail ps)
      else begin_string c ps
  | stateEndValue => end_value c ps
  | stateEndTop => end_top c
  | stateInString =>
      if Ascii.eqb c "034" then Ok (stateEndValue, ps)
      else if Ascii.eqb c "\"%char then Ok (stateInStringEsc, ps)
      else if below c " " then Fail (syntax_error c "in string literal")
      else Ok s
  | stateInStringEsc =>
      if Ascii.eqb c "b"%char || Ascii.eqb c "f"%char || Ascii.eqb c "n"%char
         || Ascii.eqb c "r"%char || Ascii.eqb c "t"%char
         || Ascii.eqb c "\"%char || Ascii.eqb c "/"%char
         || Ascii.eqb c "034"%char
      then Ok (stateInString, ps)
      else if Ascii.eqb c "u"%char then Ok (stateInStringEscU 0, ps)
      else Fail (syntax_error c "in string escape code")
  | stateInStringEscU seen =>
      if hex c then
        Ok (if (3 <=? seen)%nat then stateInString
            else stateInStringEscU (S seen), ps)
      else Fail (syntax_error c "in \u hexadecimal character escape")
  | stateNeg =>
      if Ascii.eqb c "0"%char then Ok (state0, ps)
      else if between "1" c "9" then Ok (state1, ps)
      else Fail (syntax_error c "in numeric literal")
  | state1 => if digit c then Ok s else after_0 c ps
  | state0 => after_0 c ps
  | stateDot =>
      if digit c then Ok (stateDot0, ps)
      else Fail (syntax_error c "after decimal point in numeric literal")
  | stateDot0 =>
      if digit c then Ok s
      else if Ascii.eqb c "e"%char || Ascii.eqb c "E"%char then Ok (stateE, ps)
      else end_value c ps
  | stateE =>
      if Ascii.eqb c "+"%char || Ascii.eqb c "-"%char then Ok (stateESign, ps)
      else after_ESign c ps
  | stateESign => after_ESign c ps
  | stateE0 => if digit c then Ok s else end_value c ps
  | stateLiteral word rest =>
      match rest with
      | String e rest =>
          if Ascii.eqb c e then
            Ok (match rest with
                | EmptyString => stateEndValue
                | _ => stateLiteral word rest
                end, ps)
          else
            Fail (syntax_error c ("in literal " +:+ word +:+ " (expecting '"
                                  +:+ String e EmptyString +:+ "')"))
      | EmptyString => end_value c ps
      end
  end.

Fixpoint scan (s : scanner) (data : string) : lib scanner :=
  match data with
  | EmptyString => Ok s
  | String c data =>
      match step s c with
      | Ok s => scan s data
      | Fail text => Fail text
      end
  end.

(** [checkValid]: the text of the syntax error, if any.  At the end of the
    input the scanner is fed a space ([scanner.eof]). *)
Definition checkValid (data : string) : option string :=
  match scan (stateBeginValue, []) data with
  | Fail text => Some text
  | Ok (stateEndTop, _) => None
  | Ok s =>
      match step s " "%char with
      | Fail text => Some text
      | Ok (stateEndTop, _) => None
      | Ok _ => Some "unexpected end of JSON input"
      end
  end.

(** *** The values of a valid text

    Where a value ends, for a text the scanner has accepted: the value's own
    text and what follows it. *)

Fixpoint trim_left (s : string) : string :=
  match s with
  | String c r => if isSpace c then trim_left r else s
  | EmptyString => s
  end.

(** After an opening quote: up to the closing one. *)
Fixpoint string_end (s : string) : string * string :=
  match s with
  | EmptyString => (EmptyString, EmptyString)
  | String c r =>
      if Ascii.eqb c "034" then (EmptyString, r)
      else if Ascii.eqb c "\"%char then
        match r with
        | String e r =>
            let '(x, y) := string_end r in (String c (String e x), y)
        | EmptyString => (String c EmptyString, EmptyString)
        end
      else let '(x, y) := string_end r in (String c x, y)
  end.

(** From an opening bracket to the one that closes it. *)
Fixpoint compound_end (depth : nat) (in_string : bool) (s : string)
    : string * string :=
  match s with
  | EmptyString => (EmptyString, EmptyString)
  | String c r =>
      if in_string then
        if Ascii.eqb c "\"%char then
          match r with
          | String e r =>
              let '(x, y) := compound_end depth true r in
              (String c (String e x), y)
          | EmptyString => (String c EmptyString, EmptyString)
          end
        else
          let '(x, y) := compound_end depth (negb (Ascii.eqb c "034")) r in
          (String c x, y)
      else if Ascii.eqb c "{"%char || Ascii.eqb c "["%char then
        let '(x, y) := compound_end (S depth) false r in (String c x, y)
      else if Ascii.eqb c "}"%char || Ascii.eqb c "]"%char then
        match depth with
        | S (S depth) =>
            let '(x, y) := compound_end (S depth) false r in (String c x, y)
        | _ => (String c EmptyString, r)
        end
      else
        let '(x, y) := compound_end depth (Ascii.eqb c "034") r in (String c x, y)
  end.

Fixpoint literal_end (s : string) : string * string :=
  match s with
  | EmptyString => (EmptyString, EmptyString)
  | String c r =>
      if isSpace c || Ascii.eqb c ","%char || Ascii.eqb c "]"%char
         || Ascii.eqb c "}"%char
      then (EmptyString, s)
      else let '(x, y) := literal_end r in (String c x, y)
  end.

(** [s] starts with the first byte of a value. *)
Definition value_end (s : string) : string * string :=
  match s with
  | EmptyString => (EmptyString, EmptyString)
  | String c r =>
      if Ascii.eqb c "034" then
        let '(x, y) := string_end r in (dq +:+ x +:+ dq, y)
      else if Ascii.eqb c "{"%char || Ascii.eqb c "["%char
      then compound_end 0 false s
      else literal_end s
  end.

(** The texts of the elements of an array, from after its opening bracket. *)
Fixpoint elements (fuel : nat) (s : string) : list string :=
  match fuel with
  | O => []
  | S fuel =>
      match trim_left s with
      | EmptyString => []
      | String c _ as s =>
          if Ascii.eqb c "]"%char then []
          else
            let '(raw, rest) := value_end s in
            raw ::
              match trim_left rest with
              | String c rest =>
                  if Ascii.eqb c ","%char then elements fuel rest else []
              | EmptyString => []
              end
      end
  end.

(** The members of an object, from after its opening brace: the key between
    its quotes and the text of the value. *)
Fixpoint members (fuel : nat) (s : string) : list (string * string) :=
  match fuel with
  | O => []
  | S fuel =>
      match trim_left s with
      | EmptyString => []
      | String c r =>
          if Ascii.eqb c "034" then
            let '(key, rest) := string_end r in
            match trim_left rest with
            | String _ rest =>
                let '(raw, rest) := value_end (trim_left rest) in
                (key, raw) ::
                  match trim_left rest with
                  | String c rest =>
                      if Ascii.eqb c ","%char then members fuel rest else []
                  | EmptyString => []
                  end
            | EmptyString => []
            end
          else []
      end
  end.

Inductive kind : Type :=
| null_kind
| bool_kind
| number_kind
| string_kind
| array_kind
| object_kind.

Definition kind_of (raw : string) : kind :=
  match raw with
  | EmptyString => null_kind
  | String c _ =>
      if Ascii.eqb c "034" then string_kind
      else if Ascii.eqb c "{"%char then object_kind
      else if Ascii.eqb c "["%char then array_kind
      else if Ascii.eqb c "t"%char || Ascii.eqb c "f"%char then bool_kind
      else if Ascii.eqb c "n"%char then null_kind
      else number_kind
  end.

(** [UnmarshalTypeError.Value]. *)
Definition kind_name (k : kind) : string :=
  match k with
  | null_kind => "null"
  | bool_kind => "bool"
  | number_kind => "number"
  | string_kind => "string"
  | array_kind => "array"
  | object_kind => "object"
  end.

(** *** Strings ([unquote], and [appendString] with HTML escaping) *)

(** The length of the UTF-8 sequence [s] starts with, [0] if it starts with
    none ([utf8.DecodeRune] then yields [RuneError]). *)
Definition utf8_size (s : string) : nat :=
  match s with
  | EmptyString => 0%nat
  | String b0 r =>
      if below b0 "128" then 1%nat
      else if between "194" b0 "223" then
        match r with
        | String b1 _ => if between "128" b1 "191" then 2%nat else 0%nat
        | _ => 0%nat
        end
      else if between "224" b0 "239" then
        match r with
        | String b1 (String b2 _) =>
            if (if Ascii.eqb b0 "224" then between "160" b1 "191"
                else if Ascii.eqb b0 "237" then between "128" b1 "159"
                else between "128" b1 "191")
               && between "128" b2 "191"
            then 3%nat else 0%nat
        | _ => 0%nat
        end
      else if between "240" b0 "244" then
        match r with
        | String b1 (String b2 (String b3 _)) =>
            if (if Ascii.eqb b0 "240" then between "144" b1 "191"
                else if Ascii.eqb b0 "244" then between "128" b1 "143"
                else between "128" b1 "191")
               && between "128" b2 "191" && between "128" b3 "191"
            then 4%nat else 0%nat
        | _ => 0%nat
        end
      else 0%nat
  end.

(** [utf8.EncodeRune], for a rune that is no surrogate. *)
Definition EncodeRune (r : Z) : string :=
  if 128 >? r then String (byte r) EmptyString
  else if 2048 >? r then
    String (byte (quotient r 64 + 192))
      (String (byte (remainder r 64 + 128)) EmptyString)
  else if 65536 >? r then
    String (byte (quotient r 4096 + 224))
      (String (byte (remainder (quotient r 64) 64 + 128))
         (String (byte (remainder r 64 + 128)) EmptyString))
  else
    String (byte (quotient r 262144 + 240))
      (String (byte (remainder (quotient r 4096) 64 + 128))
         (String (byte (remainder (quotient r 64) 64 + 128))
            (String (byte (remainder r 64 + 128)) EmptyString))).

(** [unicode.ReplacementChar], encoded. *)
Definition replacement : string := EncodeRune 65533.

Definition hex_value (c : ascii) : Z :=
  match c with
  | "0" => 0 | "1" => 1 | "2" => 2 | "3" => 3 | "4" => 4
  | "5" => 5 | "6" => 6 | "7" => 7 | "8" => 8 | "9" => 9
  | "a" | "A" => 10
  | "b" | "B" => 11
  | "c" | "C" => 12
  | "d" | "D" => 13
  | "e" | "E" => 14
  | "f" | "F" => 15
  | _ => 0
  end%char.

(** [getu4]: the code unit of a [\uXXXX] at the head of [s]. *)
Definition getu4 (s : string) : option (Z * string) :=
  match s with
  | String b (String u (String h1 (String h2 (String h3 (String h4 rest))))) =>
      if Ascii.eqb b "\"%char && Ascii.eqb u "u"%char
         && hex h1 && hex h2 && hex h3 && hex h4
      then Some (((hex_value h1 * 16 + hex_value h2) * 16 + hex_value h3) * 16
                 + hex_value h4, rest)
      else None
  | _ => None
  end.

Definition unescape (e : ascii) : ascii :=
  if Ascii.eqb e "b" then "008"
  else if Ascii.eqb e "f" then "012"
  else if Ascii.eqb e "n" then "010"
  else if Ascii.eqb e "r" then "013"
  else if Ascii.eqb e "t" then "009"
  else e.

(** [unquote], on what stands between the quotes of a valid string. *)
Fixpoint unquote_from (fuel : nat) (s : string) : string :=
  match fuel with
  | O => EmptyString
  | S fuel =>
      match s with
      | EmptyString => EmptyString
      | String c r =>
          if Ascii.eqb c "\"%char then
            match getu4 s with
            | Some (rr, rest) =>
                if (55296 <=? rr) && (57344 >? rr) then
                  match getu4 rest with
                  | Some (rr1, rest1) =>
                      if (56320 >? rr) && (56320 <=? rr1) && (57344 >? rr1)
                      then EncodeRune (minus rr 55296 * 1024
                                       + minus rr1 56320 + 65536)
                           +:+ unquote_from fuel rest1
                      else replacement +:+ unquote_from fuel rest
                  | None => replacement +:+ unquote_from fuel rest
                  end
                else EncodeRune rr +:+ unquote_from fuel rest
            | None =>
                match r with
                | String e r => String (unescape e) (unquote_from fuel r)
                | EmptyString => EmptyString
                end
            end
          else if below c "128" then String c (unquote_from fuel r)
          else
            match utf8_size s with
            | O => replacement +:+ unquote_from fuel r
            | n => first n s +:+ unquote_from fuel (skip n s)
            end
      end
  end.

Definition unquote (inner : string) : string :=
  unquote_from (String.length inner) inner.

(** What stands between the quotes of the text of a string. *)
Definition inner (raw : string) : string :=
  first (String.length raw - 2) (skip 1 raw).

(** [json.Marshal] of a Go string (Go 1.22 on: [\b] and [\f] are written
    short). *)
Fixpoint escape (fuel : nat) (s : string) : string :=
  match fuel with
  | O => EmptyString
  | S fuel =>
      match s with
      | EmptyString => EmptyString
      | String c r =>
          if below c "128" then
            (if Ascii.eqb c "034" then "\" +:+ dq
             else if Ascii.eqb c "\" then "\\"
             else if Ascii.eqb c "008" then "\b"
             else if Ascii.eqb c "012" then "\f"
             else if Ascii.eqb c "010" then "\n"
             else if Ascii.eqb c "013" then "\r"
             else if Ascii.eqb c "009" then "\t"
             else if below c " " || Ascii.eqb c "<" || Ascii.eqb c ">"
                     || Ascii.eqb c "&"
             then "\u00" +:+ hex2 c
             else String c EmptyString) +:+ escape fuel r
          else
            match utf8_size s with
            | O => "\ufffd" +:+ escape fuel r
            | k =>
                let rune := first k s in
                (if String.eqb rune (EncodeRune 8232) then "\u2028"
                 else if String.eqb rune (EncodeRune 8233) then "\u2029"
                 else rune) +:+ escape fuel (skip k s)
            end
      end
  end.

Definition quote (s : string) : string :=
  dq +:+ escape (String.length s) s +:+ dq.

(** *** Numbers *)

Fixpoint digits (acc : Z) (s : string) : Z :=
  match s with
  | String c r => if digit c then digits (acc * 10 + hex_value c) r else acc
  | EmptyString => acc
  end.

Fixpoint span_digits (s : string) : string * string :=
  match s with
  | String c r =>
      if digit c then let '(x, y) := span_digits r in (String c x, y)
      else (EmptyString, s)
  | EmptyString => (EmptyString, EmptyString)
  end.

Fixpoint strip_zeros (s : string) : string :=
  match s with
  | String c r => if Ascii.eqb c "0"%char then strip_zeros r else s
  | EmptyString => s
  end.

(** A number literal taken apart: whether it is negative, its digits before
    and after the point, and its exponent. *)
Definition number_parts (raw : string) : bool * string * string * Z :=
  let '(neg, s) :=
    match raw with
    | String c r => if Ascii.eqb c "-"%char then (true, r) else (false, raw)
    | EmptyString => (false, raw)
    end in
  let '(whole, s) := span_digits s in
  let '(frac, s) :=
    match s with
    | String c r =>
        if Ascii.eqb c "."%char then span_digits r else (EmptyString, s)
    | EmptyString => (EmptyString, s)
    end in
  let e :=
    match s with
    | String _ (String c r as t) =>
        if Ascii.eqb c "-"%char then - digits 0 r
        else if Ascii.eqb c "+"%char then digits 0 r
        else digits 0 t
    | _ => 0
    end in
  (neg, whole, frac, e).

(** [strconv.ParseInt(raw, 10, 64)] on a number literal: it fails on a
    fraction, on an exponent and outside of [int64]. *)
Definition ParseInt (raw : string) : option Z :=
  let '(neg, whole, frac, _) := number_parts raw in
  let n := if neg then - digits 0 whole else digits 0 whole in
  if negb (String.eqb raw ((if neg then "-" else "") +:+ whole)) then None
  else if (- 2 ^ 63 <=? n) && (2 ^ 63 >? n) then Some n
  else None.

(** Whether [strconv.ParseFloat(raw, 64)] fails on a number literal: it does
    when the value rounds to an infinity, that is from
    [2^1024 - 2^970] on. *)
Definition ParseFloat_fails (raw : string) : bool :=
  let '(_, whole, frac, e) := number_parts raw in
  let significant := strip_zeros (whole +:+ frac) in
  let m := digits 0 significant in
  let n := Z.of_nat (String.length significant) in
  let e := e - Z.of_nat (String.length frac) in
  if m =? 0 then false
  else if 310 <=? n + e then true
  else if 308 >=? n + e then false
  else if 0 <=? e then 2 ^ 1024 - 2 ^ 970 <=? m * 10 ^ e
  else 10 ^ (- e) * (2 ^ 1024 - 2 ^ 970) <=? m.

(** *** Unmarshal *)

Definition type_error (what : string) (target : string) : string :=
  "json: cannot unmarshal " +:+ what +:+ " into " +:+ target.

(** A value stored into an [int] that holds [old]: [null] leaves it. *)
Definition store_int (raw : string) (target : string) (old : Z) : lib Z :=
  match kind_of raw with
  | null_kind => Ok old
  | number_kind =>
      match ParseInt raw with
      | Some n => Ok n
      | None => Fail (type_error ("number " +:+ raw) target)
      end
  | k => Fail (type_error (kind_name k) target)
  end.

Definition store_string (raw : string) (target : string) (old : string)
    : lib string :=
  match kind_of raw with
  | null_kind => Ok old
  | string_kind => Ok (unquote (inner raw))
  | k => Fail (type_error (kind_name k) target)
  end.

(** Into an [[]int]: every element is stored, the first error is the one
    reported. *)
Fixpoint store_ints (raws : list string) : list Z * option string :=
  match raws with
  | [] => ([], None)
  | raw :: raws =>
      let '(xs, later) := store_ints raws in
      match store_int raw "Go value of type int" 0 with
      | Ok n => (n :: xs, later)
      | Fail text => (0 :: xs, Some text)
      end
  end.

(** [json.Unmarshal(raw, reflect.New(t).Interface())], then [arg.Elem()]. *)
Definition decode (raw : string) (t : type) : lib value :=
  match checkValid raw with
  | Some text => Fail text
  | None =>
      let raw := fst (value_end (trim_left raw)) in
      match t with
      | int =>
          match store_int raw "Go value of type int" 0 with
          | Ok n => Ok (Int n)
          | Fail text => Fail text
          end
      | str =>
          match store_string raw "Go value of type string" EmptyString with
          | Ok s => Ok (Str s)
          | Fail text => Fail text
          end
      | err =>
          match kind_of raw with
          | null_kind => Ok Nil
          | number_kind =>
              if ParseFloat_fails raw
              then Fail (type_error ("number " +:+ raw)
                           "Go value of type float64")
              else Fail (type_error "number" "Go value of type error")
          | k => Fail (type_error (kind_name k) "Go value of type error")
          end
      | ints =>
          match kind_of raw with
          | null_kind => Ok Nil
          | array_kind =>
              match store_ints (elements (String.length raw) (skip 1 raw)) with
              | (xs, None) => Ok (Ints xs)
              | (_, Some text) => Fail text
              end
          | k => Fail (type_error (kind_name k) "Go value of type []int")
          end
      end
  end.

(** [json.Marshal]; an error made by [errors.New] has no exported field. *)
Definition encode (v : value) : lib string :=
  match v with
  | Int n => Ok (Itoa n)
  | Str s => Ok (quote s)
  | Err _ => Ok "{}"
  | Ints xs => Ok ("[" +:+ String.concat "," (map Itoa xs) +:+ "]")
  | Nil => Ok "null"
  end.

Definition text_of (v : value) : string :=
  match v with
  | Err text => text
  | _ => EmptyString
  end.

(** A lower-case letter in upper case. *)
Definition upper (c : ascii) : ascii :=
  match c with
  | Ascii b0 b1 b2 b3 b4 _ b6 b7 => Ascii b0 b1 b2 b3 b4 false b6 b7
  end.

(** The name of a key as the decoder matches it with a field: upper case,
    and the long s (U+017F) folded to [S]. *)
Fixpoint foldName (s : string) : string :=
  match s with
  | EmptyString => EmptyString
  | String c r =>
      if between "a" c "z" then String (upper c) (foldName r)
      else
        match r with
        | String c' r' =>
            if Ascii.eqb c "197" && Ascii.eqb c' "191"
            then String "S" (foldName r')
            else String c (foldName r)
        | EmptyString => String c EmptyString
        end
  end.

(** One member of the object stored into [d]; [saved] is [d.savedError]. *)
Definition store_member (member : string * string)
    (acc : rpcMessage * option string) : rpcMessage * option string :=
  let '(key, raw) := member in
  let '(d, saved) := acc in
  let save text := match saved with None => Some text | _ => saved end in
  let name := foldName (unquote key) in
  if String.eqb name "ID" then
    match store_int raw "Go struct field rpcMessage.id of type int" (ID d) with
    | Ok n => ({| ID := n; Method := Method d; Params := Params d |}, saved)
    | Fail text => (d, save text)
    end
  else if String.eqb name "METHOD" then
    match store_string raw "Go struct field rpcMessage.method of type string"
            (Method d) with
    | Ok s => ({| ID := ID d; Method := s; Params := Params d |}, saved)
    | Fail text => (d, save text)
    end
  else if String.eqb name "PARAMS" then
    match kind_of raw with
    | null_kind => ({| ID := ID d; Method := Method d; Params := [] |}, saved)
    | array_kind =>
        ({| ID := ID d; Method := Method d;
            Params := elements (String.length raw) (skip 1 raw) |}, saved)
    | k =>
        (d, save (type_error (kind_name k)
                    "Go struct field rpcMessage.params of type []json.RawMessage"))
    end
  else acc.

(** [json.Unmarshal([]byte(msg), &d)] for [d := rpcMessage{}]. *)
Definition parse (msg : string) : lib rpcMessage :=
  let zero := {| ID := 0; Method := EmptyString; Params := [] |} in
  match checkValid msg with
  | Some text => Fail text
  | None =>
      let raw := fst (value_end (trim_left msg)) in
      match kind_of raw with
      | null_kind => Ok zero
      | object_kind =>
          match fold_left (fun acc member => store_member member acc)
                  (members (String.length raw) (skip 1 raw)) (zero, None) with
          | (d, None) => Ok d
          | (_, Some text) => Fail text
          end
      | k => Fail (type_error (kind_name k)
                     "Go value of type webview2.rpcMessage")
      end
  end.

#[export] Instance externals : Externals := {|
  Value := value;
  GoType := type;
  World := Z;
  GoType_inhabited := populate int;
  Implements_error := fun t => match t with err => true | _ => false end;
  Elem := fun t => match t with ints => int | t => t end;
  json_Unmarshal := decode;
  json_Marshal_Value := encode;
  Value_Error := text_of;
  jsString := quote;
  Unmarshal_rpcMessage := parse;
  WMApp := 32768;
  WMQuit := 18;
  IsDialogMessage := fun _ => false
|}.

(** The wire text of a call. *)
Definition wire (id : string) (method : string) (params : string) : string :=
  "{" +:+ dq +:+ "id" +:+ dq +:+ ":" +:+ id +:+ "," +:+ dq +:+ "method" +:+
  dq +:+ ":" +:+ dq +:+ method +:+ dq +:+ "," +:+ dq +:+ "params" +:+ dq +:+
  ":[" +:+ params +:+ "]}".

(** Bound functions; each call bumps the counter.

    [func() {}], [func(a, b int) int], [func(a int) error] (fails on a
    negative), [func(a, b int) (int, error)] (fails on a zero divisor),
    [func(xs ...int) int] and [func() (int, int, int)].  Sums and quotients
    are Go's: they wrap around at 64 bits, and the quotient truncates. *)
Definition tick : callable :=
  {| In := []; IsVariadic := false; Out := [];
     Call := fun _ h => ([], h + 1) |}.

Definition add : callable :=
  {| In := [int; int]; IsVariadic := false; Out := [int];
     Call := fun args h =>
       match args with
       | [Int a; Int b] => ([Some (Int (int64 (a + b)))], h + 1)
       | _ => ([Some (Int 0)], h + 1)
       end |}.

Definition check : callable :=
  {| In := [int]; IsVariadic := false; Out := [err];
     Call := fun args h =>
       match args with
       | [Int a] => ([if a <? 0 then Some (Err "negative") else None], h + 1)
       | _ => ([None], h + 1)
       end |}.

Definition div : callable :=
  {| In := [int; int]; IsVariadic := false; Out := [int; err];
     Call := fun args h =>
       match args with
       | [Int a; Int b] =>
           if b =? 0 then ([Some (Int 0); Some (Err "division by zero")], h + 1)
           else ([Some (Int (int64 (Z.quot a b))); None], h + 1)
       | _ => ([Some (Int 0); None], h + 1)
       end |}.

Definition sum : callable :=
  {| In := [ints]; IsVariadic := true; Out := [int];
     Call := fun args h =>
       ([Some (Int (int64 (fold_right (fun v s =>
           match v with Int n => n + s | _ => s end) 0 args)))], h + 1) |}.

Definition triple : callable :=
  {| In := []; IsVariadic := false; Out := [int; int; int];
     Call := fun _ h => ([Some (Int 1); Some (Int 2); Some (Int 3)], h + 1) |}.

(** A webview owned by thread 1 with [add], [check], [div], [sum] and [tick]
    bound. *)
Definition page : webview :=
  let w := NewWithOptions 1 0 in
  let w := snd (Bind "add" (Func add) w) in
  let w := snd (Bind "check" (Func check) w) in
  let w := snd (Bind "div" (Func div) w) in
  let w := snd (Bind "sum" (Func sum) w) in
  snd (Bind "tick" (Func tick) w).

(** The wake message. *)
Definition wake : Msg := {| Message := 32768; Hwnd := 0 |}.

(** A webview on which [f] was bound to [add] and then to [div]. *)
Definition rebound : webview :=
  snd (Bind "f" (Func div) (snd (Bind "f" (Func add) (NewWithOptions 1 0)))).

(** The text of a [syscall.Errno] on Windows, for the codes used here. *)
Definition Errno_Error (code : Z) : string :=
  if code =? 0 then "The operation completed successfully."
  else if code =? 87 then "The parameter is incorrect."
  else "winapi error #" +:+ Itoa code.

(** A machine on which neither the system DLL nor the embedded copy loads. *)
Definition broken : webviewloader.machine :=
  {| webviewloader.nativeModule_Load :=
       Some "The specified module could not be found.";
     webviewloader.Proc_Find := fun _ => None;
     webviewloader.winloader_LoadFromMemory := Some "invalid PE file";
     webviewloader.Proc_Call := fun _ _ =>
       {| webviewloader.r1 := 0; webviewloader.out_int := 0;
          webviewloader.out_string := EmptyString;
          webviewloader.call_err := webviewloader.Errno 0 |};
     webviewloader.Errno_Error := Errno_Error |}.

(** A host on which everything works but waiting for the installer. *)
Definition flaky : webviewloader.host :=
  {| webviewloader.exePath := "C:\Temp\MicrosoftEdgeWebview2Setup.exe";
     webviewloader.ioutil_WriteFile := None;
     webviewloader.cmd_Start := None;
     webviewloader.cmd_Wait := webviewloader.Wait_error "The handle is invalid.";
     webviewloader.os_Remove := None |}.

End demo.

(** ** Reading a trace and a queue *)

Section Webview2_observations.
Context `{Ext : Externals}.

(** The scripts of the closures of a queue that evaluate one. *)
Definition scripts (q : list closure) : list string :=
  omap (fun v => match v with Eval_closure js => Some js | _ => None end) q.

(** The messages a trace shows as handed to [TranslateMessage] and
    [DispatchMessageW]. *)
Definition pumped (t : list event) : list Msg :=
  omap (fun e => match e with TranslateDispatch msg => Some msg | _ => None end) t.

(** The thread messages a trace shows as posted. *)
Definition posted (t : list event) : list (Z * Z) :=
  omap (fun e => match e with
                 | PostThreadMessageW thread msg => Some (thread, msg)
                 | _ => None
                 end) t.

(** [script] settles the promise slot [id], one way or the other. *)
Definition settles (id : string) (script : string) : Prop :=
  (exists b, script = resolve_script id b)
  \/ (exists text, script = reject_script id text).

(** The page posts the messages [msgs], one after the other. *)
Definition serve (msgs : list string) (w : webview) : webview :=
  fold_left (fun w msg => msgcb msg w) msgs w.

End Webview2_observations.

(** ** More of package webviewloader *)

Module loader_more.
Import webviewloader.

(** What an operation hands back when the embedded copy serves it: the
    comparison passes for successful a [lastErr] that is nil or the
    [syscall.Errno] zero, the version query only a nil one, and the creation
    ignores it. *)
Definition served_from_memory (m : machine) (o : op) : verdict :=
  match o with
  | Compare _ _ =>
      Returned (unless_ERROR_SUCCESS m (call_err (Proc_Call m mem compare)))
  | Installed => Returned (unless_nil m (call_err (Proc_Call m mem available)))
  | Create => Returned None
  end.

(** The procedures a history shows as called in the embedded copy. *)
Definition mem_calls (hist : list step) : list Proc :=
  omap (fun e => match e with Call mem p => Some p | _ => None end) hist.

(** *** GetInstalledWebViewVersion *)

(** A registry key as the package reads it: its string values by name.  A
    hive maps the paths that can be opened to their keys. *)
Definition Key : Type := gmap string string.

Record registry : Type := {
  LOCAL_MACHINE : gmap string Key;
  CURRENT_USER : gmap string Key
}.

(** [func getKeyValue(k registry.Key, name string) string]: the error of
    [GetStringValue] is dropped, a missing value reads as the empty string. *)
Definition getKeyValue (k : Key) (name : string) : string :=
  default EmptyString (k !! name).

(** The path of the runtime's key, by [runtime.GOARCH]. *)
Definition regkey (GOARCH : string) : string :=
  if String.eqb GOARCH "386"
  then "SOFTWARE\Microsoft\EdgeUpdate\Clients\{F3017226-FE2A-4295-8BDF-00C3A9A7E4C5}"
  else "SOFTWARE\WOW6432Node\Microsoft\EdgeUpdate\Clients\{F3017226-FE2A-4295-8BDF-00C3A9A7E4C5}".

(** [func GetInstalledWebViewVersion() string]. *)
Definition GetInstalledWebViewVersion (GOARCH : string) (r : registry) : string :=
  match LOCAL_MACHINE r !! regkey GOARCH with
  | Some k => getKeyValue k "pv"
  | None =>
      match CURRENT_USER r !! regkey GOARCH with
      | Some k => getKeyValue k "pv"
      | None => EmptyString
      end
  end.

(** Whether the bootstrapper has asked for the installer to be deleted, and
    whether it has launched it. *)
Definition removes (acts : list action) : bool :=
  existsb (fun a => match a with Remove _ => true | _ => false end) acts.

Definition launches (acts : list action) : bool :=
  existsb (fun a => match a with Command _ _ => true | _ => false end) acts.

End loader_more.

(** Whether the auto-install step has shown the confirmation prompt, and
    whether it has touched the installer. *)
Definition shows_prompt (l : list shown) : bool :=
  existsb (fun e => match e with Confirm_box _ _ => true | _ => false end) l.

Definition runs_setup (l : list shown) : bool :=
  existsb (fun e => match e with Setup _ => true | _ => false end) l.

(** ** The window shell (package webview2) *)

(** [w32.Point], [w32.Rect] and the fields of [w32.MinMaxInfo] that the
    window procedure writes; the coordinates are [int32]. *)
Module w32.

Record Point : Type := { X : Z; Y : Z }.

Record Rect : Type := { Left : Z; Top : Z; Right : Z; Bottom : Z }.

Record MinMaxInfo : Type := {
  PtMaxSize : Point;
  PtMinTrackSize : Point;
  PtMaxTrackSize : Point
}.

End w32.

(** Go's conversion to [int32]: the low 32 bits, read as a signed number. *)
Definition int32 (n : Z) : Z := (n + 2 ^ 31) mod 2 ^ 32 - 2 ^ 31.

(** The constants the shell takes from the repository's [internal/w32]
    package, from its [Hint] type and from [lxn/win], none of which is among
    the sources, and the size in bits of [uint] and [uintptr]. *)
Class Constants : Type := {
  WMMove : Z; WMMoving : Z; WMNCLButtonDown : Z; WMSize : Z; WMActivate : Z;
  WAInactive : Z; WMClose : Z; WMDestroy : Z; WMGetMinMaxInfo : Z;
  GWLStyle : Z; WSThickFrame : Z; WSMaximizeBox : Z; WSOverlappedWindow : Z;
  SWPNoZOrder : Z; SWPNoActivate : Z; SWPNoMove : Z; SWPFrameChanged : Z;
  SWShow : Z; SystemMetricsCxIcon : Z; SystemMetricsCyIcon : Z;
  SM_CXSCREEN : Z; SM_CYSCREEN : Z; CW_USEDEFAULT : Z;
  LR_DEFAULTSIZE : Z; LR_SHARED : Z;
  HintFixed : Z; HintMin : Z; HintMax : Z;
  win_GWL_STYLE : Z; win_WS_CHILD : Z; win_SM_CXSCREEN : Z; win_SM_CYSCREEN : Z;
  uint_size : Z
}.

Section Shell.
Context `{K : Constants}.

(** Go's conversion to [uint] and to [uintptr]. *)
Definition uint (n : Z) : Z := n mod 2 ^ uint_size.

(** What the operating system and the browser answer when asked; the calls
    that only ask are not recorded. *)
Record answers : Type := {
  DefWindowProcW : Z -> Z -> Z -> Z -> Z;
  GetWindowLongPtrW : Z -> Z -> Z;
  AdjustWindowRect : w32.Rect -> Z -> Z -> w32.Rect;
  GetModuleHandleEx : Z;
  GetSystemMetrics : Z -> Z;
  LoadImageW : list Z -> Z;
  CreateWindowExW : Z;
  Embed : Z -> bool;
  win_GetWindowRect : Z -> w32.Rect;
  win_GetWindowLong : Z -> Z -> Z;
  win_GetParent : Z -> Z;
  win_GetClientRect : Z -> w32.Rect;
  win_GetSystemMetrics : Z -> Z
}.

(** What the shell does to the windows and to the browser, in order; [p] is
    the address of the webview whose [browser] is called. *)
Inductive call : Type :=
| browser_NotifyParentWindowPositionChanged (p : Z)
| browser_Resize (p : Z)
| browser_Focus (p : Z)
| browser_Embed (p : Z) (hwnd : Z)
| User32SetFocus (hwnd : Z)
| User32DefWindowProcW (hwnd msg wp lp : Z)
| User32DestroyWindow (hwnd : Z)
| User32PostQuitMessage (code : Z)
| User32SetWindowLongPtrW (hwnd index style : Z)
| User32SetWindowPos (hwnd after x y cx cy flags : Z)
| User32RegisterClassExW (hInstance : Z) (className : string) (icon : Z)
| User32CreateWindowExW (exStyle : Z) (className : string)
    (windowName : option string) (style x y width height parent menu
    hInstance param : Z)
| User32ShowWindow (hwnd cmd : Z)
| User32UpdateWindow (hwnd : Z)
| win_MoveWindow (hwnd x y width height : Z) (repaint : bool)
| auto_install (s : shown).

(** What the global [windowContext] holds for a window: nothing, a
    [*webview] (its address), or something that is not a [*webview]. *)
Inductive context : Type :=
| nil_context
| webview_ptr (p : Z)
| other_context.

(** The fields of [type webview struct] that the shell uses. *)
Record shell : Type := {
  hwnd : Z;
  autofocus : bool;
  maxsz : w32.Point;
  minsz : w32.Point
}.

(** The process: the global [windowContext], the webview structs by address
    (what a [*webview] points to), and the calls made so far. *)
Record process : Type := {
  windowContext : gmap Z context;
  webviews : Z -> shell;
  calls : list call
}.

Definition made (c : call) (ps : process) : process :=
  {| windowContext := windowContext ps; webviews := webviews ps;
     calls := calls ps ++ [c] |}.

(** Assignment to a field of the webview at address [p]. *)
Definition store (p : Z) (w : shell) (ps : process) : process :=
  {| windowContext := windowContext ps;
     webviews := fun q => if q =? p then w else webviews ps q;
     calls := calls ps |}.

(** [func getWindowContext(wnd uintptr) interface{}]. *)
Definition getWindowContext (wnd : Z) (ps : process) : context :=
  default nil_context (windowContext ps !! wnd).

(** [func setWindowContext(wnd uintptr, data interface{})]. *)
Definition setWindowContext (wnd : Z) (data : context) (ps : process) : process :=
  {| windowContext := <[wnd := data]> (windowContext ps);
     webviews := webviews ps; calls := calls ps |}.

(** [func (w *webview) Terminate()] and [Destroy]. *)
Definition Terminate (ps : process) : process :=
  made (User32PostQuitMessage 0) ps.

Definition Destroy (p : Z) (ps : process) : process :=
  made (User32DestroyWindow (hwnd (webviews ps p))) (Terminate ps).

(** The [case w32.WMGetMinMaxInfo] of the window procedure, on the structure
    [lp] points to. *)
Definition constrain (w : shell) (lpmmi : w32.MinMaxInfo) : w32.MinMaxInfo :=
  let lpmmi :=
    if (0 <? w32.X (maxsz w)) && (0 <? w32.Y (maxsz w)) then
      {| w32.PtMaxSize := maxsz w;
         w32.PtMinTrackSize := w32.PtMinTrackSize lpmmi;
         w32.PtMaxTrackSize := maxsz w |}
    else lpmmi in
  if (0 <? w32.X (minsz w)) && (0 <? w32.Y (minsz w)) then
    {| w32.PtMaxSize := w32.PtMaxSize lpmmi;
       w32.PtMinTrackSize := minsz w;
       w32.PtMaxTrackSize := w32.PtMaxTrackSize lpmmi |}
  else lpmmi.

(** [func wndProc(hwnd, msg, wp, lp uintptr) uintptr]; [lpmmi] is the
    structure [lp] points to, handed back as the procedure leaves it. *)
Definition wndProc (os : answers) (hwnd0 msg wp lp : Z)
    (lpmmi : w32.MinMaxInfo) (ps : process)
    : (Z * w32.MinMaxInfo) * process :=
  match getWindowContext hwnd0 ps with
  | webview_ptr p =>
      let w := webviews ps p in
      if (msg =? WMMove) || (msg =? WMMoving) then
        ((0, lpmmi), made (browser_NotifyParentWindowPositionChanged p) ps)
      else if msg =? WMNCLButtonDown then
        let ps := made (User32SetFocus (hwnd w)) ps in
        ((DefWindowProcW os hwnd0 msg wp lp, lpmmi),
         made (User32DefWindowProcW hwnd0 msg wp lp) ps)
      else if msg =? WMSize then ((0, lpmmi), made (browser_Resize p) ps)
      else if msg =? WMActivate then
        if wp =? WAInactive then ((0, lpmmi), ps)
        else if autofocus w then ((0, lpmmi), made (browser_Focus p) ps)
        else ((0, lpmmi), ps)
      else if msg =? WMClose then ((0, lpmmi), made (User32DestroyWindow hwnd0) ps)
      else if msg =? WMDestroy then ((0, lpmmi), Terminate ps)
      else if msg =? WMGetMinMaxInfo then ((0, constrain w lpmmi), ps)
      else
        ((DefWindowProcW os hwnd0 msg wp lp, lpmmi),
         made (User32DefWindowProcW hwnd0 msg wp lp) ps)
  | _ =>
      ((DefWindowProcW os hwnd0 msg wp lp, lpmmi),
       made (User32DefWindowProcW hwnd0 msg wp lp) ps)
  end.

(** [func (w *webview) SetSize(width int, height int, hints Hint)], [p]
    being the receiver. *)
Definition SetSize (os : answers) (p : Z) (width height hints : Z)
    (ps : process) : process :=
  let w := webviews ps p in
  let index := GWLStyle in
  let style := GetWindowLongPtrW os (hwnd w) (uint index) in
  let style :=
    if hints =? HintFixed
    then Z.ldiff style (Z.lor WSThickFrame WSMaximizeBox)
    else Z.lor style (Z.lor WSThickFrame WSMaximizeBox) in
  let ps := made (User32SetWindowLongPtrW (hwnd w) (uint index) style) ps in
  if hints =? HintMax then
    store p {| hwnd := hwnd w; autofocus := autofocus w;
               maxsz := {| w32.X := int32 width; w32.Y := int32 height |};
               minsz := minsz w |} ps
  else if hints =? HintMin then
    store p {| hwnd := hwnd w; autofocus := autofocus w; maxsz := maxsz w;
               minsz := {| w32.X := int32 width; w32.Y := int32 height |} |} ps
  else
    let r := AdjustWindowRect os
               {| w32.Left := 0; w32.Top := 0; w32.Right := int32 width;
                  w32.Bottom := int32 height |} WSOverlappedWindow 0 in
    let ps :=
      made (User32SetWindowPos (hwnd w) 0 (uint (w32.Left r)) (uint (w32.Top r))
              (uint (int32 (w32.Right r - w32.Left r)))
              (uint (int32 (w32.Bottom r - w32.Top r)))
              (Z.lor (Z.lor (Z.lor SWPNoZOrder SWPNoActivate) SWPNoMove)
                 SWPFrameChanged)) ps in
    made (browser_Resize p) ps.

(** The size [MoveToCenter] centres the window in (lines 557-568): the
    client area of the parent when the window's style is exactly [WS_CHILD],
    the screen otherwise. *)
Definition parent_size (os : answers) (h : Z) : Z * Z :=
  if win_GetWindowLong os h win_GWL_STYLE =? win_WS_CHILD then
    let rect := win_GetClientRect os (win_GetParent os h) in
    (int32 (w32.Right rect - w32.Left rect),
     int32 (w32.Bottom rect - w32.Top rect))
  else
    (win_GetSystemMetrics os win_SM_CXSCREEN,
     win_GetSystemMetrics os win_SM_CYSCREEN).

(** [func (w *webview) MoveToCenter()]; the division of [int32] values rounds
    towards zero. *)
Definition MoveToCenter (os : answers) (p : Z) (ps : process) : process :=
  let h := hwnd (webviews ps p) in
  let rect := win_GetWindowRect os h in
  let width := int32 (w32.Right rect - w32.Left rect) in
  let height := int32 (w32.Bottom rect - w32.Top rect) in
  let '(parentWidth, parentHeight) := parent_size os h in
  let x := Z.quot (int32 (parentWidth - width)) 2 in
  let y := Z.quot (int32 (parentHeight - height)) 2 in
  made (win_MoveWindow h x y width height false) ps.

(** [type WindowOptions struct]; the sizes and the icon id are [uint]. *)
Record WindowOptions : Type := {
  Title : string;
  Width : Z;
  Height : Z;
  IconId : Z;
  Center : bool
}.

(** How [CreateWithOptions] ends: [os.Exit(code)], or a returned boolean. *)
Inductive ending : Type :=
| os_Exit (code : Z)
| returned (ok : bool).

(** [func (w *webview) CreateWithOptions(opts WindowOptions) bool], [p]
    being the receiver and [r] the auto-install step's surroundings. *)
Definition CreateWithOptions (os : answers) (r : webview2runtime) (p : Z)
    (opts : WindowOptions) (ps : process) : ending * process :=
  let '(err, seen) := Webview2AutoInstall r in
  let ps := fold_left (fun ps s => made (auto_install s) ps) seen ps in
  match err with
  | Some _ => (os_Exit 0, ps)
  | None =>
      let wHandle := GetModuleHandleEx os in
      let icon :=
        if IconId opts =? 0 then
          let icow := GetSystemMetrics os SystemMetricsCxIcon in
          let icoh := GetSystemMetrics os SystemMetricsCyIcon in
          LoadImageW os [wHandle; 32512; icow; icoh; 0]
        else
          LoadImageW os [wHandle; IconId opts; 1; 0; 0;
                         Z.lor LR_DEFAULTSIZE LR_SHARED] in
      let ps := made (User32RegisterClassExW wHandle "webview" icon) ps in
      let windowName :=
        match webviewloader.UTF16PtrFromString (Title opts) with
        | Some _ => None
        | None => Some (Title opts)
        end in
      let windowWidth := if Width opts =? 0 then 640 else Width opts in
      let windowHeight := if Height opts =? 0 then 480 else Height opts in
      let '(posX, posY) :=
        if Center opts then
          (uint (GetSystemMetrics os SM_CXSCREEN - windowWidth) / 2,
           uint (GetSystemMetrics os SM_CYSCREEN - windowHeight) / 2)
        else (CW_USEDEFAULT, CW_USEDEFAULT) in
      let h := CreateWindowExW os in
      let ps :=
        made (User32CreateWindowExW 0 "webview" windowName 13565952 posX posY
                windowWidth windowHeight 0 0 wHandle 0) ps in
      let w := webviews ps p in
      let ps := store p {| hwnd := h; autofocus := autofocus w;
                           maxsz := maxsz w; minsz := minsz w |} ps in
      let ps := setWindowContext h (webview_ptr p) ps in
      let ps := made (User32ShowWindow h SWShow) ps in
      let ps := made (User32UpdateWindow h) ps in
      let ps := made (User32SetFocus h) ps in
      let ps := made (browser_Embed p h) ps in
      if Embed os h then (returned true, made (browser_Resize p) ps)
      else (returned false, ps)
  end.

(** The position and the size a trace shows windows to have been created
    with. *)
Definition created (l : list call) : list (Z * Z * Z * Z) :=
  omap (fun c => match c with
                 | User32CreateWindowExW _ _ _ _ x y width height _ _ _ _ =>
                     Some (x, y, width, height)
                 | _ => None
                 end) l.

(** The window styles a trace shows as written, and the windows it shows as
    moved, with their new position and size. *)
Definition styles_written (l : list call) : list Z :=
  omap (fun c => match c with
                 | User32SetWindowLongPtrW _ _ style => Some style
                 | _ => None
                 end) l.

Definition moved (l : list call) : list (Z * Z * Z * Z * Z) :=
  omap (fun c => match c with
                 | win_MoveWindow h x y width height _ =>
                     Some (h, x, y, width, height)
                 | _ => None
                 end) l.

End Shell.

(** ** More concrete inputs *)

Module demo_more.
Import demo.

(** [func(k int, xs ...int) int]: [k] times the sum of [xs]. *)
Definition scale : callable :=
  {| In := [int; ints]; IsVariadic := true; Out := [int];
     Call := fun args h =>
       match args with
       | Int k :: xs =>
           ([Some (Int (int64 (k * fold_right (fun v s =>
               match v with Int n => n + s | _ => s end) 0 xs)))], h + 1)
       | _ => ([Some (Int 0)], h + 1)
       end |}.

(** The page of [demo] with [scale] bound as well. *)
Definition page2 : webview := snd (Bind "scale" (Func scale) page).

(** The quit message and a key message. *)
Definition quit : Msg := {| Message := 18; Hwnd := 0 |}.
Definition key : Msg := {| Message := 256; Hwnd := 7 |}.

(** A machine without the system DLL on which the embedded copy loads, and a
    machine with the system DLL.  On both the calls into the DLL succeed:
    their [lastErr] is the [syscall.Errno] zero. *)
Definition sideload : webviewloader.machine :=
  {| webviewloader.nativeModule_Load :=
       Some "The specified module could not be found.";
     webviewloader.Proc_Find := fun _ => None;
     webviewloader.winloader_LoadFromMemory := None;
     webviewloader.Proc_Call := fun _ _ =>
       {| webviewloader.r1 := 0; webviewloader.out_int := 1;
          webviewloader.out_string := "120.0.2210.91";
          webviewloader.call_err := webviewloader.Errno 0 |};
     webviewloader.Errno_Error := Errno_Error |}.


(** The Win32 values of the constants, [Hint] as [webview.h] numbers it, and
    a 64-bit [uint]. *)
#[export] Instance constants : Constants := {|
  WMMove := 3; WMMoving := 534; WMNCLButtonDown := 161; WMSize := 5;
  WMActivate := 6; WAInactive := 0; WMClose := 16; WMDestroy := 2;
  WMGetMinMaxInfo := 36;
  GWLStyle := -16; WSThickFrame := 262144; WSMaximizeBox := 65536;
  WSOverlappedWindow := 13565952;
  SWPNoZOrder := 4; SWPNoActivate := 16; SWPNoMove := 2; SWPFrameChanged := 32;
  SWShow := 5; SystemMetricsCxIcon := 11; SystemMetricsCyIcon := 12;
  SM_CXSCREEN := 0; SM_CYSCREEN := 1; CW_USEDEFAULT := 2147483648;
  LR_DEFAULTSIZE := 64; LR_SHARED := 32768;
  HintFixed := 3; HintMin := 1; HintMax := 2;
  win_GWL_STYLE := -16; win_WS_CHILD := 1073741824;
  win_SM_CXSCREEN := 0; win_SM_CYSCREEN := 1;
  uint_size := 64
|}.

(** A 1920 by 1080 screen on which window 100, 800 by 600 at (10, 20), is the
    next one to be created. *)
Definition desk : answers :=
  {| DefWindowProcW := fun _ _ _ _ => 0;
     GetWindowLongPtrW := fun _ _ => 13565952;
     AdjustWindowRect := fun r _ _ => r;
     GetModuleHandleEx := 4194304;
     GetSystemMetrics := fun i => if i =? 0 then 1920 else if i =? 1 then 1080 else 32;
     LoadImageW := fun _ => 9;
     CreateWindowExW := 100;
     Embed := fun _ => true;
     win_GetWindowRect := fun _ =>
       {| w32.Left := 10; w32.Top := 20; w32.Right := 810; w32.Bottom := 620 |};
     win_GetWindowLong := fun _ _ => 13565952;
     win_GetParent := fun _ => 0;
     win_GetClientRect := fun _ =>
       {| w32.Left := 0; w32.Top := 0; w32.Right := 0; w32.Bottom := 0 |};
     win_GetSystemMetrics := fun i => if i =? 0 then 1920 else 1080 |}.

(** A process whose window 100 belongs to the webview at address 1. *)
Definition one_window : process :=
  {| windowContext := {[ 100 := webview_ptr 1 ]};
     webviews := fun _ =>
       {| hwnd := 100; autofocus := true;
          maxsz := {| w32.X := 0; w32.Y := 0 |};
          minsz := {| w32.X := 0; w32.Y := 0 |} |};
     calls := [] |}.

(** A process with no window yet. *)
Definition no_window : process :=
  {| windowContext := ∅;
     webviews := fun _ =>
       {| hwnd := 0; autofocus := false;
          maxsz := {| w32.X := 0; w32.Y := 0 |};
          minsz := {| w32.X := 0; w32.Y := 0 |} |};
     calls := [] |}.

(** The surroundings of the auto-install step: a runtime installed, and none
    with a prompt that fails. *)
Definition with_runtime : webview2runtime :=
  {| GetInstalledVersion := Some {| Version := "120.0.2210.91" |};
     Confirm := (false, None);
     InstallUsingBootstrapper := ((true, None), []) |}.

Definition without_runtime : webview2runtime :=
  {| GetInstalledVersion := None;
     Confirm := (false, Some "the prompt could not be shown");
     InstallUsingBootstrapper := ((true, None), []) |}.

(** Options for a centred window of 800 by 600, and of 2000 by 600. *)
Definition centred_window : WindowOptions :=
  {| Title := "demo"; Width := 800; Height := 600; IconId := 0; Center := true |}.

Definition wide_window : WindowOptions :=
  {| Title := "demo"; Width := 2000; Height := 600; IconId := 0; Center := true |}.

End demo_more.

(** * Properties *)

Section Webview2_facts.
Context `{Ext : Externals}.

(** ** The message callback *)

(** [Dispatch] appends to the queue and to the trace, and nothing else. *)
Lemma Dispatch_fields (f : closure) (w : webview) :
  mainthread (Dispatch f w) = mainthread w
  /\ bindings (Dispatch f w) = bindings w
  /\ dispatchq (Dispatch f w) = dispatchq w ++ [f]
  /\ world (Dispatch f w) = world w
  /\ trace (Dispatch f w) =
       trace w ++ [Dispatched f; PostThreadMessageW (mainthread w) WMApp].
Proof.
  unfold Dispatch; cbn. repeat split; auto.
  now rewrite <- app_assoc.
Qed.

(** [msgcb] once the message has been parsed and [callbinding] has returned. *)
Lemma msgcb_unfold (msg : string) (d : rpcMessage) (w w' : webview)
    (res : any) (err : option error) :
  Unmarshal_rpcMessage msg = Ok d ->
  callbinding d w = ((res, err), w') ->
  msgcb msg w =
    match err with
    | Some err =>
        Dispatch (Eval_closure (reject_script (Itoa (ID d)) (Error err))) w'
    | None =>
        match json_Marshal res with
        | Fail text => Dispatch (Eval_closure (reject_script (Itoa (ID d)) text)) w'
        | Ok b => Dispatch (Eval_closure (resolve_script (Itoa (ID d)) b)) w'
        end
    end.
Proof.
  intros Hd Hc. unfold msgcb. now rewrite Hd, Hc.
Qed.

(** [callbinding] on a bound method that passes the arity test and whose
    params all decode: the function is called, once. *)
Lemma callbinding_calls (d : rpcMessage) (w : webview) (f : callable)
    (args : list Value) (rs : list any) (h : World) :
  bindings w !! Method d = Some f ->
  arguments_mismatch f (Z.of_nat (length (Params d))) = false ->
  decode_params f 0 (Params d) [] = Ok args ->
  Call f args (world w) = (rs, h) ->
  callbinding d w =
    (interpret (combine (Out f) rs),
     with_world h (emit (reflect_Call (Method d) args) w)).
Proof.
  intros Hf Ha Hp Hc. unfold callbinding, call_bound, v_Call.
  rewrite Hf, Ha, Hp. cbn. now rewrite Hc.
Qed.

(** C10. When [json.Unmarshal] refuses the inbound string as an
    [rpcMessage], [msgcb] writes one log line and returns: the binding table,
    the queue and the world are as before, and the trace has gained the log
    line only, so no function was called and no script evaluated. *)
Theorem msgcb_drops_invalid_message (msg text : string) (w : webview) :
  Unmarshal_rpcMessage msg = Fail text ->
  msgcb msg w = emit (log_Printf ("invalid RPC message: " +:+ text)) w
  /\ bindings (msgcb msg w) = bindings w
  /\ dispatchq (msgcb msg w) = dispatchq w
  /\ world (msgcb msg w) = world w
  /\ trace (msgcb msg w) =
       trace w ++ [log_Printf ("invalid RPC message: " +:+ text)]
  /\ called (trace (msgcb msg w)) = called (trace w)
  /\ evaluated (trace (msgcb msg w)) = evaluated (trace w)
  /\ dispatched (trace (msgcb msg w)) = dispatched (trace w).
Proof.
  intros Hbad. unfold msgcb. rewrite Hbad. cbn.
  unfold called, evaluated, dispatched.
  rewrite !omap_app. cbn. rewrite !app_nil_r. repeat split; reflexivity.
Qed.

(** ** Arity and decoding *)

(** The loop only ever extends the arguments gathered so far. *)
Lemma decode_params_acc (f : callable) (params : list string) :
  forall (i : Z) (acc : list Value),
  decode_params f i params acc =
    match decode_params f i params [] with
    | Ok args => Ok (acc ++ args)
    | Fail text => Fail text
    end.
Proof.
  induction params as [|p rest IH]; intros i acc; cbn.
  - now rewrite app_nil_r.
  - destruct (json_Unmarshal p (param_type f i)) as [arg|text]; [|reflexivity].
    rewrite (IH (i + 1) (acc ++ [arg])), (IH (i + 1) [arg]).
    destruct (decode_params f (i + 1) rest []); [|reflexivity].
    now rewrite <- app_assoc.
Qed.

(** Decoding a list of params in two halves. *)
Lemma decode_params_app (f : callable) (xs ys : list string) :
  forall (i : Z) (acc : list Value),
  decode_params f i (xs ++ ys) acc =
    match decode_params f i xs acc with
    | Ok args => decode_params f (i + Z.of_nat (length xs)) ys args
    | Fail text => Fail text
    end.
Proof.
  induction xs as [|x xs IH]; intros i acc; cbn [app decode_params length].
  - now rewrite Z.add_0_r.
  - destruct (json_Unmarshal x (param_type f i)) as [arg|text]; [|reflexivity].
    rewrite IH. destruct (decode_params f (i + 1) xs (acc ++ [arg])); [|reflexivity].
    f_equal. lia.
Qed.

(** For a function that is not variadic, params that decode one by one into
    the parameter types from position [i] on are gathered in order. *)
Lemma decode_params_fixed (f : callable) (params : list string)
    (types : list GoType) (vs : list Value) :
  IsVariadic f = false ->
  Forall3 (fun p t v => json_Unmarshal p t = Ok v) params types vs ->
  forall (i : nat) (acc : list Value),
  drop i (In f) = types ->
  decode_params f (Z.of_nat i) params acc = Ok (acc ++ vs).
Proof.
  intros Hfix Hall.
  induction Hall as [|p t v ps ts vs' Hp _ IH]; intros i acc Hdrop; cbn.
  - now rewrite app_nil_r.
  - assert (Hi : In f !! i = Some t).
    { rewrite <- (Nat.add_0_r i), <- lookup_drop, Hdrop. reflexivity. }
    unfold param_type. rewrite Hfix. cbn. rewrite Nat2Z.id.
    rewrite (list_lookup_total_correct _ _ _ Hi), Hp.
    replace (Z.of_nat i + 1) with (Z.of_nat (S i)) by lia.
    rewrite (IH (S i) (acc ++ [v])).
    + now rewrite <- app_assoc.
    + rewrite (drop_S _ _ _ Hi) in Hdrop. now inversion Hdrop.
Qed.

(** C3. For a bound function, a number of params that differs from its
    number of parameters (fixed arity), or that is below that number minus
    one (variadic), makes [callbinding] return the error [function arguments
    mismatch] with the webview untouched: no call is in the trace and the
    world is as before.  With exactly as many params as parameters, each
    decoding into the type of its position, a fixed-arity function is called
    once, with the decoded values in order. *)
Theorem arity_mismatch_fails_without_call (w : webview) (d : rpcMessage)
    (f : callable) :
  bindings w !! Method d = Some f ->
  let n := Z.of_nat (length (Params d)) in
  let mismatch := errors_New "function arguments mismatch" in
  (IsVariadic f = false -> n <> NumIn f ->
     callbinding d w = ((None, Some mismatch), w))
  /\ (IsVariadic f = true -> n < NumIn f - 1 ->
        callbinding d w = ((None, Some mismatch), w))
  /\ (forall args : list Value,
        IsVariadic f = false ->
        Forall3 (fun p t v => json_Unmarshal p t = Ok v) (Params d) (In f) args ->
        let r := Call f args (world w) in
        callbinding d w =
          (interpret (combine (Out f) (fst r)),
           with_world (snd r) (emit (reflect_Call (Method d) args) w))
        /\ called (trace (snd (callbinding d w))) =
             called (trace w) ++ [(Method d, args)]).
Proof.
  intros Hf n mismatch. split; [|split].
  - intros Hfix Hn. unfold callbinding, call_bound. rewrite Hf.
    unfold arguments_mismatch. rewrite Hfix. cbn.
    fold n. destruct (Z.eqb_spec n (NumIn f)); [contradiction|reflexivity].
  - intros Hvar Hn. unfold callbinding, call_bound. rewrite Hf.
    unfold arguments_mismatch. rewrite Hvar. cbn. fold n.
    destruct (Z.ltb_spec n (NumIn f - 1)); [reflexivity|lia].
  - intros args Hfix Hall r.
    assert (Hn : n = NumIn f).
    { unfold n, NumIn. f_equal. exact (Forall3_length_lm _ _ _ _ Hall). }
    assert (Ha : arguments_mismatch f n = false).
    { unfold arguments_mismatch. rewrite Hfix, Hn, Z.eqb_refl. reflexivity. }
    pose proof (decode_params_fixed f _ _ _ Hfix Hall 0%nat [] eq_refl) as Hp.
    cbn in Hp. subst r. destruct (Call f args (world w)) as [rs h] eqn:Hc.
    pose proof (callbinding_calls d w f args rs h Hf Ha Hp Hc) as Hcb.
    split; [exact Hcb|]. rewrite Hcb. cbn.
    unfold called. rewrite omap_app. reflexivity.
Qed.

(** ** Bind *)

(** [Bind] on a function with at most two results. *)
Lemma Bind_accepts (name : string) (f : callable) (w : webview) :
  NumOut f <= 2 ->
  Bind name (Func f) w =
    (None, Init (bootstrap name) (with_bindings (<[name := f]> (bindings w)) w)).
Proof.
  intros Hout. unfold Bind.
  destruct (Z.ltb_spec 2 (NumOut f)); [lia|reflexivity].
Qed.

(** C9. [Bind] refuses, with an error and with the webview untouched (no
    binding stored, no script injected), whatever is not a function and every
    function with more than two results; for any other function it returns
    nil, stores the function under the name and injects the bootstrap script
    for that name, once. *)
Theorem Bind_rejects_or_stores_and_injects (name : string) (w : webview) :
  (forall v : any,
     Bind name (NotFunc v) w =
       (Some (errors_New "only functions can be bound"), w))
  /\ (forall f : callable, 2 < NumOut f ->
        Bind name (Func f) w =
          (Some (errors_New "function may only return a value or a value+error"),
           w))
  /\ (forall f : callable, NumOut f <= 2 ->
        let w' := snd (Bind name (Func f) w) in
        fst (Bind name (Func f) w) = None
        /\ bindings w' = <[name := f]> (bindings w)
        /\ trace w' = trace w ++ [browser_Init (bootstrap name)]
        /\ dispatchq w' = dispatchq w
        /\ world w' = world w).
Proof.
  split; [reflexivity|]. split.
  - intros f Hout. unfold Bind.
    destruct (Z.ltb_spec 2 (NumOut f)); [reflexivity|lia].
  - intros f Hout. rewrite (Bind_accepts name f w Hout). cbn.
    repeat split; reflexivity.
Qed.

(** What [Bind] does to the binding table, in all cases. *)
Lemma Bind_bindings (name : string) (f : bindable) (w : webview) :
  bindings (snd (Bind name f w)) = bindings w
  \/ exists v, f = Func v /\ bindings (snd (Bind name f w)) = <[name := v]> (bindings w).
Proof.
  unfold Bind. destruct f as [v|v]; [|now left].
  destruct (2 <? NumOut v); [now left|]. right. exists v. split; reflexivity.
Qed.

(** [callbinding] leaves the table and the queue alone, and adds to the trace
    at most the call it makes. *)
Lemma callbinding_frame (d : rpcMessage) (w : webview) :
  let w' := snd (callbinding d w) in
  bindings w' = bindings w /\ dispatchq w' = dispatchq w
  /\ mainthread w' = mainthread w
  /\ (trace w' = trace w
      \/ exists args, trace w' = trace w ++ [reflect_Call (Method d) args]).
Proof.
  unfold callbinding, call_bound, v_Call.
  destruct (bindings w !! Method d) as [f|]; [|cbn; auto].
  destruct (arguments_mismatch f _); [cbn; auto|].
  destruct (decode_params f 0 (Params d) []) as [args|text]; [|cbn; auto].
  cbn. destruct (Call f args (world w)) as [rs h]. cbn.
  repeat split; auto. right. now exists args.
Qed.

(** Running a queue: every closure of it is called, in order; the queue of
    the webview gains the closures they dispatch; the table is not touched. *)
Lemma run_queue_effect (q : list closure) :
  forall w : webview,
  let w' := run_queue q w in
  bindings w' = bindings w
  /\ mainthread w' = mainthread w
  /\ dispatchq w' = dispatchq w ++ redispatched q
  /\ ran (trace w') = ran (trace w) ++ q
  /\ dispatched (trace w') = dispatched (trace w) ++ redispatched q.
Proof.
  induction q as [|v q IH]; intros w; cbn.
  - rewrite !app_nil_r. auto.
  - destruct (IH (run_closure v (emit (Ran v) w))) as (Hb & Hm & Hq & Hr & Hd).
    unfold run_queue in *. rewrite Hb, Hm, Hq, Hr, Hd. clear.
    unfold ran, dispatched.
    destruct v as [js|f|h]; cbn; rewrite ?omap_app; cbn;
      rewrite ?app_nil_r, <- ?app_assoc; cbn; auto.
Qed.

(** [Run] on the wake message. *)
Lemma Run_body_wake (msg : Msg) (w : webview) :
  Message msg = WMApp ->
  Run_body msg w =
    Continue (translate_dispatch msg
                (run_queue (dispatchq w) (with_dispatchq [] w))).
Proof.
  intros Hwake. unfold Run_body. now rewrite Hwake, Z.eqb_refl.
Qed.

(** The tail of the loop body touches the trace only, and there neither the
    closures nor the scripts. *)
Lemma translate_dispatch_frame (msg : Msg) (w : webview) :
  let w' := translate_dispatch msg w in
  bindings w' = bindings w /\ dispatchq w' = dispatchq w
  /\ ran (trace w') = ran (trace w)
  /\ dispatched (trace w') = dispatched (trace w).
Proof.
  unfold translate_dispatch. destruct (IsDialogMessage msg); cbn; auto.
  unfold ran, dispatched. rewrite !omap_app. cbn. now rewrite !app_nil_r.
Qed.

(** The last closure of a queue is called last. *)
Lemma run_queue_snoc (q : list closure) (v : closure) (w : webview) :
  run_queue (q ++ [v]) w = run_closure v (emit (Ran v) (run_queue q w)).
Proof. unfold run_queue. now rewrite fold_left_app. Qed.

(** The tail of the loop body evaluates no script. *)
Lemma translate_dispatch_evaluated (msg : Msg) (w : webview) :
  evaluated (trace (translate_dispatch msg w)) = evaluated (trace w).
Proof.
  unfold translate_dispatch. destruct (IsDialogMessage msg); [reflexivity|].
  cbn. unfold evaluated. rewrite omap_app. cbn. now rewrite app_nil_r.
Qed.

(** C2, as the code has it.  A message whose method is not in the binding
    table calls no function and leaves the webview as it is; [callbinding]
    returns [nil, nil], which [msgcb] treats as a success: it dispatches the
    resolution of the promise slot with [null], and on the next wake message
    that script is evaluated, after whatever was queued before it. *)
Theorem unbound_method_resolves_null (msg : string) (d : rpcMessage)
    (w : webview) :
  Unmarshal_rpcMessage msg = Ok d ->
  bindings w !! Method d = None ->
  let script := resolve_script (Itoa (ID d)) "null" in
  callbinding d w = ((None, None), w)
  /\ msgcb msg w = Dispatch (Eval_closure script) w
  /\ called (trace (msgcb msg w)) = called (trace w)
  /\ forall wake : Msg, Message wake = WMApp ->
       exists earlier,
         evaluated (trace (after (Run_body wake (msgcb msg w)))) =
         earlier ++ [script].
Proof.
  intros Hd Hnone script.
  assert (Hc : callbinding d w = ((None, None), w)).
  { unfold callbinding. now rewrite Hnone. }
  assert (Hm : msgcb msg w = Dispatch (Eval_closure script) w).
  { rewrite (msgcb_unfold msg d w w None None Hd Hc). reflexivity. }
  split; [exact Hc|]. split; [exact Hm|]. split.
  - rewrite Hm. destruct (Dispatch_fields (Eval_closure script) w)
      as (_ & _ & _ & _ & ->).
    unfold called. rewrite omap_app. cbn. now rewrite app_nil_r.
  - intros wake Hwake. rewrite Hm, (Run_body_wake wake _ Hwake). cbn [after].
    rewrite translate_dispatch_evaluated.
    destruct (Dispatch_fields (Eval_closure script) w) as (_ & _ & -> & _).
    rewrite run_queue_snoc. cbn.
    unfold evaluated. rewrite !omap_app. cbn. rewrite app_nil_r.
    eexists. reflexivity.
Qed.

(** A message of the page leaves the binding table as it is. *)
Lemma msgcb_bindings (msg : string) (w : webview) :
  bindings (msgcb msg w) = bindings w.
Proof.
  unfold msgcb. destruct (Unmarshal_rpcMessage msg) as [d|text]; [|reflexivity].
  destruct (callbinding_frame d w) as (Hb & _).
  destruct (callbinding d w) as [[res err] w']. cbn in Hb.
  destruct err; [|destruct (json_Marshal res)]; cbn; exact Hb.
Qed.

(** Only [Bind] under the same name changes what a name is bound to. *)
Lemma happen_keeps_binding (name : string) (e : happening) (w : webview) :
  (forall f, e <> client_Bind name f) ->
  bindings (happen e w) !! name = bindings w !! name.
Proof.
  intros Hother. destruct e as [f|name' f|msg|msg]; cbn.
  - reflexivity.
  - destruct (Bind_bindings name' f w) as [->|(v & -> & ->)]; [reflexivity|].
    apply lookup_insert_ne. intros ->. now apply (Hother (Func v)).
  - now rewrite msgcb_bindings.
  - destruct (Z.eqb_spec (Message msg) WMApp) as [Hwake|Hwake].
    + rewrite (Run_body_wake msg w Hwake). cbn [after].
      destruct (translate_dispatch_frame msg
        (run_queue (dispatchq w) (with_dispatchq [] w))) as (-> & _).
      destruct (run_queue_effect (dispatchq w) (with_dispatchq [] w)) as (-> & _).
      reflexivity.
    + unfold Run_body. destruct (Z.eqb_spec (Message msg) WMApp); [contradiction|].
      destruct (Message msg =? WMQuit); cbn [after]; [reflexivity|].
      now destruct (translate_dispatch_frame msg w) as (-> & _).
Qed.

(** ** The deferred-closure queue *)

(** [Dispatch] keeps the closures called so far followed by the queue equal
    to the closures dispatched so far. *)
Lemma Dispatch_consistent (f : closure) (w : webview) :
  ran (trace w) ++ dispatchq w = dispatched (trace w) ->
  ran (trace (Dispatch f w)) ++ dispatchq (Dispatch f w) =
  dispatched (trace (Dispatch f w)).
Proof.
  intros Hinv. destruct (Dispatch_fields f w) as (_ & _ & -> & _ & ->).
  unfold ran, dispatched in *. rewrite !omap_app. cbn.
  now rewrite app_nil_r, app_assoc, Hinv.
Qed.

(** So does everything else that can happen to a webview. *)
Lemma happen_consistent (e : happening) (w : webview) :
  ran (trace w) ++ dispatchq w = dispatched (trace w) ->
  ran (trace (happen e w)) ++ dispatchq (happen e w) =
  dispatched (trace (happen e w)).
Proof.
  intros Hinv. destruct e as [f|name f|msg|msg]; cbn [happen].
  - now apply Dispatch_consistent.
  - unfold Bind. destruct f as [v|v]; [|exact Hinv].
    destruct (2 <? NumOut v); [exact Hinv|]. cbn.
    unfold ran, dispatched in *. rewrite !omap_app. cbn.
    now rewrite !app_nil_r.
  - unfold msgcb. destruct (Unmarshal_rpcMessage msg) as [d|text].
    + destruct (callbinding_frame d w) as (_ & Hq & _ & Ht).
      destruct (callbinding d w) as [[res err] w']. cbn in Hq, Ht.
      assert (Hinv' : ran (trace w') ++ dispatchq w' = dispatched (trace w')).
      { rewrite Hq. destruct Ht as [->|[args ->]]; [exact Hinv|].
        unfold ran, dispatched in *. rewrite !omap_app. cbn.
        now rewrite !app_nil_r. }
      destruct err; [|destruct (json_Marshal res)];
        now apply Dispatch_consistent.
    + cbn. unfold ran, dispatched in *. rewrite !omap_app. cbn.
      now rewrite !app_nil_r.
  - destruct (Z.eqb_spec (Message msg) WMApp) as [Hwake|Hwake].
    + rewrite (Run_body_wake msg w Hwake). cbn [after].
      destruct (translate_dispatch_frame msg
        (run_queue (dispatchq w) (with_dispatchq [] w))) as (_ & -> & -> & ->).
      destruct (run_queue_effect (dispatchq w) (with_dispatchq [] w))
        as (_ & _ & -> & -> & ->).
      cbn [with_dispatchq trace dispatchq app]. now rewrite Hinv.
    + unfold Run_body. destruct (Z.eqb_spec (Message msg) WMApp); [contradiction|].
      destruct (Message msg =? WMQuit); cbn [after]; [exact Hinv|].
      now destruct (translate_dispatch_frame msg w) as (_ & -> & -> & ->).
Qed.

Lemma life_consistent (es : list happening) :
  forall w : webview,
  ran (trace w) ++ dispatchq w = dispatched (trace w) ->
  ran (trace (life es w)) ++ dispatchq (life es w) =
  dispatched (trace (life es w)).
Proof.
  induction es as [|e es IH]; intros w Hinv; [exact Hinv|].
  cbn. apply IH. now apply happen_consistent.
Qed.

(** [Run] is a run of loop messages, up to the quit message. *)
Lemma Run_consistent (msgs : list Msg) :
  forall w : webview,
  ran (trace w) ++ dispatchq w = dispatched (trace w) ->
  ran (trace (after (Run msgs w))) ++ dispatchq (after (Run msgs w)) =
  dispatched (trace (after (Run msgs w))).
Proof.
  induction msgs as [|msg msgs IH]; intros w Hinv; [exact Hinv|].
  pose proof (happen_consistent (loop_message msg) w Hinv) as Hstep.
  cbn in *. destruct (Run_body msg w) as [w'|w']; cbn in *; auto.
Qed.

(** C6. [Dispatch] appends the closure to the queue and posts one wake
    message to the owning thread.  On the wake message [Run] takes the whole
    queue, leaves an empty one in its place, and calls the closures it took in
    the order they were appended; the closures dispatched meanwhile are the
    new queue.  Throughout the life of a webview, [Run] included, the
    closures called so far, followed by the queue, are the closures
    dispatched so far, in order: a dispatched closure is called once or is
    still waiting, never called twice. *)
Theorem wake_runs_the_queue_once_in_order :
  (forall (f : closure) (w : webview),
     dispatchq (Dispatch f w) = dispatchq w ++ [f]
     /\ trace (Dispatch f w) =
          trace w ++ [Dispatched f; PostThreadMessageW (mainthread w) WMApp])
  /\ (forall (msg : Msg) (w : webview), Message msg = WMApp ->
        Run_body msg w =
          Continue (translate_dispatch msg
                      (run_queue (dispatchq w) (with_dispatchq [] w)))
        /\ ran (trace (after (Run_body msg w))) = ran (trace w) ++ dispatchq w
        /\ dispatchq (after (Run_body msg w)) = redispatched (dispatchq w))
  /\ (forall (thread : Z) (h : World) (es : list happening) (msgs : list Msg),
        let w := after (Run msgs (life es (NewWithOptions thread h))) in
        ran (trace w) ++ dispatchq w = dispatched (trace w)).
Proof.
  split; [|split].
  - intros f w. now destruct (Dispatch_fields f w) as (_ & _ & -> & _ & ->).
  - intros msg w Hwake. rewrite (Run_body_wake msg w Hwake). cbn [after].
    split; [reflexivity|].
    destruct (translate_dispatch_frame msg
      (run_queue (dispatchq w) (with_dispatchq [] w))) as (_ & -> & -> & _).
    destruct (run_queue_effect (dispatchq w) (with_dispatchq [] w))
      as (_ & _ & -> & -> & _).
    split; reflexivity.
  - intros thread h es msgs. apply Run_consistent, life_consistent.
    reflexivity.
Qed.

End Webview2_facts.

(** ** The loader shim *)

Module loader_facts.
Import webviewloader.

Ltac run_op :=
  unfold exec, CompareBrowserVersions, GetInstalledVersion,
    CreateCoreWebView2EnvironmentWithOptions, load_native, loadFromMemory,
    reaches_loader in *; cbn -[mem_loads] in *.

(** Every operation that reaches the loader starts with the system DLL. *)
Lemma system_loader_is_tried_first (m : machine) (o : op) (g : globals) :
  reaches_loader o = true ->
  exists rest, history (snd (exec m o g)) = history g ++ Load :: rest.
Proof.
  intros Hreach. destruct o as [v1 v2| |]; run_op.
  - destruct (UTF16PtrFromString v1); [discriminate|].
    destruct (UTF16PtrFromString v2); [discriminate|].
    destruct (nativeModule_Load m) as [e|]; [|destruct (Proc_Find m compare)];
      cbn; destruct (memOnce g); cbn;
      try destruct (winloader_LoadFromMemory m); cbn;
      try destruct (memCompareBrowserVersions g); cbn;
      rewrite <- ?app_assoc; eexists; reflexivity.
  - destruct (nativeModule_Load m) as [e|]; [|destruct (Proc_Find m available)];
      cbn; destruct (memOnce g); cbn;
      try destruct (winloader_LoadFromMemory m); cbn;
      try destruct (memGetAvailableCoreWebView2BrowserVersionString g); cbn;
      try destruct (unless_nil _ _); cbn;
      rewrite <- ?app_assoc; eexists; reflexivity.
  - destruct (nativeModule_Load m) as [e|]; [|destruct (Proc_Find m create)];
      cbn; destruct (memOnce g); cbn;
      try destruct (winloader_LoadFromMemory m); cbn;
      try destruct (memCreate g); cbn;
      rewrite <- ?app_assoc; eexists; reflexivity.
Qed.

(** When the system DLL loads and has the procedure, the embedded copy is
    neither loaded nor called. *)
Lemma memory_is_not_used_when_disk_works (m : machine) (o : op) (g : globals) :
  reaches_loader o = true ->
  nativeModule_Load m = None ->
  Proc_Find m (proc_of o) = None ->
  exists p, history (snd (exec m o g)) =
            history g ++ [Load; Find (proc_of o); Call native p].
Proof.
  intros Hreach Hload Hfind. destruct o as [v1 v2| |]; run_op.
  - destruct (UTF16PtrFromString v1); [discriminate|].
    destruct (UTF16PtrFromString v2); [discriminate|].
    rewrite Hload, Hfind. cbn. rewrite <- !app_assoc. now eexists.
  - rewrite Hload, Hfind. cbn.
    destruct (unless_nil _ _); cbn; rewrite <- !app_assoc; now eexists.
  - rewrite Hload, Hfind. cbn. rewrite <- !app_assoc. now eexists.
Qed.

Lemma mem_loads_app (h1 h2 : list step) :
  mem_loads (h1 ++ h2) = (mem_loads h1 + mem_loads h2)%nat.
Proof. unfold mem_loads. now rewrite List.filter_app, length_app. Qed.

(** One operation loads the embedded copy at most once, and only if it was
    never loaded before. *)
Lemma exec_mem_loads (m : machine) (o : op) (g : globals) :
  let g' := snd (exec m o g) in
  (memOnce g = true ->
     memOnce g' = true /\ mem_loads (history g') = mem_loads (history g))
  /\ (memOnce g = false ->
        (mem_loads (history g') <= mem_loads (history g) + 1)%nat
        /\ (memOnce g' = false -> mem_loads (history g') = mem_loads (history g))).
Proof.
  destruct o as [v1 v2| |]; run_op.
  - destruct (UTF16PtrFromString v1); [cbn; intuition lia|].
    destruct (UTF16PtrFromString v2); [cbn; intuition lia|].
    destruct (nativeModule_Load m) as [e|]; [|destruct (Proc_Find m compare)];
      cbn -[mem_loads]; destruct (memOnce g) eqn:Hm; cbn -[mem_loads];
      try destruct (winloader_LoadFromMemory m); cbn -[mem_loads];
      try destruct (memCompareBrowserVersions g); cbn -[mem_loads];
      rewrite ?mem_loads_app; cbn; rewrite ?Hm;
      intuition (try discriminate; lia).
  - destruct (nativeModule_Load m) as [e|]; [|destruct (Proc_Find m available)];
      cbn -[mem_loads]; destruct (memOnce g) eqn:Hm; cbn -[mem_loads];
      try destruct (winloader_LoadFromMemory m); cbn -[mem_loads];
      try destruct (memGetAvailableCoreWebView2BrowserVersionString g); cbn -[mem_loads];
      try destruct (unless_nil _ _); cbn -[mem_loads];
      rewrite ?mem_loads_app; cbn; rewrite ?Hm;
      intuition (try discriminate; lia).
  - destruct (nativeModule_Load m) as [e|]; [|destruct (Proc_Find m create)];
      cbn -[mem_loads]; destruct (memOnce g) eqn:Hm; cbn -[mem_loads];
      try destruct (winloader_LoadFromMemory m); cbn -[mem_loads];
      try destruct (memCreate g); cbn -[mem_loads];
      rewrite ?mem_loads_app; cbn; rewrite ?Hm;
      intuition (try discriminate; lia).
Qed.

(** Over any run of operations the embedded copy is loaded at most once. *)
Lemma embedded_copy_is_loaded_at_most_once (m : machine) (os : list op) :
  (mem_loads (history (snd (exec_all m os start))) <= 1)%nat.
Proof.
  assert (Hgen : forall g,
    (if memOnce g then mem_loads (history g) <= 1
     else mem_loads (history g) = 0)%nat ->
    (mem_loads (history (snd (exec_all m os g))) <= 1)%nat).
  { induction os as [|o os IH]; intros g Hg; cbn.
    - destruct (memOnce g); lia.
    - pose proof (exec_mem_loads m o g) as [Hon Hoff].
      destruct (exec m o g) as [v g'] eqn:He. cbn in Hon, Hoff.
      specialize (IH g'). destruct (exec_all m os g') as [vs g'']. cbn in *.
      apply IH. destruct (memOnce g) eqn:Hm.
      + destruct (Hon eq_refl) as [-> ->]. exact Hg.
      + destruct (Hoff eq_refl) as [Hle Hsame].
        destruct (memOnce g'); [lia|]. rewrite Hsame; auto. }
  apply Hgen. reflexivity.
Qed.

(** The first operation on a machine where neither the system DLL nor the
    embedded copy loads returns the error that names both failures. *)
Lemma first_failure_is_reported (m : machine) (e1 e2 : string) (o : op)
    (g : globals) :
  nativeModule_Load m = Some e1 ->
  winloader_LoadFromMemory m = Some e2 ->
  reaches_loader o = true ->
  memOnce g = false ->
  fst (exec m o g) = Returned (Some (Errorf e1 (Some e2)))
  /\ memOnce (snd (exec m o g)) = true
  /\ (unset g -> unset (snd (exec m o g))).
Proof.
  intros Hdisk Hmem Hreach Honce. destruct o as [v1 v2| |]; run_op.
  - destruct (UTF16PtrFromString v1); [discriminate|].
    destruct (UTF16PtrFromString v2); [discriminate|].
    rewrite Hdisk. cbn. rewrite Honce, Hmem. cbn. auto.
  - rewrite Hdisk. cbn. rewrite Honce, Hmem. cbn. auto.
  - rewrite Hdisk. cbn. rewrite Honce, Hmem. cbn. auto.
Qed.

(** Once the one-time initialiser has run without setting the procedures,
    an operation that falls back to the embedded copy panics. *)
Lemma later_failure_panics (m : machine) (e1 : string) (o : op) (g : globals) :
  nativeModule_Load m = Some e1 ->
  reaches_loader o = true ->
  memOnce g = true ->
  unset g ->
  fst (exec m o g) = Panicked
  /\ memOnce (snd (exec m o g)) = true
  /\ unset (snd (exec m o g)).
Proof.
  intros Hdisk Hreach Honce (Hc & Hv & Ha). unfold unset.
  destruct o as [v1 v2| |]; run_op.
  - destruct (UTF16PtrFromString v1); [discriminate|].
    destruct (UTF16PtrFromString v2); [discriminate|].
    rewrite Hdisk. cbn. rewrite Honce. cbn. rewrite Hv. cbn. auto.
  - rewrite Hdisk. cbn. rewrite Honce. cbn. rewrite Ha. cbn. auto.
  - rewrite Hdisk. cbn. rewrite Honce. cbn. rewrite Hc. cbn. auto.
Qed.

(** C7, where the code departs from it.  On a machine where the system DLL
    does not load and the embedded copy does not load either, the first
    operation returns the error naming both failures.  Every later operation
    finds the one-time initialiser already run, so [loadFromMemory] returns
    nil, and the call goes through a procedure variable that was never set:
    the operation panics instead of returning the error. *)
Theorem later_calls_panic_after_both_loads_failed (m : machine)
    (e1 e2 : string) (o : op) (os : list op) :
  nativeModule_Load m = Some e1 ->
  winloader_LoadFromMemory m = Some e2 ->
  reaches_loader o = true ->
  Forall (fun o => reaches_loader o = true) os ->
  fst (exec_all m (o :: os) start) =
    Returned (Some (Errorf e1 (Some e2))) :: map (fun _ => Panicked) os.
Proof.
  intros Hdisk Hmem Hreach Hall. cbn [exec_all].
  destruct (first_failure_is_reported m e1 e2 o start Hdisk Hmem Hreach eq_refl)
    as (Hv & Honce & Hunset).
  destruct (exec m o start) as [v g]. cbn in Hv, Honce, Hunset. subst v.
  assert (Hg : unset g) by (apply Hunset; repeat split).
  clear Hunset Hreach. revert g Honce Hg.
  assert (Hlater : forall g, memOnce g = true -> unset g ->
            fst (exec_all m os g) = map (fun _ => Panicked) os).
  { induction Hall as [|o' os' Ho' _ IH]; intros g Honce Hg; [reflexivity|].
    cbn [exec_all map].
    destruct (later_failure_panics m e1 o' g Hdisk Ho' Honce Hg)
      as (Hv & Honce' & Hg').
    destruct (exec m o' g) as [v g']. cbn in Hv, Honce', Hg'. subst v.
    specialize (IH g' Honce' Hg').
    destruct (exec_all m os' g') as [vs g'']. cbn in *. now rewrite IH. }
  intros g Honce Hg. specialize (Hlater g Honce Hg).
  destruct (exec_all m os g) as [vs g']. cbn in *. now rewrite Hlater.
Qed.

End loader_facts.

(** ** The installer bootstrap *)

Section Installer_facts.
Import webviewloader.

(** With a version installed, the auto-install step returns nil at once: no
    prompt, no installer. *)
Lemma installed_runtime_needs_nothing (r : webview2runtime) :
  installed r = true -> Webview2AutoInstall r = (None, []).
Proof. intros Hyes. unfold Webview2AutoInstall. now rewrite Hyes. Qed.

(** When nothing fails, the bootstrapper writes the installer to the temporary
    path, runs it with the silent-install flags and deletes it, and the
    auto-install step returns nil having shown the prompt only. *)
Lemma confirmed_install_writes_runs_deletes (version : option Info) (h : host) :
  installed (runtime_on version (true, None) h) = false ->
  ioutil_WriteFile h = None -> cmd_Start h = None -> cmd_Wait h = Wait_nil ->
  os_Remove h = None ->
  Webview2AutoInstall (runtime_on version (true, None) h) =
    (None,
     [Confirm_box confirm_text "提示消息";
      Setup (WriteFile (exePath h) 493);
      Setup (Command (exePath h) ["/silent"; "/install"]);
      Setup (Remove (exePath h))]).
Proof.
  intros Hno Hw Hs Hwait Hrm. unfold Webview2AutoInstall. rewrite Hno. cbn.
  unfold webviewloader.InstallUsingBootstrapper, runInstaller.
  rewrite Hw, Hs, Hwait, Hrm. reflexivity.
Qed.

(** A failure to write the installer, to start it or to delete it, and an
    exit status other than zero, each end in an error box and an error. *)
Lemma reported_failures_surface (version : option Info) (h : host) :
  installed (runtime_on version (true, None) h) = false ->
  (ioutil_WriteFile h <> None
   \/ cmd_Start h <> None
   \/ (exists status, cmd_Wait h = Wait_ExitError (Some status) /\ status <> 0)
   \/ os_Remove h <> None) ->
  let r := Webview2AutoInstall (runtime_on version (true, None) h) in
  fst r <> None /\ shows_error (snd r) = true.
Proof.
  intros Hno Hfail. unfold Webview2AutoInstall. rewrite Hno. cbn.
  unfold webviewloader.InstallUsingBootstrapper, runInstaller.
  destruct (ioutil_WriteFile h) as [e|]; [cbn; split; [discriminate|reflexivity]|].
  destruct (cmd_Start h) as [e|]; [cbn; split; [discriminate|reflexivity]|].
  destruct Hfail as [Hf|[Hf|[(status & Hw & Hs)|Hf]]]; try contradiction.
  - rewrite Hw. destruct (Z.eqb_spec status 0); [contradiction|].
    destruct (os_Remove h); cbn; split; (discriminate || reflexivity).
  - destruct (os_Remove h) as [e|]; [|contradiction].
    destruct (cmd_Wait h) as [|[status|]|]; try destruct (status =? 0); cbn;
      split; (discriminate || reflexivity).
Qed.

(** C8, where the code departs from it.  When [cmd.Wait] fails with an error
    that is not an exit status, [runInstaller] falls through to [true, nil]:
    the bootstrapper reports success, and the auto-install step returns nil
    without any error box, the installer having been written, started and
    deleted. *)
Theorem wait_error_passes_for_success (version : option Info) (h : host)
    (text : string) :
  installed (runtime_on version (true, None) h) = false ->
  ioutil_WriteFile h = None -> cmd_Start h = None ->
  cmd_Wait h = Wait_error text -> os_Remove h = None ->
  webviewloader.InstallUsingBootstrapper h =
    ((true, None),
     [WriteFile (exePath h) 493;
      Command (exePath h) ["/silent"; "/install"];
      Remove (exePath h)])
  /\ Webview2AutoInstall (runtime_on version (true, None) h) =
       (None,
        [Confirm_box confirm_text "提示消息";
         Setup (WriteFile (exePath h) 493);
         Setup (Command (exePath h) ["/silent"; "/install"]);
         Setup (Remove (exePath h))])
  /\ shows_error (snd (Webview2AutoInstall (runtime_on version (true, None) h)))
     = false.
Proof.
  intros Hno Hw Hs Hwait Hrm.
  assert (Hboot : webviewloader.InstallUsingBootstrapper h =
    ((true, None),
     [WriteFile (exePath h) 493;
      Command (exePath h) ["/silent"; "/install"];
      Remove (exePath h)])).
  { unfold webviewloader.InstallUsingBootstrapper, runInstaller.
    now rewrite Hw, Hs, Hwait, Hrm. }
  split; [exact Hboot|].
  unfold Webview2AutoInstall. rewrite Hno. cbn. rewrite Hboot.
  split; reflexivity.
Qed.

End Installer_facts.

(** * Further properties of the bridge and of the loop *)

Section Webview2_more_facts.
Context `{Ext : Externals}.

(** ** Variadic functions *)

(** For a variadic function, params that decode one by one into the declared
    types that precede the variadic one are gathered in order. *)
Lemma decode_params_declared (f : callable) (last : GoType)
    (ps : list string) (ts : list GoType) (vs : list Value) :
  IsVariadic f = true ->
  Forall3 (fun p t v => json_Unmarshal p t = Ok v) ps ts vs ->
  forall (pre : list GoType) (acc : list Value),
  In f = pre ++ ts ++ [last] ->
  decode_params f (Z.of_nat (length pre)) ps acc = Ok (acc ++ vs).
Proof.
  intros Hvar Hall.
  induction Hall as [|p t v ps ts vs Hp _ IH]; intros pre acc Hin; cbn.
  - now rewrite app_nil_r.
  - assert (Hi : In f !! length pre = Some t).
    { rewrite Hin. cbn [app]. now apply list_lookup_middle. }
    assert (Hlt : (NumIn f - 1 <=? Z.of_nat (length pre)) = false).
    { apply Z.leb_gt. unfold NumIn. rewrite Hin, !length_app. cbn. lia. }
    unfold param_type. rewrite Hvar, Hlt. cbn. rewrite Nat2Z.id.
    rewrite (list_lookup_total_correct _ _ _ Hi), Hp.
    replace (Z.of_nat (length pre) + 1) with (Z.of_nat (length (pre ++ [t])))
      by (rewrite length_app; cbn; lia).
    rewrite (IH (pre ++ [t]) (acc ++ [v])).
    + now rewrite <- app_assoc.
    + now rewrite <- app_assoc.
Qed.

(** From the variadic position on, every param is decoded into the element
    type of the last declared type. *)
Lemma decode_params_rest (f : callable) (qs : list string) (us : list Value) :
  IsVariadic f = true ->
  Forall2 (fun q u =>
    json_Unmarshal q (Elem (In f !!! Z.to_nat (NumIn f - 1))) = Ok u) qs us ->
  forall (i : Z) (acc : list Value),
  NumIn f - 1 <= i ->
  decode_params f i qs acc = Ok (acc ++ us).
Proof.
  intros Hvar Hall.
  induction Hall as [|q u qs us Hq _ IH]; intros i acc Hi; cbn.
  - now rewrite app_nil_r.
  - unfold param_type. rewrite Hvar.
    destruct (Z.leb_spec (NumIn f - 1) i); [|lia]. cbn. rewrite Hq.
    rewrite IH by lia. now rewrite <- app_assoc.
Qed.

(** X1. A variadic function declared with the types [fixed ++ [last]] accepts
    any number of params from [length fixed] on: the first ones are decoded
    into [fixed], position by position, all the others into the element type
    of [last], and the function is called once with all the decoded values
    in order. *)
Theorem variadic_call_decodes_the_rest_as_elements (w : webview)
    (d : rpcMessage) (f : callable) (fixed : list GoType) (last : GoType)
    (ps qs : list string) (vs us : list Value) :
  bindings w !! Method d = Some f ->
  IsVariadic f = true ->
  In f = fixed ++ [last] ->
  Params d = ps ++ qs ->
  Forall3 (fun p t v => json_Unmarshal p t = Ok v) ps fixed vs ->
  Forall2 (fun q u => json_Unmarshal q (Elem last) = Ok u) qs us ->
  let r := Call f (vs ++ us) (world w) in
  callbinding d w =
    (interpret (combine (Out f) (fst r)),
     with_world (snd r) (emit (reflect_Call (Method d) (vs ++ us)) w))
  /\ called (trace (snd (callbinding d w))) =
       called (trace w) ++ [(Method d, vs ++ us)].
Proof.
  intros Hf Hvar Hin Hsplit Hps Hqs r.
  pose proof (Forall3_length_lm _ _ _ _ Hps) as Hlen.
  assert (Hn : NumIn f - 1 = Z.of_nat (length fixed)).
  { unfold NumIn. rewrite Hin, length_app. cbn. lia. }
  assert (Hlast : In f !!! Z.to_nat (NumIn f - 1) = last).
  { rewrite Hn, Nat2Z.id. apply list_lookup_total_correct.
    rewrite Hin. rewrite <- (app_nil_r [last]). apply list_lookup_middle.
    reflexivity. }
  assert (Ha : arguments_mismatch f (Z.of_nat (length (Params d))) = false).
  { unfold arguments_mismatch. rewrite Hvar, Hsplit, length_app. cbn.
    rewrite orb_false_r. apply Z.ltb_ge. lia. }
  assert (Hp : decode_params f 0 (Params d) [] = Ok (vs ++ us)).
  { rewrite Hsplit, decode_params_app.
    pose proof (decode_params_declared f last ps fixed vs Hvar Hps [] [] Hin)
      as Hhead.
    change (Z.of_nat (length [])) with 0 in Hhead. rewrite Hhead. cbn [app].
    apply decode_params_rest; [exact Hvar| |lia].
    now rewrite Hlast. }
  subst r. destruct (Call f (vs ++ us) (world w)) as [rs h] eqn:Hc.
  pose proof (callbinding_calls d w f (vs ++ us) rs h Hf Ha Hp Hc) as Hcb.
  split; [exact Hcb|]. rewrite Hcb. cbn.
  unfold called. now rewrite omap_app.
Qed.

(** ** Every call is answered once *)

(** A parsed message ends in the dispatch of one script that settles its
    promise slot. *)
Lemma msgcb_dispatches_an_answer (msg : string) (d : rpcMessage) (w : webview) :
  Unmarshal_rpcMessage msg = Ok d ->
  exists script, settles (Itoa (ID d)) script
    /\ msgcb msg w = Dispatch (Eval_closure script) (snd (callbinding d w)).
Proof.
  intros Hd. destruct (callbinding d w) as [[res err] w'] eqn:Hc.
  rewrite (msgcb_unfold msg d w w' res err Hd Hc). cbn [snd].
  destruct err as [err|]; [|destruct (json_Marshal res) as [b|text]];
    eexists; (split; [|reflexivity]); unfold settles; eauto.
Qed.

(** What a parsed message adds to the queue and to the scripts evaluated. *)
Lemma msgcb_queues_an_answer (msg : string) (d : rpcMessage) (w : webview) :
  Unmarshal_rpcMessage msg = Ok d ->
  exists script, settles (Itoa (ID d)) script
    /\ dispatchq (msgcb msg w) = dispatchq w ++ [Eval_closure script]
    /\ evaluated (trace (msgcb msg w)) = evaluated (trace w).
Proof.
  intros Hd. destruct (msgcb_dispatches_an_answer msg d w Hd)
    as (script & Hs & Hm).
  exists script. split; [exact Hs|]. rewrite Hm.
  destruct (callbinding_frame d w) as (_ & Hq & _ & Ht).
  destruct (Dispatch_fields (Eval_closure script) (snd (callbinding d w)))
    as (_ & _ & -> & _ & ->).
  rewrite Hq. split; [reflexivity|]. unfold evaluated.
  rewrite omap_app. cbn. rewrite app_nil_r.
  destruct Ht as [->|[args ->]]; [reflexivity|].
  rewrite omap_app. cbn. now rewrite app_nil_r.
Qed.

(** X2. Whatever a message that parses asks for (a bound method or not,
    params that decode or not, a function that succeeds or fails), [msgcb]
    answers it exactly once: it appends one closure to the queue, whose
    script resolves or rejects the promise slot of the message's id, and
    posts one wake message to the owning thread.  It evaluates nothing
    itself, leaves the binding table alone, and calls a bound function at
    most once. *)
Theorem msgcb_answers_every_call_once (msg : string) (d : rpcMessage)
    (w : webview) :
  Unmarshal_rpcMessage msg = Ok d ->
  exists script, settles (Itoa (ID d)) script
    /\ dispatchq (msgcb msg w) = dispatchq w ++ [Eval_closure script]
    /\ posted (trace (msgcb msg w)) =
         posted (trace w) ++ [(mainthread w, WMApp)]
    /\ evaluated (trace (msgcb msg w)) = evaluated (trace w)
    /\ bindings (msgcb msg w) = bindings w
    /\ (called (trace (msgcb msg w)) = called (trace w)
        \/ exists args,
             called (trace (msgcb msg w)) =
             called (trace w) ++ [(Method d, args)]).
Proof.
  intros Hd. destruct (msgcb_dispatches_an_answer msg d w Hd)
    as (script & Hs & Hm).
  exists script. split; [exact Hs|]. rewrite Hm.
  destruct (callbinding_frame d w) as (Hb & Hq & Hth & Ht).
  destruct (Dispatch_fields (Eval_closure script) (snd (callbinding d w)))
    as (_ & -> & -> & _ & ->).
  rewrite Hb, Hq, Hth. unfold posted, evaluated, called.
  rewrite !omap_app. cbn. rewrite !app_nil_r.
  destruct Ht as [->|[args ->]].
  - repeat split; auto.
  - rewrite !omap_app. cbn. rewrite !app_nil_r. repeat split; eauto.
Qed.

(** ** Answers in the order of the calls *)

(** Running a queue evaluates the scripts of its closures, in order, and
    hands no message to the window procedure. *)
Lemma run_queue_evaluated (q : list closure) :
  forall w : webview,
  evaluated (trace (run_queue q w)) = evaluated (trace w) ++ scripts q
  /\ pumped (trace (run_queue q w)) = pumped (trace w).
Proof.
  induction q as [|v q IH]; intros w; cbn.
  - now rewrite app_nil_r.
  - destruct (IH (run_closure v (emit (Ran v) w))) as (He & Hp).
    unfold run_queue in *. rewrite He, Hp. clear.
    unfold evaluated, pumped, scripts.
    destruct v as [js|f|h]; cbn; rewrite ?omap_app; cbn;
      rewrite ?app_nil_r, <- ?app_assoc; cbn; auto.
Qed.

(** The scripts the wake message evaluates. *)
Lemma wake_evaluated (wake : Msg) (w : webview) :
  Message wake = WMApp ->
  evaluated (trace (after (Run_body wake w))) =
    evaluated (trace w) ++ scripts (dispatchq w).
Proof.
  intros Hwake. rewrite (Run_body_wake wake w Hwake). cbn [after].
  rewrite translate_dispatch_evaluated.
  now destruct (run_queue_evaluated (dispatchq w) (with_dispatchq [] w))
    as (-> & _).
Qed.

(** X3. On the wake message the scripts evaluated in the page are exactly
    the scripts of the queued closures, in the order they were queued; the
    queue that is left holds only what those closures dispatched
    themselves. *)
Theorem wake_evaluates_the_queued_scripts_in_order (wake : Msg) (w : webview) :
  Message wake = WMApp ->
  evaluated (trace (after (Run_body wake w))) =
    evaluated (trace w) ++ scripts (dispatchq w)
  /\ dispatchq (after (Run_body wake w)) = redispatched (dispatchq w).
Proof.
  intros Hwake. split; [now apply wake_evaluated|].
  rewrite (Run_body_wake wake w Hwake). cbn [after].
  destruct (translate_dispatch_frame wake
    (run_queue (dispatchq w) (with_dispatchq [] w))) as (_ & -> & _).
  now destruct (run_queue_effect (dispatchq w) (with_dispatchq [] w))
    as (_ & _ & -> & _).
Qed.

(** What a run of page messages that all parse leaves in the queue. *)
Lemma serve_queues_answers (msgs : list string) :
  forall w : webview,
  Forall (fun msg => exists d, Unmarshal_rpcMessage msg = Ok d) msgs ->
  exists answers : list string,
    Forall2 (fun msg script => exists d,
               Unmarshal_rpcMessage msg = Ok d /\ settles (Itoa (ID d)) script)
            msgs answers
    /\ dispatchq (serve msgs w) = dispatchq w ++ map Eval_closure answers
    /\ evaluated (trace (serve msgs w)) = evaluated (trace w).
Proof.
  induction msgs as [|msg msgs IH]; intros w Hall.
  - exists []. cbn. rewrite app_nil_r. repeat split. constructor.
  - inversion Hall as [|? ? [d Hd] Hrest]; subst.
    destruct (msgcb_queues_an_answer msg d w Hd)
      as (script & Hs & Hq & He).
    destruct (IH (msgcb msg w) Hrest) as (answers & Hans & Hq' & He').
    exists (script :: answers). cbn [serve fold_left] in *.
    fold (serve msgs (msgcb msg w)). rewrite Hq', He', Hq, He.
    split; [constructor; eauto|]. cbn. now rewrite <- app_assoc.
Qed.

(** X4. Calls are answered in the order they arrive.  After the page has
    posted any number of messages that parse, the next wake message
    evaluates, after the scripts that were queued before, one script per
    message, in the order of the messages, each settling the promise slot of
    its message's id. *)
Theorem answers_are_evaluated_in_call_order (msgs : list string)
    (wake : Msg) (w : webview) :
  Forall (fun msg => exists d, Unmarshal_rpcMessage msg = Ok d) msgs ->
  Message wake = WMApp ->
  exists answers : list string,
    Forall2 (fun msg script => exists d,
               Unmarshal_rpcMessage msg = Ok d /\ settles (Itoa (ID d)) script)
            msgs answers
    /\ evaluated (trace (after (Run_body wake (serve msgs w)))) =
         evaluated (trace w) ++ scripts (dispatchq w) ++ answers.
Proof.
  intros Hall Hwake.
  destruct (serve_queues_answers msgs w Hall) as (answers & Hans & Hq & He).
  exists answers. split; [exact Hans|].
  rewrite (wake_evaluated wake (serve msgs w) Hwake).
  rewrite Hq, He. unfold scripts. rewrite omap_app. f_equal. f_equal.
  clear. induction answers as [|a answers IH]; cbn; [reflexivity|].
  now rewrite IH.
Qed.

(** ** The loop *)

Lemma Run_app (pre rest : list Msg) :
  forall w : webview,
  Run (pre ++ rest) w =
    match Run pre w with
    | Continue w' => Run rest w'
    | Return w' => Return w'
    end.
Proof.
  induction pre as [|msg pre IH]; intros w; cbn; [reflexivity|].
  destruct (Run_body msg w); [apply IH|reflexivity].
Qed.

(** As long as no quit message comes, the loop goes on, and it hands to the
    window procedure every message that is not a dialog message. *)
Lemma Run_goes_on (pre : list Msg) :
  forall w : webview,
  Forall (fun msg => Message msg = WMApp \/ Message msg <> WMQuit) pre ->
  exists w', Run pre w = Continue w'
    /\ pumped (trace w') =
         pumped (trace w) ++ List.filter (fun msg => negb (IsDialogMessage msg)) pre.
Proof.
  induction pre as [|msg pre IH]; intros w Hall.
  - exists w. cbn. now rewrite app_nil_r.
  - inversion Hall as [|? ? Hmsg Hrest]; subst. cbn [Run].
    assert (Hbody : exists w1, Run_body msg w = Continue w1
              /\ pumped (trace w1) =
                   pumped (trace w) ++ (if IsDialogMessage msg then [] else [msg])).
    { unfold Run_body, translate_dispatch.
      destruct (Z.eqb_spec (Message msg) WMApp) as [Hw|Hw].
      - eexists. split; [reflexivity|].
        destruct (run_queue_evaluated ([] ++ dispatchq w) (with_dispatchq [] w))
          as (_ & Hp).
        destruct (IsDialogMessage msg); cbn [trace emit].
        + rewrite Hp. cbn. now rewrite app_nil_r.
        + unfold pumped at 1. rewrite omap_app. fold (pumped (trace
            (run_queue ([] ++ dispatchq w) (with_dispatchq [] w)))).
          rewrite Hp. reflexivity.
      - destruct Hmsg as [Hmsg|Hmsg]; [contradiction|].
        destruct (Z.eqb_spec (Message msg) WMQuit); [contradiction|].
        eexists. split; [reflexivity|].
        destruct (IsDialogMessage msg); cbn; [now rewrite app_nil_r|].
        unfold pumped. now rewrite omap_app. }
    destruct Hbody as (w1 & -> & Hp1).
    destruct (IH w1 Hrest) as (w' & Hrun & Hp).
    exists w'. split; [exact Hrun|]. rewrite Hp, Hp1. cbn.
    destruct (IsDialogMessage msg); cbn; now rewrite <- app_assoc.
Qed.

(** X5. [Run] returns at the first quit message and not before: the messages
    that precede it are all handled, the messages that follow it are never
    looked at. *)
Theorem Run_returns_at_the_first_quit (pre post : list Msg) (quit : Msg)
    (w : webview) :
  Forall (fun msg => Message msg = WMApp \/ Message msg <> WMQuit) pre ->
  Message quit = WMQuit ->
  Message quit <> WMApp ->
  exists w', Run pre w = Continue w'
    /\ Run (pre ++ quit :: post) w = Return w'.
Proof.
  intros Hpre Hquit Hnot.
  destruct (Run_goes_on pre w Hpre) as (w' & Hrun & _).
  exists w'. split; [exact Hrun|].
  rewrite Run_app, Hrun. cbn. unfold Run_body.
  destruct (Z.eqb_spec (Message quit) WMApp); [contradiction|].
  now rewrite Hquit, Z.eqb_refl.
Qed.

(** X6. Every message the loop receives before the quit message, the wake
    message included, goes on to [TranslateMessage] and [DispatchMessageW]
    unless [IsDialogMessage] takes it: the messages handed on are the
    received ones that are not dialog messages, in order. *)
Theorem Run_hands_on_every_message (pre : list Msg) (w : webview) :
  Forall (fun msg => Message msg = WMApp \/ Message msg <> WMQuit) pre ->
  pumped (trace (after (Run pre w))) =
    pumped (trace w) ++ List.filter (fun msg => negb (IsDialogMessage msg)) pre.
Proof.
  intros Hpre. destruct (Run_goes_on pre w Hpre) as (w' & -> & Hp).
  exact Hp.
Qed.

End Webview2_more_facts.

(** * What the page gets back *)

Section Webview2_answers.
Context `{Ext : Externals}.

(** Dispatching the evaluation of [script]: one more closure in the queue and
    one wake message posted; nothing is called or evaluated until the wake
    message arrives, and then the scripts queued before are evaluated, and
    [script] after them. *)
Lemma Dispatch_Eval_observed (script : string) (w : webview) :
  let w1 := Dispatch (Eval_closure script) w in
  dispatchq w1 = dispatchq w ++ [Eval_closure script]
  /\ posted (trace w1) = posted (trace w) ++ [(mainthread w, WMApp)]
  /\ called (trace w1) = called (trace w)
  /\ evaluated (trace w1) = evaluated (trace w)
  /\ world w1 = world w
  /\ bindings w1 = bindings w
  /\ forall wake, Message wake = WMApp ->
       evaluated (trace (after (Run_body wake w1))) =
         evaluated (trace w) ++ scripts (dispatchq w) ++ [script].
Proof.
  intros w1.
  destruct (Dispatch_fields (Eval_closure script) w) as (_ & Hb & Hq & Hw & Ht).
  fold w1 in Hb, Hq, Hw, Ht.
  assert (He : evaluated (trace w1) = evaluated (trace w)).
  { rewrite Ht. unfold evaluated. rewrite omap_app. cbn. now rewrite app_nil_r. }
  split; [exact Hq|]. split.
  { rewrite Ht. unfold posted. now rewrite omap_app. }
  split.
  { rewrite Ht. unfold called. rewrite omap_app. cbn. now rewrite app_nil_r. }
  split; [exact He|]. split; [exact Hw|]. split; [exact Hb|].
  intros wake Hwake. rewrite (wake_evaluated wake w1 Hwake), He, Hq.
  unfold scripts. now rewrite omap_app.
Qed.

(** The webview after the call of a bound function. *)
Lemma call_observed (method : string) (args : list Value) (h : World)
    (w : webview) :
  let w' := with_world h (emit (reflect_Call method args) w) in
  mainthread w' = mainthread w
  /\ dispatchq w' = dispatchq w
  /\ bindings w' = bindings w
  /\ posted (trace w') = posted (trace w)
  /\ called (trace w') = called (trace w) ++ [(method, args)]
  /\ evaluated (trace w') = evaluated (trace w).
Proof.
  cbn. unfold posted, called, evaluated. rewrite !omap_app. cbn.
  rewrite !app_nil_r. repeat split; reflexivity.
Qed.

(** Running a queue calls no bound function. *)
Lemma run_queue_called (q : list closure) :
  forall w : webview, called (trace (run_queue q w)) = called (trace w).
Proof.
  induction q as [|v q IH]; intros w; cbn; [reflexivity|].
  unfold run_queue in IH. rewrite IH. unfold called.
  destruct v as [js|f|k]; cbn; rewrite ?omap_app; cbn;
    rewrite ?app_nil_r; reflexivity.
Qed.

(** Neither does the wake message. *)
Lemma wake_called (wake : Msg) (w : webview) :
  Message wake = WMApp ->
  called (trace (after (Run_body wake w))) = called (trace w).
Proof.
  intros Hwake. rewrite (Run_body_wake wake w Hwake). cbn [after].
  unfold translate_dispatch.
  destruct (IsDialogMessage wake); cbn; rewrite ?run_queue_called;
    [reflexivity|].
  unfold called at 1. rewrite omap_app. cbn. rewrite app_nil_r.
  apply run_queue_called.
Qed.

(** C1. A bound function that passes the arity test, with params that
    decode to [args], is called with them, once; what it returns, [rs], is
    read by the number of results of its type.  None: no value, no error, and
    the promise is resolved with [null].  One of a type that implements
    [error]: the error when it is non-nil (the promise is rejected with its
    text), nothing when it is nil (resolved with [null]).  One of another
    type: the value (resolved with its encoding, rejected with the encoder's
    error if it has none).  Two, the second of a type that implements
    [error]: the first as the value when the second is nil, the second as the
    error otherwise (rejected with its text); a second result of a type that
    does not implement [error] is itself an error.

    Resolved and rejected are read on what the page gets: [msgcb] appends to
    the queue one closure that evaluates the script
    [window._rpc[id].resolve(b); window._rpc[id] = undefined], or the one
    with [reject] and the text as a JavaScript string, it posts one wake
    message to the owning thread, and the wake message evaluates that script
    after the scripts queued before. *)
Theorem callbinding_interprets_results_by_arity
    (w : webview) (msg : string) (d : rpcMessage) (f : callable)
    (args : list Value) (rs : list any) (h : World) :
  Unmarshal_rpcMessage msg = Ok d ->
  bindings w !! Method d = Some f ->
  arguments_mismatch f (Z.of_nat (length (Params d))) = false ->
  decode_params f 0 (Params d) [] = Ok args ->
  Call f args (world w) = (rs, h) ->
  let w' := with_world h (emit (reflect_Call (Method d) args) w) in
  let id := Itoa (ID d) in
  let settled script :=
    msgcb msg w = Dispatch (Eval_closure script) w'
    /\ dispatchq (msgcb msg w) = dispatchq w ++ [Eval_closure script]
    /\ posted (trace (msgcb msg w)) =
         posted (trace w) ++ [(mainthread w, WMApp)]
    /\ called (trace (msgcb msg w)) = called (trace w) ++ [(Method d, args)]
    /\ evaluated (trace (msgcb msg w)) = evaluated (trace w)
    /\ world (msgcb msg w) = h
    /\ forall wake, Message wake = WMApp ->
         evaluated (trace (after (Run_body wake (msgcb msg w)))) =
           evaluated (trace w) ++ scripts (dispatchq w) ++ [script] in
  let resolves b :=
    settled ("window._rpc[" +:+ id +:+ "].resolve(" +:+ b +:+
             "); window._rpc[" +:+ id +:+ "] = undefined") in
  let rejects text :=
    settled ("window._rpc[" +:+ id +:+ "].reject(" +:+ jsString text +:+
             "); window._rpc[" +:+ id +:+ "] = undefined") in
  (Out f = [] -> callbinding d w = ((None, None), w') /\ resolves "null")
  /\ (forall t e, Out f = [t] -> Implements_error t = true -> rs = [Some e] ->
        callbinding d w = ((None, Some (error_of e)), w')
        /\ rejects (Value_Error e))
  /\ (forall t, Out f = [t] -> Implements_error t = true -> rs = [None] ->
        callbinding d w = ((None, None), w') /\ resolves "null")
  /\ (forall t r, Out f = [t] -> Implements_error t = false -> rs = [r] ->
        callbinding d w = ((r, None), w')
        /\ (forall b, json_Marshal r = Ok b -> resolves b)
        /\ (forall text, json_Marshal r = Fail text -> rejects text))
  /\ (forall t0 t1 r, Out f = [t0; t1] -> Implements_error t1 = true ->
        rs = [r; None] ->
        callbinding d w = ((r, None), w')
        /\ (forall b, json_Marshal r = Ok b -> resolves b)
        /\ (forall text, json_Marshal r = Fail text -> rejects text))
  /\ (forall t0 t1 r e, Out f = [t0; t1] -> Implements_error t1 = true ->
        rs = [r; Some e] ->
        callbinding d w = ((r, Some (error_of e)), w')
        /\ rejects (Value_Error e))
  /\ (forall t0 t1 r0 r1, Out f = [t0; t1] -> Implements_error t1 = false ->
        rs = [r0; r1] ->
        callbinding d w =
          ((None, Some (errors_New "second return value must be an error")), w')
        /\ rejects "second return value must be an error").
Proof.
  intros Hd Hf Ha Hp Hc w' id settled resolves rejects.
  pose proof (callbinding_calls d w f args rs h Hf Ha Hp Hc) as Hcb.
  fold w' in Hcb.
  assert (Hobs : forall script,
            msgcb msg w = Dispatch (Eval_closure script) w' -> settled script).
  { intros script Hm. unfold settled. split; [exact Hm|]. rewrite Hm.
    destruct (Dispatch_Eval_observed script w')
      as (-> & -> & -> & -> & -> & _ & Hwake).
    destruct (call_observed (Method d) args h w)
      as (Hth & Hq & _ & Hpo & Hca & Hev).
    fold w' in Hth, Hq, Hpo, Hca, Hev. rewrite Hth, Hq, Hpo, Hca, Hev.
    repeat split; try reflexivity.
    intros wake Hw. now rewrite (Hwake wake Hw), Hev, Hq. }
  assert (Hans : forall res err,
            interpret (combine (Out f) rs) = (res, err) ->
            callbinding d w = ((res, err), w')
            /\ msgcb msg w =
                 match err with
                 | Some err =>
                     Dispatch (Eval_closure
                       (reject_script (Itoa (ID d)) (Error err))) w'
                 | None =>
                     match json_Marshal res with
                     | Fail text =>
                         Dispatch (Eval_closure
                           (reject_script (Itoa (ID d)) text)) w'
                     | Ok b =>
                         Dispatch (Eval_closure
                           (resolve_script (Itoa (ID d)) b)) w'
                     end
                 end).
  { intros res err Hi. rewrite Hi in Hcb. split; [exact Hcb|].
    exact (msgcb_unfold msg d w w' res err Hd Hcb). }
  split; [|split; [|split; [|split; [|split; [|split]]]]].
  - intros Hout. destruct (Hans None None) as (Hr & Hm).
    { now rewrite Hout. }
    split; [exact Hr|]. apply Hobs. exact Hm.
  - intros t e Hout Ht ->. destruct (Hans None (Some (error_of e))) as (Hr & Hm).
    { rewrite Hout. cbn. now rewrite Ht. }
    split; [exact Hr|]. apply Hobs. exact Hm.
  - intros t Hout Ht ->. destruct (Hans None None) as (Hr & Hm).
    { rewrite Hout. cbn. now rewrite Ht. }
    split; [exact Hr|]. apply Hobs. exact Hm.
  - intros t r Hout Ht ->. destruct (Hans r None) as (Hr & Hm).
    { rewrite Hout. cbn. now rewrite Ht. }
    split; [exact Hr|]. split.
    + intros b Hb. apply Hobs. rewrite Hm. now rewrite Hb.
    + intros text Hb. apply Hobs. rewrite Hm. now rewrite Hb.
  - intros t0 t1 r Hout Ht ->. destruct (Hans r None) as (Hr & Hm).
    { rewrite Hout. cbn. now rewrite Ht. }
    split; [exact Hr|]. split.
    + intros b Hb. apply Hobs. rewrite Hm. now rewrite Hb.
    + intros text Hb. apply Hobs. rewrite Hm. now rewrite Hb.
  - intros t0 t1 r e Hout Ht ->.
    destruct (Hans r (Some (error_of e))) as (Hr & Hm).
    { rewrite Hout. cbn. now rewrite Ht. }
    split; [exact Hr|]. apply Hobs. exact Hm.
  - intros t0 t1 r0 r1 Hout Ht ->.
    destruct (Hans None
                (Some (errors_New "second return value must be an error")))
      as (Hr & Hm).
    { rewrite Hout. cbn. now rewrite Ht. }
    split; [exact Hr|]. apply Hobs. exact Hm.
Qed.

(** C4. When the arity test passes and some param fails to decode into the
    type of its position, however many params before it decoded, [callbinding]
    returns that decode error with the webview untouched, and [msgcb]
    schedules the rejection of the promise slot with the error's text: it
    appends to the queue one closure that evaluates the script
    [window._rpc[id].reject(text); window._rpc[id] = undefined], the text as
    a JavaScript string, and posts one wake message to the owning thread; the
    wake message evaluates that script after the scripts queued before.  The
    function is not called, neither by [msgcb] nor when the queue is run, and
    the world is as before. *)
Theorem decode_failure_rejects_without_call (w : webview) (msg : string)
    (d : rpcMessage) (f : callable) (good : list string) (bad : string)
    (rest : list string) (args : list Value) (text : string) :
  Unmarshal_rpcMessage msg = Ok d ->
  bindings w !! Method d = Some f ->
  arguments_mismatch f (Z.of_nat (length (Params d))) = false ->
  Params d = good ++ bad :: rest ->
  decode_params f 0 good [] = Ok args ->
  json_Unmarshal bad (param_type f (Z.of_nat (length good))) = Fail text ->
  let script :=
    "window._rpc[" +:+ Itoa (ID d) +:+ "].reject(" +:+ jsString text +:+
    "); window._rpc[" +:+ Itoa (ID d) +:+ "] = undefined" in
  callbinding d w = ((None, Some (json_error text)), w)
  /\ msgcb msg w = Dispatch (Eval_closure script) w
  /\ called (trace (msgcb msg w)) = called (trace w)
  /\ evaluated (trace (msgcb msg w)) = evaluated (trace w)
  /\ world (msgcb msg w) = world w
  /\ bindings (msgcb msg w) = bindings w
  /\ dispatchq (msgcb msg w) = dispatchq w ++ [Eval_closure script]
  /\ posted (trace (msgcb msg w)) =
       posted (trace w) ++ [(mainthread w, WMApp)]
  /\ forall wake, Message wake = WMApp ->
       evaluated (trace (after (Run_body wake (msgcb msg w)))) =
         evaluated (trace w) ++ scripts (dispatchq w) ++ [script]
       /\ called (trace (after (Run_body wake (msgcb msg w)))) =
            called (trace w).
Proof.
  intros Hd Hf Ha Hsplit Hgood Hbad script.
  assert (Hc : callbinding d w = ((None, Some (json_error text)), w)).
  { unfold callbinding, call_bound. rewrite Hf, Ha, Hsplit.
    rewrite decode_params_app, Hgood, Z.add_0_l. cbn. now rewrite Hbad. }
  assert (Hm : msgcb msg w = Dispatch (Eval_closure script) w).
  { now rewrite (msgcb_unfold msg d w w _ _ Hd Hc). }
  split; [exact Hc|]. split; [exact Hm|].
  destruct (Dispatch_Eval_observed script w)
    as (Hq & Hpo & Hca & Hev & Hw & Hb & Hwake).
  rewrite <- Hm in Hq, Hpo, Hca, Hev, Hw, Hb, Hwake.
  split; [exact Hca|]. split; [exact Hev|]. split; [exact Hw|].
  split; [exact Hb|]. split; [exact Hq|]. split; [exact Hpo|].
  intros wake Hwk. split; [exact (Hwake wake Hwk)|].
  now rewrite (wake_called wake _ Hwk).
Qed.

(** C5. After [Bind name f] and then [Bind name g], [g] being a function
    with at most two results, the table maps [name] to [g] (and is the table
    before with [name] set to [g], whatever [f] was).  As long as [name] is
    not bound again, whatever else happens to the webview, a call naming it
    is served by [g]: it fails the arity test of [g], or fails to decode
    into the parameter types of [g], or [g] itself is called, once, with the
    decoded params, on the world as it is then; what [callbinding] returns is
    read from the results of that call, the world is the one [g] leaves, and
    [msgcb] records the same call before it answers. *)
Theorem rebinding_replaces_the_function (name : string) (f : bindable)
    (g : callable) (w : webview) :
  NumOut g <= 2 ->
  let w1 := snd (Bind name f w) in
  let w2 := snd (Bind name (Func g) w1) in
  fst (Bind name (Func g) w1) = None
  /\ bindings w2 = <[name := g]> (bindings w)
  /\ bindings w2 !! name = Some g
  /\ forall (es : list happening) (d : rpcMessage),
       Forall (fun e => forall x, e <> client_Bind name x) es ->
       Method d = name ->
       let w3 := life es w2 in
       callbinding d w3 = call_bound g d w3
       /\ (arguments_mismatch g (Z.of_nat (length (Params d))) = true ->
           callbinding d w3 =
             ((None, Some (errors_New "function arguments mismatch")), w3))
       /\ (forall text,
           arguments_mismatch g (Z.of_nat (length (Params d))) = false ->
           decode_params g 0 (Params d) [] = Fail text ->
           callbinding d w3 = ((None, Some (json_error text)), w3))
       /\ (forall args,
           arguments_mismatch g (Z.of_nat (length (Params d))) = false ->
           decode_params g 0 (Params d) [] = Ok args ->
           let rs := fst (Call g args (world w3)) in
           let h := snd (Call g args (world w3)) in
           callbinding d w3 =
             (interpret (combine (Out g) rs),
              with_world h (emit (reflect_Call name args) w3))
           /\ called (trace (snd (callbinding d w3))) =
                called (trace w3) ++ [(name, args)]
           /\ world (snd (callbinding d w3)) = h
           /\ forall msg, Unmarshal_rpcMessage msg = Ok d ->
                called (trace (msgcb msg w3)) =
                  called (trace w3) ++ [(name, args)]
                /\ world (msgcb msg w3) = h).
Proof.
  intros Hout w1 w2.
  assert (Hnil : fst (Bind name (Func g) w1) = None).
  { now rewrite (Bind_accepts name g w1 Hout). }
  assert (Hb : bindings w2 = <[name := g]> (bindings w1)).
  { unfold w2. now rewrite (Bind_accepts name g w1 Hout). }
  assert (Hb2 : bindings w2 = <[name := g]> (bindings w)).
  { rewrite Hb. subst w1.
    destruct (Bind_bindings name f w) as [->|(v & _ & ->)]; [reflexivity|].
    apply insert_insert_eq. }
  split; [exact Hnil|]. split; [exact Hb2|].
  assert (Hg : bindings w2 !! name = Some g).
  { rewrite Hb2. apply lookup_insert_eq. }
  split; [exact Hg|].
  intros es d Hes Hname w3.
  assert (Hlife : bindings w3 !! Method d = Some g).
  { rewrite Hname. subst w3. clear Hb Hb2 Hnil. revert Hg. generalize w2.
    induction Hes as [|e es He _ IH]; intros w0 Hg; [exact Hg|].
    cbn. apply IH. now rewrite happen_keeps_binding. }
  assert (Hcb : callbinding d w3 = call_bound g d w3).
  { unfold callbinding. now rewrite Hlife. }
  split; [exact Hcb|]. split; [|split].
  - intros Ha. rewrite Hcb. unfold call_bound. now rewrite Ha.
  - intros text Ha Hp. rewrite Hcb. unfold call_bound. now rewrite Ha, Hp.
  - intros args Ha Hp rs h.
    assert (Hc : callbinding d w3 =
              (interpret (combine (Out g) rs),
               with_world h (emit (reflect_Call name args) w3))).
    { rewrite <- Hname.
      apply (callbinding_calls d w3 g args rs h Hlife Ha Hp).
      subst rs h. now destruct (Call g args (world w3)). }
    destruct (call_observed name args h w3) as (_ & _ & _ & _ & Hca & _).
    split; [exact Hc|]. rewrite Hc. cbn [snd].
    split; [exact Hca|]. split; [reflexivity|].
    intros msg Hd.
    destruct (interpret (combine (Out g) rs)) as [res err] eqn:Hi.
    rewrite (msgcb_unfold msg d w3 _ res err Hd Hc).
    destruct err as [err|]; [|destruct (json_Marshal res) as [b|text]];
      match goal with
      | |- context [Dispatch (Eval_closure ?s) ?w0] =>
          destruct (Dispatch_Eval_observed s w0) as (_ & _ & -> & _ & -> & _)
      end; (split; [exact Hca | reflexivity]).
Qed.

End Webview2_answers.

(** * Further properties of package webviewloader *)

Module loader_more_facts.
Import webviewloader loader_more loader_facts.

(** A string with a NUL in it is refused. *)
Lemma UTF16PtrFromString_NUL (a b : string) :
  UTF16PtrFromString (a +:+ String Ascii.zero b) = Some "invalid argument".
Proof.
  unfold UTF16PtrFromString.
  assert (Hfound : forall a, exists n,
    index 0 (String Ascii.zero EmptyString) (a +:+ String Ascii.zero b) = Some n).
  { clear a. induction a as [|c a [n IH]].
    - exists 0%nat. cbn. now destruct b.
    - change (String c a +:+ String Ascii.zero b)
        with (String c (a +:+ String Ascii.zero b)).
      assert (Hstep : forall s1 c s2,
        index 0 s1 (String c s2) =
          if String.prefix s1 (String c s2) then Some 0%nat
          else match index 0 s1 s2 with
               | Some n => Some (S n)
               | None => None
               end) by reflexivity.
      rewrite Hstep, IH.
      destruct (String.prefix _ _); eexists; reflexivity. }
  destruct (Hfound a) as [n ->]. reflexivity.
Qed.

(** X7. A version string with a NUL in it makes [CompareBrowserVersions]
    return an error before the loader is touched: no DLL is loaded or called,
    the package variables are as before, and this on any machine. *)
Theorem CompareBrowserVersions_refuses_NUL (m : machine) (v1 v2 : string)
    (g : globals) :
  (exists a b, v1 = a +:+ String Ascii.zero b)
  \/ (exists a b, v2 = a +:+ String Ascii.zero b) ->
  CompareBrowserVersions m v1 v2 g = (Returns 0 (Some "invalid argument"), g).
Proof.
  intros [(a & b & ->)|(a & b & ->)]; unfold CompareBrowserVersions.
  - now rewrite UTF16PtrFromString_NUL.
  - rewrite UTF16PtrFromString_NUL. unfold UTF16PtrFromString.
    now destruct (index 0 _ v1).
Qed.

(** Once the embedded copy is loaded, an operation that does not find the
    system DLL is served by its own procedure of the copy. *)
Lemma exec_served_from_memory (m : machine) (e1 : string) (o : op)
    (g : globals) :
  nativeModule_Load m = Some e1 ->
  reaches_loader o = true ->
  memOnce g = true ->
  memCreate g = Some create ->
  memCompareBrowserVersions g = Some compare ->
  memGetAvailableCoreWebView2BrowserVersionString g = Some available ->
  exec m o g =
    (served_from_memory m o, did (Call mem (proc_of o)) (did Load g)).
Proof.
  intros Hdisk Hreach Honce Hc Hv Ha. destruct o as [v1 v2| |]; run_op.
  - destruct (UTF16PtrFromString v1); [discriminate|].
    destruct (UTF16PtrFromString v2); [discriminate|].
    rewrite Hdisk. cbn. rewrite Honce. cbn. rewrite Hv. reflexivity.
  - rewrite Hdisk. cbn. rewrite Honce. cbn. rewrite Ha. cbn.
    now destruct (unless_nil m (call_err (Proc_Call m mem available))).
  - rewrite Hdisk. cbn. rewrite Honce. cbn. rewrite Hc. reflexivity.
Qed.

(** The first operation that does not find the system DLL loads the embedded
    copy and is served by it. *)
Lemma exec_loads_memory (m : machine) (e1 : string) (o : op) (g : globals) :
  nativeModule_Load m = Some e1 ->
  winloader_LoadFromMemory m = None ->
  reaches_loader o = true ->
  memOnce g = false ->
  let g' := snd (exec m o g) in
  fst (exec m o g) = served_from_memory m o
  /\ history g' = history g ++ [Load; LoadFromMemory; Call mem (proc_of o)]
  /\ memOnce g' = true /\ memCreate g' = Some create
  /\ memCompareBrowserVersions g' = Some compare
  /\ memGetAvailableCoreWebView2BrowserVersionString g' = Some available.
Proof.
  intros Hdisk Hmem Hreach Honce. destruct o as [v1 v2| |]; run_op.
  - destruct (UTF16PtrFromString v1); [discriminate|].
    destruct (UTF16PtrFromString v2); [discriminate|].
    rewrite Hdisk. cbn. rewrite Honce, Hmem. cbn.
    rewrite <- !app_assoc. repeat split; reflexivity.
  - rewrite Hdisk. cbn. rewrite Honce, Hmem. cbn.
    destruct (unless_nil m (call_err (Proc_Call m mem available))); cbn;
      rewrite <- !app_assoc; repeat split; reflexivity.
  - rewrite Hdisk. cbn. rewrite Honce, Hmem. cbn.
    rewrite <- !app_assoc. repeat split; reflexivity.
Qed.

Lemma mem_calls_app (h1 h2 : list step) :
  mem_calls (h1 ++ h2) = mem_calls h1 ++ mem_calls h2.
Proof. unfold mem_calls. apply omap_app. Qed.

(** X8. On a machine without the system DLL where the embedded copy loads,
    the fallback is cached: over any run of operations each one calls its own
    procedure of the embedded copy, none panics, and the copy is loaded once,
    by the first operation.  Each operation returns what
    [served_from_memory] says: the creation no error, the comparison the
    [lastErr] of its call unless that is nil or the [syscall.Errno] zero, the
    version query the [lastErr] of its call unless that is nil. *)
Theorem memory_fallback_serves_every_call (m : machine) (e1 : string)
    (o : op) (os : list op) :
  nativeModule_Load m = Some e1 ->
  winloader_LoadFromMemory m = None ->
  Forall (fun o => reaches_loader o = true) (o :: os) ->
  let r := exec_all m (o :: os) start in
  fst r = map (served_from_memory m) (o :: os)
  /\ mem_calls (history (snd r)) = map proc_of (o :: os)
  /\ mem_loads (history (snd r)) = 1%nat.
Proof.
  intros Hdisk Hmem Hall. inversion Hall as [|? ? Ho Hos]; subst.
  cbn [exec_all].
  destruct (exec_loads_memory m e1 o start Hdisk Hmem Ho eq_refl)
    as (Hv & Hh & Honce & Hc & Hcmp & Ha).
  destruct (exec m o start) as [v g]. cbn in Hv, Hh, Honce, Hc, Hcmp, Ha.
  subst v.
  assert (Hlater : forall g,
    memOnce g = true -> memCreate g = Some create ->
    memCompareBrowserVersions g = Some compare ->
    memGetAvailableCoreWebView2BrowserVersionString g = Some available ->
    fst (exec_all m os g) = map (served_from_memory m) os
    /\ mem_calls (history (snd (exec_all m os g))) =
         mem_calls (history g) ++ map proc_of os
    /\ mem_loads (history (snd (exec_all m os g))) = mem_loads (history g)).
  { clear g Hh Honce Hc Hcmp Ha Hall.
    induction Hos as [|o' os' Ho' _ IH]; intros g Honce Hc Hcmp Ha.
    - cbn. now rewrite app_nil_r.
    - cbn [exec_all].
      rewrite (exec_served_from_memory m e1 o' g Hdisk Ho' Honce Hc Hcmp Ha).
      destruct (IH (did (Call mem (proc_of o')) (did Load g)) Honce Hc Hcmp Ha)
        as (Hv' & Hcalls & Hloads).
      destruct (exec_all m os' _) as [vs g'']. cbn [fst snd] in *.
      cbn [did history] in Hcalls, Hloads.
      rewrite !mem_calls_app in Hcalls. rewrite !mem_loads_app in Hloads.
      cbn in Hcalls, Hloads.
      rewrite Hv', Hcalls, Hloads, app_nil_r, <- app_assoc.
      repeat split; cbn; lia. }
  destruct (Hlater g Honce Hc Hcmp Ha) as (Hvs & Hcalls & Hloads).
  destruct (exec_all m os g) as [vs g']. cbn [fst snd] in *.
  rewrite Hvs, Hcalls, Hloads, Hh. repeat split; reflexivity.
Qed.


End loader_more_facts.

(** * Further properties of the installed-version query and of the installer *)

Section Installer_more_facts.
Import webviewloader loader_more.

(** X10. The installed version is read from the first hive that has the
    runtime's key, the local machine before the current user.  When the local
    machine has the key the current user's hive is not consulted, even if the
    key there lacks the [pv] value (the answer is then the empty string); a
    non-empty answer is always the [pv] value of the key consulted; and a
    [pv] value written under the local machine's key is what is read back. *)
Theorem version_is_read_from_the_first_hive_with_the_key (GOARCH : string)
    (lm cu : gmap string Key) :
  let r := {| LOCAL_MACHINE := lm; CURRENT_USER := cu |} in
  (is_Some (lm !! regkey GOARCH) ->
     forall cu', GetInstalledWebViewVersion GOARCH r =
       GetInstalledWebViewVersion GOARCH
         {| LOCAL_MACHINE := lm; CURRENT_USER := cu' |})
  /\ (forall k, lm !! regkey GOARCH = Some k -> k !! "pv" = None ->
        GetInstalledWebViewVersion GOARCH r = EmptyString)
  /\ (GetInstalledWebViewVersion GOARCH r <> EmptyString ->
        exists k,
          (lm !! regkey GOARCH = Some k
           \/ (lm !! regkey GOARCH = None /\ cu !! regkey GOARCH = Some k))
          /\ k !! "pv" = Some (GetInstalledWebViewVersion GOARCH r))
  /\ (forall (k : Key) (v : string),
        GetInstalledWebViewVersion GOARCH
          {| LOCAL_MACHINE := <[regkey GOARCH := <["pv" := v]> k]> lm;
             CURRENT_USER := cu |} = v).
Proof.
  unfold GetInstalledWebViewVersion, getKeyValue. cbn. repeat split.
  - intros [k Hk] cu'. now rewrite Hk.
  - intros k Hk Hpv. now rewrite Hk, Hpv.
  - destruct (lm !! regkey GOARCH) as [k|] eqn:Hlm.
    + destruct (k !! "pv") as [v|] eqn:Hpv; cbn; [|congruence].
      intros _. exists k. auto.
    + destruct (cu !! regkey GOARCH) as [k|] eqn:Hcu; [|congruence].
      destruct (k !! "pv") as [v|] eqn:Hpv; cbn; [|congruence].
      intros _. exists k. auto.
  - intros k v. unfold Key in *. rewrite lookup_insert_eq.
    now rewrite lookup_insert_eq.
Qed.

(** X11. What the bootstrapper does with the installer file: it launches it
    exactly when the file could be written, and it asks for its deletion
    exactly when the file was written and the installer could be started,
    whatever the installer's exit status.  After a failed start the file
    stays in the temporary directory. *)
Theorem bootstrapper_deletes_only_what_it_started (h : host) :
  let acts := snd (InstallUsingBootstrapper h) in
  (launches acts = true <-> ioutil_WriteFile h = None)
  /\ (removes acts = true <->
        ioutil_WriteFile h = None /\ cmd_Start h = None)
  /\ (ioutil_WriteFile h = None -> forall text, cmd_Start h = Some text ->
        InstallUsingBootstrapper h =
          ((false, Some text),
           [WriteFile (exePath h) 493;
            Command (exePath h) ["/silent"; "/install"]])).
Proof.
  unfold InstallUsingBootstrapper, runInstaller.
  destruct (ioutil_WriteFile h) as [e|]; cbn.
  - repeat split; try discriminate; intros; intuition discriminate.
  - destruct (cmd_Start h) as [e|]; cbn.
    + repeat split; try discriminate; intros; intuition congruence.
    + destruct (cmd_Wait h) as [|[status|]|text]; cbn;
        repeat split; intros; try discriminate; auto.
Qed.

(** X12. The bootstrapper reports success, [true] with a nil error, exactly
    when the file was written, the installer started, it did not exit with a
    status other than zero, and the file was deleted.  An error, when there
    is one, is the error of the write, of the start or of the deletion. *)
Theorem bootstrapper_success_characterised (h : host) :
  (fst (InstallUsingBootstrapper h) = (true, None) <->
     ioutil_WriteFile h = None /\ cmd_Start h = None /\ os_Remove h = None
     /\ forall status, cmd_Wait h = Wait_ExitError (Some status) -> status = 0)
  /\ (forall text, snd (fst (InstallUsingBootstrapper h)) = Some text ->
        ioutil_WriteFile h = Some text
        \/ (ioutil_WriteFile h = None /\ cmd_Start h = Some text)
        \/ (ioutil_WriteFile h = None /\ cmd_Start h = None
            /\ os_Remove h = Some text)).
Proof.
  unfold InstallUsingBootstrapper, runInstaller.
  destruct (ioutil_WriteFile h) as [e|]; cbn.
  { split; [split; [discriminate|intros (H & _); discriminate]|].
    intros text [= ->]. auto. }
  destruct (cmd_Start h) as [e|]; cbn.
  { split; [split; [discriminate|intros (_ & H & _); discriminate]|].
    intros text [= ->]. auto. }
  destruct (cmd_Wait h) as [|[status|]|text0]; cbn;
    (split; [|intros text Ht; auto 7]); split.
  - intros [= Hr]. repeat split; auto; discriminate.
  - intros (_ & _ & -> & _). reflexivity.
  - intros [= Hz Hr]. apply Z.eqb_eq in Hz. subst status.
    repeat split; auto. now intros s [= <-].
  - intros (_ & _ & -> & H). now rewrite (H status eq_refl).
  - intros [= Hr]. repeat split; auto; discriminate.
  - intros (_ & _ & -> & _). reflexivity.
  - intros [= Hr]. repeat split; auto; discriminate.
  - intros (_ & _ & -> & _). reflexivity.
Qed.

End Installer_more_facts.

Section AutoInstall_more_facts.

(** X13. The auto-install step returns nil exactly when a version is
    installed, or the user declines (the prompt itself succeeding), or the
    user confirms and the bootstrapper reports success.  In particular a user
    who declines lets the application go on without the runtime. *)
Theorem auto_install_returns_nil_iff (r : webview2runtime) :
  fst (Webview2AutoInstall r) = None <->
    installed r = true
    \/ (installed r = false /\ Confirm r = (false, None))
    \/ (installed r = false /\ Confirm r = (true, None)
        /\ fst (InstallUsingBootstrapper r) = (true, None)).
Proof.
  unfold Webview2AutoInstall.
  destruct (installed r); [cbn; intuition auto|].
  destruct (Confirm r) as [[|] [text|]]; cbn;
    try (split; [discriminate|intros [?|[(_ & ?)|(_ & ? & _)]]; discriminate]).
  - destruct (InstallUsingBootstrapper r) as [[[|] [text|]] acts]; cbn;
      split; try discriminate; auto;
      intros [?|[(_ & ?)|(_ & _ & ?)]]; discriminate.
  - split; auto.
Qed.

(** X14. What the user gets to see.  The prompt is shown exactly when no
    version is installed.  The installer is touched only after the user has
    confirmed; an error box is shown only after the installer has been tried
    and the bootstrapper has not reported success, and then an error is
    returned.  A failing or declined prompt shows no error box. *)
Theorem auto_install_shows_what_it_does (r : webview2runtime) :
  let l := snd (Webview2AutoInstall r) in
  (shows_prompt l = negb (installed r))
  /\ (runs_setup l = true -> installed r = false /\ Confirm r = (true, None))
  /\ (shows_error l = true <->
        installed r = false /\ Confirm r = (true, None)
        /\ fst (InstallUsingBootstrapper r) <> (true, None))
  /\ (shows_error l = true -> fst (Webview2AutoInstall r) <> None).
Proof.
  unfold Webview2AutoInstall.
  destruct (installed r); cbn.
  { repeat split; try discriminate. intros (H & _); discriminate. }
  assert (Hsetup : forall acts, shows_error (map Setup acts) = false).
  { induction acts; cbn; auto. }
  assert (Hprompt : forall l, shows_prompt (Confirm_box confirm_text "提示消息" :: l) = true)
    by reflexivity.
  destruct (Confirm r) as [[|] [text|]]; cbn;
    try (repeat split; try discriminate; intros (_ & ? & _); discriminate).
  destruct (InstallUsingBootstrapper r) as [[ok err] acts]. cbn.
  destruct err as [text|]; [|destruct ok]; cbn;
    unfold shows_error; rewrite ?existsb_app; fold (shows_error (map Setup acts));
    rewrite ?Hsetup; cbn; repeat split; auto; try discriminate;
    try (intros (_ & _ & H); now contradiction H).
Qed.

End AutoInstall_more_facts.

(** * Properties of the window shell *)

Section Shell_facts.
Context `{K : Constants}.

Lemma int32_small (n : Z) : - 2 ^ 31 <= n < 2 ^ 31 -> int32 n = n.
Proof.
  intros Hn. unfold int32. rewrite Z.mod_small; lia.
Qed.

(** A message for a window that has no webview behind it is handed to
    [DefWindowProcW] and nothing else happens. *)
Lemma wndProc_defers_without_a_webview (os : answers) (h msg wp lp : Z)
    (lpmmi : w32.MinMaxInfo) (ps : process) :
  (forall p, getWindowContext h ps <> webview_ptr p) ->
  wndProc os h msg wp lp lpmmi ps =
    ((DefWindowProcW os h msg wp lp, lpmmi),
     made (User32DefWindowProcW h msg wp lp) ps).
Proof.
  intros Hnone. unfold wndProc.
  destruct (getWindowContext h ps) as [|p|]; try reflexivity.
  now contradiction (Hnone p).
Qed.

(** X15. The global window table behaves as a map: a context stored for a
    window is the one read back, the last one stored wins, the contexts of
    the other windows are not touched, and a window that was never stored
    reads as nil.  The window procedure goes by it: once a window's entry is
    anything but a webview (never stored, or overwritten), its messages are
    handed to [DefWindowProcW] and nothing else happens, no browser is
    called and the structure behind [lp] is as before. *)
Theorem window_context_is_read_back (wnd : Z) (data : context) (ps : process) :
  getWindowContext wnd (setWindowContext wnd data ps) = data
  /\ (forall data', getWindowContext wnd
        (setWindowContext wnd data' (setWindowContext wnd data ps)) = data')
  /\ (forall wnd', wnd' <> wnd ->
        getWindowContext wnd' (setWindowContext wnd data ps) =
        getWindowContext wnd' ps)
  /\ (windowContext ps !! wnd = None -> getWindowContext wnd ps = nil_context)
  /\ (forall (os : answers) (msg wp lp : Z) (lpmmi : w32.MinMaxInfo),
        (forall p, data <> webview_ptr p) ->
        wndProc os wnd msg wp lp lpmmi (setWindowContext wnd data ps) =
          ((DefWindowProcW os wnd msg wp lp, lpmmi),
           made (User32DefWindowProcW wnd msg wp lp)
             (setWindowContext wnd data ps))).
Proof.
  assert (Hread : getWindowContext wnd (setWindowContext wnd data ps) = data).
  { unfold getWindowContext, setWindowContext. cbn.
    now rewrite lookup_insert_eq. }
  split; [exact Hread|].
  unfold getWindowContext, setWindowContext. cbn. repeat split.
  - intros data'. now rewrite lookup_insert_eq.
  - intros wnd' Hne. now rewrite lookup_insert_ne.
  - now intros ->.
  - intros os msg wp lp lpmmi Hnone.
    apply wndProc_defers_without_a_webview. intros p.
    fold (setWindowContext wnd data ps). rewrite Hread. apply Hnone.
Qed.


(** The window procedure on the min/max query, for a window with a webview. *)
Lemma wndProc_min_max (os : answers) (h msg wp lp p : Z)
    (lpmmi : w32.MinMaxInfo) (ps : process) :
  getWindowContext h ps = webview_ptr p ->
  msg = WMGetMinMaxInfo ->
  msg <> WMMove -> msg <> WMMoving -> msg <> WMNCLButtonDown ->
  msg <> WMSize -> msg <> WMActivate -> msg <> WMClose -> msg <> WMDestroy ->
  wndProc os h msg wp lp lpmmi ps = ((0, constrain (webviews ps p) lpmmi), ps).
Proof.
  intros Hctx Hmsg H1 H2 H3 H4 H5 H6 H7. unfold wndProc. rewrite Hctx.
  repeat match goal with
         | |- context [msg =? ?c] =>
             destruct (Z.eqb_spec msg c); try contradiction
         end.
  cbn. reflexivity.
Qed.

(** What the min/max query leaves in the structure, field by field. *)
Lemma constrain_fields (w : shell) (lpmmi : w32.MinMaxInfo) :
  (0 < w32.X (maxsz w) -> 0 < w32.Y (maxsz w) ->
     w32.PtMaxSize (constrain w lpmmi) = maxsz w
     /\ w32.PtMaxTrackSize (constrain w lpmmi) = maxsz w)
  /\ (w32.X (maxsz w) <= 0 \/ w32.Y (maxsz w) <= 0 ->
        w32.PtMaxSize (constrain w lpmmi) = w32.PtMaxSize lpmmi
        /\ w32.PtMaxTrackSize (constrain w lpmmi) = w32.PtMaxTrackSize lpmmi)
  /\ (0 < w32.X (minsz w) -> 0 < w32.Y (minsz w) ->
        w32.PtMinTrackSize (constrain w lpmmi) = minsz w)
  /\ (w32.X (minsz w) <= 0 \/ w32.Y (minsz w) <= 0 ->
        w32.PtMinTrackSize (constrain w lpmmi) = w32.PtMinTrackSize lpmmi).
Proof.
  unfold constrain.
  destruct (Z.ltb_spec 0 (w32.X (maxsz w))), (Z.ltb_spec 0 (w32.Y (maxsz w))),
    (Z.ltb_spec 0 (w32.X (minsz w))), (Z.ltb_spec 0 (w32.Y (minsz w)));
    cbn; repeat split; intros; auto; lia.
Qed.

(** [SetSize] with a min or max hint stores the size, cut to [int32], in the
    webview, and leaves the window table alone. *)
Lemma SetSize_stores (os : answers) (p width height hints : Z) (ps : process) :
  let ps' := SetSize os p width height hints ps in
  let size := {| w32.X := int32 width; w32.Y := int32 height |} in
  windowContext ps' = windowContext ps
  /\ (hints = HintMax -> maxsz (webviews ps' p) = size)
  /\ (hints = HintMin -> hints <> HintMax -> minsz (webviews ps' p) = size).
Proof.
  unfold SetSize. repeat split.
  - destruct (hints =? HintMax); [|destruct (hints =? HintMin)]; reflexivity.
  - intros ->. rewrite Z.eqb_refl. cbn. now rewrite Z.eqb_refl.
  - intros -> Hne. destruct (Z.eqb_spec HintMin HintMax); [contradiction|].
    rewrite Z.eqb_refl. cbn. now rewrite Z.eqb_refl.
Qed.

(** X16. A size limit set with [SetSize] is what the window procedure
    reports.  After [SetSize] with the hint [HintMax] on the webview behind a
    window, the min/max query for that window gets the width and the height,
    cut to [int32], as maximum size and maximum tracking size when both are
    positive, and leaves those two fields alone when one of them is not; with
    [HintMin] the same holds for the minimum tracking size. *)
Theorem SetSize_limits_are_reported_by_wndProc (os os' : answers)
    (h msg wp lp p width height hints : Z) (lpmmi : w32.MinMaxInfo)
    (ps : process) :
  getWindowContext h ps = webview_ptr p ->
  msg = WMGetMinMaxInfo ->
  msg <> WMMove -> msg <> WMMoving -> msg <> WMNCLButtonDown ->
  msg <> WMSize -> msg <> WMActivate -> msg <> WMClose -> msg <> WMDestroy ->
  let ps' := SetSize os p width height hints ps in
  let size := {| w32.X := int32 width; w32.Y := int32 height |} in
  let lpmmi' := snd (fst (wndProc os' h msg wp lp lpmmi ps')) in
  fst (fst (wndProc os' h msg wp lp lpmmi ps')) = 0
  /\ snd (wndProc os' h msg wp lp lpmmi ps') = ps'
  /\ (hints = HintMax ->
        (0 < int32 width -> 0 < int32 height ->
           w32.PtMaxSize lpmmi' = size /\ w32.PtMaxTrackSize lpmmi' = size)
        /\ (int32 width <= 0 \/ int32 height <= 0 ->
              w32.PtMaxSize lpmmi' = w32.PtMaxSize lpmmi
              /\ w32.PtMaxTrackSize lpmmi' = w32.PtMaxTrackSize lpmmi))
  /\ (hints = HintMin -> hints <> HintMax ->
        (0 < int32 width -> 0 < int32 height ->
           w32.PtMinTrackSize lpmmi' = size)
        /\ (int32 width <= 0 \/ int32 height <= 0 ->
              w32.PtMinTrackSize lpmmi' = w32.PtMinTrackSize lpmmi)).
Proof.
  intros Hctx Hmsg H1 H2 H3 H4 H5 H6 H7 ps' size lpmmi'.
  destruct (SetSize_stores os p width height hints ps) as (Htable & Hmax & Hmin).
  fold ps' in Htable, Hmax, Hmin. fold size in Hmax, Hmin.
  assert (Hctx' : getWindowContext h ps' = webview_ptr p).
  { unfold getWindowContext in *. now rewrite Htable. }
  subst lpmmi'.
  rewrite (wndProc_min_max os' h msg wp lp p lpmmi ps' Hctx' Hmsg
             H1 H2 H3 H4 H5 H6 H7).
  cbn [fst snd]. split; [reflexivity|]. split; [reflexivity|].
  destruct (constrain_fields (webviews ps' p) lpmmi) as (Hon & Hoff & Hon' & Hoff').
  split.
  - intros Hhint. rewrite (Hmax Hhint) in Hon, Hoff. cbn in Hon, Hoff.
    split; assumption.
  - intros Hhint Hne. rewrite (Hmin Hhint Hne) in Hon', Hoff'.
    cbn in Hon', Hoff'. split; assumption.
Qed.

(** X17. [SetSize] writes the window style once: the style it read, with the
    thick-frame and maximize-box bits cleared when the hint is [HintFixed]
    and set for any other hint, every other bit as it was. *)
Theorem SetSize_sets_or_clears_the_resize_bits (os : answers)
    (p width height hints : Z) (ps : process) :
  let old := GetWindowLongPtrW os (hwnd (webviews ps p)) (uint GWLStyle) in
  let mask := Z.lor WSThickFrame WSMaximizeBox in
  exists style,
    styles_written (calls (SetSize os p width height hints ps)) =
      styles_written (calls ps) ++ [style]
    /\ forall n, 0 <= n ->
         Z.testbit style n =
           if Z.testbit mask n then negb (hints =? HintFixed)
           else Z.testbit old n.
Proof.
  intros old mask. unfold SetSize. fold old. fold mask.
  set (style := if hints =? HintFixed then Z.ldiff old mask else Z.lor old mask).
  exists style. split.
  - destruct (hints =? HintMax); [|destruct (hints =? HintMin)]; cbn;
      unfold styles_written; rewrite ?omap_app; cbn;
      rewrite ?app_nil_r; reflexivity.
  - intros n Hn. subst style. destruct (hints =? HintFixed); cbn.
    + rewrite Z.ldiff_spec. destruct (Z.testbit mask n); cbn;
        [apply andb_false_r|apply andb_true_r].
    + rewrite Z.lor_spec. destruct (Z.testbit mask n); cbn;
        [apply orb_true_r|apply orb_false_r].
Qed.

(** X18. [MoveToCenter] moves the window without resizing it, to the middle
    of its parent's size: the margins on both sides differ by at most one,
    also when the window is larger than its parent (the position is then
    negative).  This as long as the sizes and their difference fit
    [int32]. *)
Theorem MoveToCenter_centres_and_keeps_the_size (os : answers) (p : Z)
    (ps : process) :
  let h := hwnd (webviews ps p) in
  let rect := win_GetWindowRect os h in
  let width := w32.Right rect - w32.Left rect in
  let height := w32.Bottom rect - w32.Top rect in
  let parentWidth := fst (parent_size os h) in
  let parentHeight := snd (parent_size os h) in
  - 2 ^ 31 <= width < 2 ^ 31 ->
  - 2 ^ 31 <= height < 2 ^ 31 ->
  - 2 ^ 31 <= parentWidth - width < 2 ^ 31 ->
  - 2 ^ 31 <= parentHeight - height < 2 ^ 31 ->
  exists x y,
    moved (calls (MoveToCenter os p ps)) =
      moved (calls ps) ++ [(h, x, y, width, height)]
    /\ - 1 <= (parentWidth - (x + width)) - x <= 1
    /\ - 1 <= (parentHeight - (y + height)) - y <= 1.
Proof.
  intros h rect width height parentWidth parentHeight Hw Hh Hdw Hdh.
  unfold MoveToCenter. fold h. fold rect.
  destruct (parent_size os h) as [pw ph] eqn:Hparent.
  cbn [fst snd] in *. subst parentWidth parentHeight.
  fold width. fold height.
  rewrite (int32_small width Hw), (int32_small height Hh).
  rewrite (int32_small _ Hdw), (int32_small _ Hdh).
  exists (Z.quot (pw - width) 2), (Z.quot (ph - height) 2). split.
  - cbn. unfold moved. rewrite omap_app. reflexivity.
  - pose proof (Z.quot_rem' (pw - width) 2) as Hx.
    pose proof (Z.rem_bound_abs (pw - width) 2 ltac:(lia)) as Hxb.
    pose proof (Z.quot_rem' (ph - height) 2) as Hy.
    pose proof (Z.rem_bound_abs (ph - height) 2 ltac:(lia)) as Hyb.
    lia.
Qed.

(** X22. Whatever the window and the message, the window procedure changes
    neither the window table nor any webview; what it returns is zero or the
    answer of [DefWindowProcW], which was then the last call made; and the
    structure behind [lp] is changed only by the limits of the webview
    behind the window. *)
Theorem wndProc_changes_no_state (os : answers) (h msg wp lp : Z)
    (lpmmi : w32.MinMaxInfo) (ps : process) :
  let r := wndProc os h msg wp lp lpmmi ps in
  windowContext (snd r) = windowContext ps
  /\ webviews (snd r) = webviews ps
  /\ (fst (fst r) = 0
      \/ (fst (fst r) = DefWindowProcW os h msg wp lp
          /\ last (calls (snd r)) = Some (User32DefWindowProcW h msg wp lp)))
  /\ (snd (fst r) = lpmmi
      \/ exists p, getWindowContext h ps = webview_ptr p
           /\ snd (fst r) = constrain (webviews ps p) lpmmi).
Proof.
  unfold wndProc.
  destruct (getWindowContext h ps) as [|p|] eqn:Hctx; cbn;
    try (repeat split; auto; right; split; [reflexivity|apply last_snoc]).
  destruct ((msg =? WMMove) || (msg =? WMMoving)); [cbn; auto|].
  destruct (msg =? WMNCLButtonDown).
  { cbn. repeat split; auto. right. split; [reflexivity|apply last_snoc]. }
  destruct (msg =? WMSize); [cbn; auto|].
  destruct (msg =? WMActivate).
  { destruct (wp =? WAInactive); [cbn; auto|].
    destruct (autofocus (webviews ps p)); cbn; auto. }
  destruct (msg =? WMClose); [cbn; auto|].
  destruct (msg =? WMDestroy); [cbn; auto|].
  destruct (msg =? WMGetMinMaxInfo).
  { cbn. repeat split; auto. right. exists p. auto. }
  cbn. repeat split; auto. right. split; [reflexivity|apply last_snoc].
Qed.

(** ** Creating the window *)

(** Recording what the auto-install step has shown touches the calls only. *)
Lemma auto_install_recorded (seen : list shown) :
  forall ps : process,
  let ps' := fold_left (fun ps s => made (auto_install s) ps) seen ps in
  windowContext ps' = windowContext ps /\ webviews ps' = webviews ps
  /\ calls ps' = calls ps ++ map auto_install seen.
Proof.
  induction seen as [|s seen IH]; intros ps; cbn.
  - now rewrite app_nil_r.
  - destruct (IH (made (auto_install s) ps)) as (-> & -> & ->). cbn.
    now rewrite <- app_assoc.
Qed.

Lemma created_auto_install (seen : list shown) :
  created (map auto_install seen) = [].
Proof. induction seen; cbn; auto. Qed.

(** X19. When the auto-install step returns an error, [CreateWithOptions]
    ends the process with [os.Exit(0)], the exit status of a success, before
    anything is done about the window: no class is registered, no window
    created, the window table and the webviews are as before. *)
Theorem CreateWithOptions_exits_with_status_zero (os : answers)
    (r : webview2runtime) (p : Z) (opts : WindowOptions) (ps : process)
    (text : string) :
  fst (Webview2AutoInstall r) = Some text ->
  let ps' := snd (CreateWithOptions os r p opts ps) in
  fst (CreateWithOptions os r p opts ps) = os_Exit 0
  /\ calls ps' = calls ps ++ map auto_install (snd (Webview2AutoInstall r))
  /\ windowContext ps' = windowContext ps
  /\ webviews ps' = webviews ps.
Proof.
  intros Herr. unfold CreateWithOptions.
  destruct (Webview2AutoInstall r) as [err seen]. cbn in Herr. subst err.
  destruct (auto_install_recorded seen ps) as (Ht & Hw & Hc). cbn.
  repeat split; assumption.
Qed.

(** X20. When the auto-install step lets it go on, [CreateWithOptions]
    stores the webview in the window table under the handle that
    [CreateWindowExW] returned, whatever that handle is (it is not checked,
    zero included), records the handle in the webview and returns what
    [Embed] answered.  The other windows and the other webviews are left
    alone, and from then on a size message for the new window resizes this
    webview's browser. *)
Theorem CreateWithOptions_registers_the_window (os os' : answers)
    (r : webview2runtime) (p : Z) (opts : WindowOptions) (ps : process) :
  fst (Webview2AutoInstall r) = None ->
  let h := CreateWindowExW os in
  let ps' := snd (CreateWithOptions os r p opts ps) in
  fst (CreateWithOptions os r p opts ps) = returned (Embed os h)
  /\ getWindowContext h ps' = webview_ptr p
  /\ webviews ps' p =
       {| hwnd := h; autofocus := autofocus (webviews ps p);
          maxsz := maxsz (webviews ps p); minsz := minsz (webviews ps p) |}
  /\ (forall h', h' <> h -> getWindowContext h' ps' = getWindowContext h' ps)
  /\ (forall q, q <> p -> webviews ps' q = webviews ps q)
  /\ (forall msg wp lp lpmmi,
        msg = WMSize -> msg <> WMMove -> msg <> WMMoving ->
        msg <> WMNCLButtonDown ->
        wndProc os' h msg wp lp lpmmi ps' =
          ((0, lpmmi), made (browser_Resize p) ps')).
Proof.
  intros Hok h ps'.
  assert (Hshape : fst (CreateWithOptions os r p opts ps) = returned (Embed os h)
    /\ windowContext ps' = <[h := webview_ptr p]> (windowContext ps)
    /\ webviews ps' = fun q =>
         if q =? p
         then {| hwnd := h; autofocus := autofocus (webviews ps p);
                 maxsz := maxsz (webviews ps p); minsz := minsz (webviews ps p) |}
         else webviews ps q).
  { unfold ps', CreateWithOptions.
    destruct (Webview2AutoInstall r) as [err seen]. cbn in Hok. subst err.
    destruct (auto_install_recorded seen ps) as (Ht & Hw & _).
    destruct (Center opts); cbn; fold h; destruct (Embed os h); cbn;
      rewrite Ht, Hw; repeat split; reflexivity. }
  destruct Hshape as (Hend & Htable & Hviews).
  assert (Hctx : getWindowContext h ps' = webview_ptr p).
  { unfold getWindowContext. rewrite Htable. now rewrite lookup_insert_eq. }
  split; [exact Hend|]. split; [exact Hctx|]. split.
  { rewrite Hviews. now rewrite Z.eqb_refl. }
  split.
  { intros h' Hne. unfold getWindowContext. rewrite Htable.
    now rewrite lookup_insert_ne. }
  split.
  { intros q Hne. rewrite Hviews.
    destruct (Z.eqb_spec q p); [contradiction|reflexivity]. }
  intros msg wp lp lpmmi Hmsg H1 H2 H3. unfold wndProc. rewrite Hctx.
  destruct (Z.eqb_spec msg WMMove); [contradiction|].
  destruct (Z.eqb_spec msg WMMoving); [contradiction|].
  destruct (Z.eqb_spec msg WMNCLButtonDown); [contradiction|].
  destruct (Z.eqb_spec msg WMSize); [reflexivity|contradiction].
Qed.

(** X21. The window is never created with a zero width or height: a zero in
    the options stands for 640 by 480.  Without centring it is placed at
    [CW_USEDEFAULT].  With centring, a window that fits the screen is placed
    so that the margin on the right (below) is the margin on the left (above)
    or one more.  The position is computed in [uint]: for a window wider than
    the screen it wraps around; where [uint] has 64 bits the low 32 bits of
    the wrapped value are still the centred, negative, position, where it has
    32 bits the value is at least 2^30. *)
Theorem CreateWithOptions_places_the_window (os : answers)
    (r : webview2runtime) (p : Z) (opts : WindowOptions) (ps : process) :
  fst (Webview2AutoInstall r) = None ->
  let screenWidth := GetSystemMetrics os SM_CXSCREEN in
  let screenHeight := GetSystemMetrics os SM_CYSCREEN in
  let centred screen pos size := 0 <= (screen - (pos + size)) - pos <= 1 in
  exists x y width height,
    created (calls (snd (CreateWithOptions os r p opts ps))) =
      created (calls ps) ++ [(x, y, width, height)]
    /\ width = (if Width opts =? 0 then 640 else Width opts)
    /\ height = (if Height opts =? 0 then 480 else Height opts)
    /\ width <> 0 /\ height <> 0
    /\ (Center opts = false -> x = CW_USEDEFAULT /\ y = CW_USEDEFAULT)
    /\ (Center opts = true ->
        (0 <= width <= screenWidth -> screenWidth < 2 ^ uint_size ->
           centred screenWidth x width)
        /\ (0 <= height <= screenHeight -> screenHeight < 2 ^ uint_size ->
              centred screenHeight y height)
        /\ (uint_size = 64 -> 0 <= screenWidth < width -> width < 2 ^ 31 ->
              int32 x = (screenWidth - width) / 2)
        /\ (uint_size = 32 -> 0 <= screenWidth < width -> width < 2 ^ 31 ->
              2 ^ 30 <= x)).
Proof.
  intros Hok screenWidth screenHeight centred.
  set (width := if Width opts =? 0 then 640 else Width opts).
  set (height := if Height opts =? 0 then 480 else Height opts).
  set (x := if Center opts then uint (screenWidth - width) / 2 else CW_USEDEFAULT).
  set (y := if Center opts then uint (screenHeight - height) / 2 else CW_USEDEFAULT).
  exists x, y, width, height. split.
  { unfold CreateWithOptions.
    destruct (Webview2AutoInstall r) as [err seen]. cbn in Hok. subst err.
    destruct (auto_install_recorded seen ps) as (_ & _ & Hc).
    subst x y. fold width height screenWidth screenHeight.
    destruct (Center opts); cbn; destruct (Embed os (CreateWindowExW os)); cbn;
      rewrite Hc; unfold created; rewrite ?omap_app; cbn;
      fold (created (map auto_install seen));
      rewrite created_auto_install, ?app_nil_r; reflexivity. }
  split; [reflexivity|]. split; [reflexivity|].
  split. { subst width. destruct (Z.eqb_spec (Width opts) 0); lia. }
  split. { subst height. destruct (Z.eqb_spec (Height opts) 0); lia. }
  subst x y. split.
  { intros ->. split; reflexivity. }
  intros ->. unfold centred, uint. split; [|split; [|split]].
  - intros Hfit Hscreen. rewrite Z.mod_small by lia.
    pose proof (Z.div_mod (screenWidth - width) 2 ltac:(lia)).
    pose proof (Z.mod_pos_bound (screenWidth - width) 2 ltac:(lia)). lia.
  - intros Hfit Hscreen. rewrite Z.mod_small by lia.
    pose proof (Z.div_mod (screenHeight - height) 2 ltac:(lia)).
    pose proof (Z.mod_pos_bound (screenHeight - height) 2 ltac:(lia)). lia.
  - intros -> Hwide Hsmall.
    replace ((screenWidth - width) mod 2 ^ 64)
      with (2 ^ 63 * 2 + (screenWidth - width)).
    2:{ apply Z.mod_unique with (q := -1); lia. }
    rewrite Z.div_add_l by lia. unfold int32.
    replace (2 ^ 63 + (screenWidth - width) / 2 + 2 ^ 31)
      with ((screenWidth - width) / 2 + 2 ^ 31 + 2 ^ 31 * 2 ^ 32) by lia.
    rewrite Z.mod_add by lia.
    pose proof (Z.div_mod (screenWidth - width) 2 ltac:(lia)).
    pose proof (Z.mod_pos_bound (screenWidth - width) 2 ltac:(lia)).
    rewrite Z.mod_small; lia.
  - intros -> Hwide Hsmall.
    replace ((screenWidth - width) mod 2 ^ 32)
      with (2 ^ 31 * 2 + (screenWidth - width)).
    2:{ apply Z.mod_unique with (q := -1); lia. }
    rewrite Z.div_add_l by lia.
    pose proof (Z.div_mod (screenWidth - width) 2 ltac:(lia)).
    pose proof (Z.mod_pos_bound (screenWidth - width) 2 ltac:(lia)). lia.
Qed.

End Shell_facts.

(** * The embedding at work *)

Import demo.

(** Both sides of an equation, of an inequation or of a comparison are
    evaluated. *)
Ltac evaluate :=
  lazymatch goal with
  | |- ?a = ?b =>
      let a' := eval vm_compute in a in
      let b' := eval vm_compute in b in
      change (a' = b')
  | |- ?a <> ?b =>
      let a' := eval vm_compute in a in
      let b' := eval vm_compute in b in
      change (a' <> b')
  | |- ?a <= ?b =>
      let a' := eval vm_compute in a in
      let b' := eval vm_compute in b in
      change (a' <= b'); vm_compute
  end.

(** C2 as the spec has it fails: on a page with no [nope] bound, the call
    [{"id":7,"method":"nope","params":[]}] is dispatched a resolution, and the
    wake message evaluates the script that resolves promise 7 with [null]. *)
Lemma unbound_method_is_answered :
  Unmarshal_rpcMessage (wire "7" "nope" "") =
    Ok {| ID := 7; Method := "nope"; Params := [] |}
  /\ bindings page !! "nope" = None
  /\ dispatched (trace (msgcb (wire "7" "nope" "") page)) <>
       dispatched (trace page)
  /\ dispatchq (msgcb (wire "7" "nope" "") page) =
       [Eval_closure "window._rpc[7].resolve(null); window._rpc[7] = undefined"]
  /\ evaluated (trace (after (Run_body wake (msgcb (wire "7" "nope" "") page)))) =
       ["window._rpc[7].resolve(null); window._rpc[7] = undefined"]
  /\ evaluated (trace (after (Run_body wake (msgcb (wire "7" "nope" "") page)))) <>
       evaluated (trace page).
Proof.
  split; [reflexivity|]. split; [reflexivity|].
  split; [evaluate; discriminate|]. split; [reflexivity|].
  split; [reflexivity|]. evaluate; discriminate.
Qed.

Lemma unbound_method_resolves_null_witness :
  callbinding {| ID := 7; Method := "nope"; Params := [] |} page =
    ((None, None), page)
  /\ msgcb (wire "7" "nope" "") page =
       Dispatch (Eval_closure (resolve_script "7" "null")) page.
Proof.
  pose proof (unbound_method_resolves_null (wire "7" "nope" "")
                {| ID := 7; Method := "nope"; Params := [] |} page
                eq_refl eq_refl) as (Hc & Hm & _).
  split; [exact Hc | exact Hm].
Defined.

Lemma callbinding_interprets_results_by_arity_witness :
  callbinding {| ID := 1; Method := "div"; Params := ["6"; "0"] |} page =
    ((Some (Int 0), Some (error_of (Err "division by zero"))),
     with_world 1 (emit (reflect_Call "div" [Int 6; Int 0]) page))
  /\ msgcb (wire "1" "div" "6,0") page =
       Dispatch (Eval_closure (reject_script "1" "division by zero"))
         (with_world 1 (emit (reflect_Call "div" [Int 6; Int 0]) page))
  /\ dispatchq (msgcb (wire "1" "div" "6,0") page) =
       [Eval_closure
          ("window._rpc[1].reject(" +:+ dq +:+ "division by zero" +:+ dq +:+
           "); window._rpc[1] = undefined")]
  /\ posted (trace (msgcb (wire "1" "div" "6,0") page)) = [(1, 32768)]
  /\ called (trace (msgcb (wire "1" "div" "6,0") page)) =
       [("div", [Int 6; Int 0])]
  /\ evaluated (trace (msgcb (wire "1" "div" "6,0") page)) = []
  /\ evaluated (trace (after (Run_body wake
                                (msgcb (wire "1" "div" "6,0") page)))) =
       ["window._rpc[1].reject(" +:+ dq +:+ "division by zero" +:+ dq +:+
        "); window._rpc[1] = undefined"].
Proof.
  pose proof (callbinding_interprets_results_by_arity page
                (wire "1" "div" "6,0")
                {| ID := 1; Method := "div"; Params := ["6"; "0"] |} div
                [Int 6; Int 0] [Some (Int 0); Some (Err "division by zero")] 1
                eq_refl eq_refl eq_refl eq_refl eq_refl)
    as (_ & _ & _ & _ & _ & Htwo & _).
  destruct (Htwo int err (Some (Int 0)) (Err "division by zero")
              eq_refl eq_refl eq_refl)
    as (Hc & Hm & Hq & Hpo & Hca & Hev & _ & Hwake).
  split; [exact Hc|]. split; [exact Hm|]. split; [exact Hq|].
  split; [exact Hpo|]. split; [exact Hca|]. split; [exact Hev|].
  exact (Hwake wake eq_refl).
Defined.

Lemma arity_mismatch_fails_without_call_witness :
  callbinding {| ID := 1; Method := "add"; Params := ["2"] |} page =
    ((None, Some (errors_New "function arguments mismatch")), page)
  /\ callbinding {| ID := 2; Method := "add"; Params := ["2"; "3"] |} page =
       ((Some (Int 5), None),
        with_world 1 (emit (reflect_Call "add" [Int 2; Int 3]) page)).
Proof.
  split.
  - pose proof (arity_mismatch_fails_without_call page
                  {| ID := 1; Method := "add"; Params := ["2"] |} add eq_refl)
      as (Hfixed & _).
    apply Hfixed; [reflexivity | evaluate; discriminate].
  - pose proof (arity_mismatch_fails_without_call page
                  {| ID := 2; Method := "add"; Params := ["2"; "3"] |} add eq_refl)
      as (_ & _ & Hcall).
    apply (Hcall [Int 2; Int 3]); [reflexivity|].
    repeat constructor.
Defined.

Lemma decode_failure_rejects_without_call_witness :
  Unmarshal_rpcMessage (wire "1" "add" ("2," +:+ dq +:+ "x" +:+ dq)) =
    Ok {| ID := 1; Method := "add"; Params := ["2"; dq +:+ "x" +:+ dq] |}
  /\ callbinding
       {| ID := 1; Method := "add"; Params := ["2"; dq +:+ "x" +:+ dq] |}
       page =
       ((None,
         Some (json_error
                 "json: cannot unmarshal string into Go value of type int")),
        page)
  /\ dispatchq (msgcb (wire "1" "add" ("2," +:+ dq +:+ "x" +:+ dq)) page) =
       [Eval_closure
          ("window._rpc[1].reject(" +:+ dq +:+
           "json: cannot unmarshal string into Go value of type int" +:+ dq +:+
           "); window._rpc[1] = undefined")]
  /\ posted (trace (msgcb (wire "1" "add" ("2," +:+ dq +:+ "x" +:+ dq))
                      page)) = [(1, 32768)]
  /\ called (trace (msgcb (wire "1" "add" ("2," +:+ dq +:+ "x" +:+ dq))
                      page)) = []
  /\ evaluated (trace (after (Run_body wake
         (msgcb (wire "1" "add" ("2," +:+ dq +:+ "x" +:+ dq)) page)))) =
       ["window._rpc[1].reject(" +:+ dq +:+
        "json: cannot unmarshal string into Go value of type int" +:+ dq +:+
        "); window._rpc[1] = undefined"]
  /\ called (trace (after (Run_body wake
         (msgcb (wire "1" "add" ("2," +:+ dq +:+ "x" +:+ dq)) page)))) = [].
Proof.
  pose proof (decode_failure_rejects_without_call page
                (wire "1" "add" ("2," +:+ dq +:+ "x" +:+ dq))
                {| ID := 1; Method := "add";
                   Params := ["2"; dq +:+ "x" +:+ dq] |} add
                ["2"] (dq +:+ "x" +:+ dq) [] [Int 2]
                "json: cannot unmarshal string into Go value of type int"
                eq_refl eq_refl eq_refl eq_refl eq_refl eq_refl)
    as (Hc & _ & Hca & _ & _ & _ & Hq & Hpo & Hwake).
  destruct (Hwake wake eq_refl) as (Hev & Hca').
  split; [reflexivity|]. split; [exact Hc|]. split; [exact Hq|].
  split; [exact Hpo|]. split; [exact Hca|]. split; [exact Hev | exact Hca'].
Defined.

Lemma rebinding_replaces_the_function_witness :
  bindings rebound !! "f" = Some div
  /\ fst (callbinding {| ID := 2; Method := "f"; Params := ["6"; "3"] |}
            (life [client_Bind "g" (Func add);
                   page_message (wire "1" "f" "1,1");
                   loop_message wake] rebound)) = (Some (Int 2), None)
  /\ called (trace (snd
       (callbinding {| ID := 2; Method := "f"; Params := ["6"; "3"] |}
          (life [client_Bind "g" (Func add);
                 page_message (wire "1" "f" "1,1");
                 loop_message wake] rebound)))) =
       [("f", [Int 1; Int 1]); ("f", [Int 6; Int 3])].
Proof.
  assert (Hout : NumOut div <= 2) by (unfold NumOut; cbn; lia).
  pose proof (rebinding_replaces_the_function "f" (Func add) div
                (NewWithOptions 1 0) Hout) as (_ & _ & Hg & Hlater).
  split; [exact Hg|].
  destruct (Hlater [client_Bind "g" (Func add);
                    page_message (wire "1" "f" "1,1");
                    loop_message wake]
                   {| ID := 2; Method := "f"; Params := ["6"; "3"] |})
    as (_ & _ & _ & Hcall).
  - repeat (constructor; [intros x Hx; discriminate Hx|]). constructor.
  - reflexivity.
  - destruct (Hcall [Int 6; Int 3] eq_refl eq_refl) as (Hc & Hca & _).
    split; [|exact Hca].
    exact (f_equal fst Hc).
Defined.

Lemma wake_runs_the_queue_once_in_order_witness :
  ran (trace (after (Run_body wake
         (Dispatch (Eval_closure "b") (Dispatch (Eval_closure "a") page))))) =
    [Eval_closure "a"; Eval_closure "b"]
  /\ dispatchq (after (Run_body wake
         (Dispatch (Eval_closure "b") (Dispatch (Eval_closure "a") page)))) = [].
Proof.
  destruct wake_runs_the_queue_once_in_order as (_ & Hwake & _).
  destruct (Hwake wake
              (Dispatch (Eval_closure "b") (Dispatch (Eval_closure "a") page))
              eq_refl) as (_ & Hran & Hq).
  split; [exact Hran | exact Hq].
Defined.

Lemma Bind_rejects_or_stores_and_injects_witness :
  Bind "triple" (Func triple) page =
    (Some (errors_New "function may only return a value or a value+error"), page)
  /\ bindings (snd (Bind "tock" (Func tick) page)) = <["tock" := tick]> (bindings page).
Proof.
  split.
  - destruct (Bind_rejects_or_stores_and_injects "triple" page) as (_ & Hmany & _).
    apply Hmany. reflexivity.
  - destruct (Bind_rejects_or_stores_and_injects "tock" page) as (_ & _ & Hok).
    apply (Hok tick). evaluate. discriminate.
Defined.

Lemma msgcb_drops_invalid_message_witness :
  msgcb "junk" page =
    emit (log_Printf
            "invalid RPC message: invalid character 'j' looking for beginning of value")
      page.
Proof.
  apply (msgcb_drops_invalid_message "junk"
           "invalid character 'j' looking for beginning of value" page).
  reflexivity.
Defined.

Lemma later_calls_panic_after_both_loads_failed_witness :
  fst (webviewloader.exec_all broken
         [webviewloader.Installed; webviewloader.Create;
          webviewloader.Compare "1.0" "2.0"] webviewloader.start) =
    [webviewloader.Returned
       (Some "Unable to load WebView2Loader.dll from disk: The specified module could not be found. -- or from memory: invalid PE file");
     webviewloader.Panicked; webviewloader.Panicked].
Proof.
  apply (loader_facts.later_calls_panic_after_both_loads_failed broken
           "The specified module could not be found." "invalid PE file"
           webviewloader.Installed
           [webviewloader.Create; webviewloader.Compare "1.0" "2.0"]);
    try reflexivity.
  repeat constructor.
Defined.

Lemma wait_error_passes_for_success_witness :
  Webview2AutoInstall (runtime_on None (true, None) flaky) =
    (None,
     [Confirm_box confirm_text "提示消息";
      Setup (webviewloader.WriteFile (webviewloader.exePath flaky) 493);
      Setup (webviewloader.Command (webviewloader.exePath flaky)
               ["/silent"; "/install"]);
      Setup (webviewloader.Remove (webviewloader.exePath flaky))]).
Proof.
  apply (wait_error_passes_for_success None flaky
           "The handle is invalid."); reflexivity.
Defined.

(** * More of the embedding at work *)

Import demo_more.

Lemma variadic_call_decodes_the_rest_as_elements_witness :
  called (trace (snd (callbinding
     {| ID := 3; Method := "scale"; Params := ["2"; "5"; "6"] |} page2))) =
    called (trace page2) ++ [("scale", [Int 2; Int 5; Int 6])].
Proof.
  apply (variadic_call_decodes_the_rest_as_elements page2
           {| ID := 3; Method := "scale"; Params := ["2"; "5"; "6"] |}
           scale [int] ints ["2"] ["5"; "6"] [Int 2] [Int 5; Int 6]);
    try reflexivity; repeat constructor.
Defined.

Lemma msgcb_answers_every_call_once_witness :
  exists script,
    dispatchq (msgcb (wire "1" "add" "2,3") page) =
      dispatchq page ++ [Eval_closure script]
    /\ posted (trace (msgcb (wire "1" "add" "2,3") page)) =
         posted (trace page) ++ [(1, 32768)].
Proof.
  destruct (msgcb_answers_every_call_once (wire "1" "add" "2,3")
              {| ID := 1; Method := "add"; Params := ["2"; "3"] |} page eq_refl)
    as (script & _ & Hq & Hp & _).
  exists script. split; [exact Hq | exact Hp].
Defined.

Lemma wake_evaluates_the_queued_scripts_in_order_witness :
  evaluated (trace (after (Run_body wake
     (Dispatch (Eval_closure "b") (Dispatch (Eval_closure "a") page))))) =
    evaluated (trace (Dispatch (Eval_closure "b") (Dispatch (Eval_closure "a") page)))
    ++ ["a"; "b"].
Proof.
  apply (wake_evaluates_the_queued_scripts_in_order wake
           (Dispatch (Eval_closure "b") (Dispatch (Eval_closure "a") page))).
  reflexivity.
Defined.

Lemma answers_are_evaluated_in_call_order_witness :
  exists answers : list string,
    evaluated (trace (after (Run_body wake
       (serve [wire "1" "add" "2,3"; wire "2" "nope" ""] page)))) =
    evaluated (trace page) ++ scripts (dispatchq page) ++ answers
    /\ length answers = 2%nat.
Proof.
  destruct (answers_are_evaluated_in_call_order
              [wire "1" "add" "2,3"; wire "2" "nope" ""] wake page)
    as (answers & Hans & He).
  - repeat constructor; eexists; reflexivity.
  - reflexivity.
  - exists answers. split; [exact He|].
    symmetry. exact (Forall2_length _ _ _ Hans).
Defined.

Lemma Run_returns_at_the_first_quit_witness :
  exists w', Run [key; wake] page = Continue w'
    /\ Run ([key; wake] ++ quit :: [key]) page = Return w'.
Proof.
  apply (Run_returns_at_the_first_quit [key; wake] [key] quit page).
  - constructor; [right; evaluate; discriminate|].
    constructor; [left; reflexivity | constructor].
  - reflexivity.
  - evaluate. discriminate.
Defined.

Lemma Run_hands_on_every_message_witness :
  pumped (trace (after (Run [key; wake] page))) =
    pumped (trace page) ++ [key; wake].
Proof.
  apply (Run_hands_on_every_message [key; wake] page).
  constructor; [right; evaluate; discriminate|].
  constructor; [left; reflexivity | constructor].
Defined.

Lemma CompareBrowserVersions_refuses_NUL_witness :
  webviewloader.CompareBrowserVersions broken
    ("1" +:+ String Ascii.zero ".0") "2.0" webviewloader.start =
    (webviewloader.Returns 0 (Some "invalid argument"), webviewloader.start).
Proof.
  apply (loader_more_facts.CompareBrowserVersions_refuses_NUL broken).
  left. exists "1", ".0". reflexivity.
Defined.

Lemma memory_fallback_serves_every_call_witness :
  fst (webviewloader.exec_all sideload
         [webviewloader.Installed; webviewloader.Create;
          webviewloader.Compare "1.0" "2.0"] webviewloader.start) =
    [webviewloader.Returned (Some "The operation completed successfully.");
     webviewloader.Returned None; webviewloader.Returned None]
  /\ webviewloader.mem_loads (webviewloader.history (snd
       (webviewloader.exec_all sideload
          [webviewloader.Installed; webviewloader.Create;
           webviewloader.Compare "1.0" "2.0"] webviewloader.start))) = 1%nat.
Proof.
  destruct (loader_more_facts.memory_fallback_serves_every_call sideload
              "The specified module could not be found."
              webviewloader.Installed
              [webviewloader.Create; webviewloader.Compare "1.0" "2.0"]
              eq_refl eq_refl) as (Hv & _ & Hl).
  - repeat constructor.
  - split; [exact Hv | exact Hl].
Defined.


Lemma SetSize_limits_are_reported_by_wndProc_witness :
  w32.PtMaxSize (snd (fst (wndProc desk 100 36 0 0
     {| w32.PtMaxSize := {| w32.X := 0; w32.Y := 0 |};
        w32.PtMinTrackSize := {| w32.X := 0; w32.Y := 0 |};
        w32.PtMaxTrackSize := {| w32.X := 0; w32.Y := 0 |} |}
     (SetSize desk 1 640 480 2 one_window)))) =
    {| w32.X := 640; w32.Y := 480 |}.
Proof.
  destruct (SetSize_limits_are_reported_by_wndProc desk desk 100 36 0 0 1
              640 480 2
              {| w32.PtMaxSize := {| w32.X := 0; w32.Y := 0 |};
                 w32.PtMinTrackSize := {| w32.X := 0; w32.Y := 0 |};
                 w32.PtMaxTrackSize := {| w32.X := 0; w32.Y := 0 |} |}
              one_window)
    as (_ & _ & Hmax & _).
  1-9: first [reflexivity | vm_compute; discriminate].
  destruct (Hmax eq_refl) as (Hon & _).
  apply Hon; vm_compute; reflexivity.
Defined.

Lemma MoveToCenter_centres_and_keeps_the_size_witness :
  exists x y,
    moved (calls (MoveToCenter desk 1 one_window)) =
      moved (calls one_window) ++ [(100, x, y, 800, 600)].
Proof.
  destruct (MoveToCenter_centres_and_keeps_the_size desk 1 one_window)
    as (x & y & Hm & _).
  1-4: vm_compute; split; [discriminate | reflexivity].
  exists x, y. exact Hm.
Defined.

Lemma CreateWithOptions_exits_with_status_zero_witness :
  fst (CreateWithOptions desk without_runtime 1 centred_window no_window) =
    os_Exit 0.
Proof.
  apply (CreateWithOptions_exits_with_status_zero desk without_runtime 1
           centred_window no_window "the prompt could not be shown").
  reflexivity.
Defined.

Lemma CreateWithOptions_registers_the_window_witness :
  getWindowContext 100
    (snd (CreateWithOptions desk with_runtime 1 centred_window no_window)) =
    webview_ptr 1.
Proof.
  apply (CreateWithOptions_registers_the_window desk desk with_runtime 1
           centred_window no_window).
  reflexivity.
Defined.

Lemma CreateWithOptions_places_the_window_witness :
  exists x y width height,
    created (calls (snd
      (CreateWithOptions desk with_runtime 1 centred_window no_window))) =
      created (calls no_window) ++ [(x, y, width, height)]
    /\ width <> 0 /\ height <> 0.
Proof.
  destruct (CreateWithOptions_places_the_window desk with_runtime 1
              centred_window no_window eq_refl)
    as (x & y & width & height & Hc & _ & _ & Hw & Hh & _).
  exists x, y, width, height. auto.
Defined.
